(** * images_from_slides: the slide-to-PNG extractor, embedded and verified

    A shallow embedding of [image_extractor.py].  Python integers are [Z],
    [str] is [string] (processed as a list of characters), Pillow images
    are records carrying a mode, a size and the rows of pixels, the
    dictionary [name_counts] is a [gmap], and code that can raise returns
    a [result].  The driver prints, saves files and calls the file
    system, the libraries and the external tools: it is a computation
    that, from the lines printed so far, gives the files saved, the lines
    printed and a value or an exception, and every call that can raise in
    the source can raise in it. *)

From Stdlib Require Import ZArith QArith Lia Bool Ascii String List.
From stdpp Require Import gmap strings list pretty.

Local Open Scope Z_scope.

(** ** Exceptions and fallible results

    The exceptions are those of class [Exception], which the handler of
    the program catches; interrupts from outside and the exhaustion of
    memory are not part of the model. *)

Inductive exn :=
  | ValueError
  | FileNotFoundError
  | CalledProcessError
  | OSError
  | UnicodeEncodeError
  | ModuleNotFoundError
  | OtherException.

Inductive result (A : Type) :=
  | Ok (a : A)
  | Raise (e : exn).
Arguments Ok {A} a.
Arguments Raise {A} e.

Definition bind {A B} (r : result A) (k : A -> result B) : result B :=
  match r with
  | Ok a => k a
  | Raise e => Raise e
  end.

Notation "'try!' x ':=' r 'in' k" := (bind r (fun x => k))
  (at level 10, x name, r at level 100, k at level 200).

(** ** sanitize_filename *)

Module Sanitizer.

(** [invalid_chars]: the nine characters less-than, greater-than, colon,
    double quote (code 34), slash, backslash, bar, question mark, star. *)
Definition invalid_chars : list ascii :=
  ["<"; ">"; ":"; "034"; "/"; "\"; "|"; "?"; "*"]%char.

(** The characters [str.split()] and [str.strip()] treat as whitespace,
    among the code points below 256: TAB, LF, VT, FF, CR, FS, GS, RS, US,
    SPACE, NEL and NBSP. *)
Definition whitespace : list ascii :=
  map ascii_of_nat [9; 10; 11; 12; 13; 28; 29; 30; 31; 32; 133; 160]%nat.

Definition is_space (c : ascii) : bool := existsb (Ascii.eqb c) whitespace.

Definition space : ascii := " "%char.

(** [text.replace(char, '')] for a one-character [char]. *)
Definition replace_char (c : ascii) (text : list ascii) : list ascii :=
  List.filter (fun d => negb (Ascii.eqb d c)) text.

(** [text.split()]: the maximal runs of non-whitespace characters;
    [cur] is the run being read. *)
Fixpoint split_from (cur text : list ascii) : list (list ascii) :=
  match text with
  | [] => match cur with [] => [] | _ => [cur] end
  | c :: rest =>
      if is_space c then
        match cur with
        | [] => split_from [] rest
        | _ => cur :: split_from [] rest
        end
      else split_from (cur ++ [c]) rest
  end.

Definition split (text : list ascii) : list (list ascii) := split_from [] text.

(** [' '.join(words)] *)
Fixpoint join (words : list (list ascii)) : list ascii :=
  match words with
  | [] => []
  | [w] => w
  | w :: ws => w ++ space :: join ws
  end.

Fixpoint lstrip (text : list ascii) : list ascii :=
  match text with
  | [] => []
  | c :: rest => if is_space c then lstrip rest else text
  end.

Fixpoint rstrip (text : list ascii) : list ascii :=
  match text with
  | [] => []
  | c :: rest =>
      match rstrip rest with
      | [] => if is_space c then [] else [c]
      | r => c :: r
      end
  end.

(** [text.strip()] *)
Definition strip (text : list ascii) : list ascii := rstrip (lstrip text).

Definition sanitize_chars (text : list ascii) : list ascii :=
  let text := fold_left (fun t char => replace_char char t) invalid_chars text in
  let text := join (split text) in
  let text := if (100 <? Z.of_nat (length text)) then firstn 100 text else text in
  strip text.

Definition sanitize_filename (text : string) : string :=
  string_of_list_ascii (sanitize_chars (list_ascii_of_string text)).

End Sanitizer.

(** ** Raster images, after Pillow

    A Pillow image has a mode, a size and its pixel rows ([image[y][x]] in
    libImaging).  A pixel is stored as four bands; in mode [RGB] the fourth
    band is padding and in mode [L] only the first band carries data.  The
    source only ever reads and writes pixels of [RGBA] images. *)

Module Raster.

Inductive mode := L | RGB | RGBA.

Definition mode_eqb (m1 m2 : mode) : bool :=
  match m1, m2 with
  | L, L | RGB, RGB | RGBA, RGBA => true
  | _, _ => false
  end.

Definition pixel : Type := Z * Z * Z * Z.

Definition red (p : pixel) : Z := let '(r, _, _, _) := p in r.
Definition green (p : pixel) : Z := let '(_, g, _, _) := p in g.
Definition blue (p : pixel) : Z := let '(_, _, b, _) := p in b.
Definition alpha (p : pixel) : Z := let '(_, _, _, a) := p in a.

Definition zero_pixel : pixel := (0, 0, 0, 0).

Record image := Image {
  mode_of : mode;
  width : Z;
  height : Z;
  rows : list (list pixel)
}.

(** The size agrees with the stored rows. *)
Definition well_formed (img : image) : Prop :=
  0 <= width img /\ 0 <= height img /\
  length (rows img) = Z.to_nat (height img) /\
  Forall (fun row => length row = Z.to_nat (width img)) (rows img).

Definition in_bounds (img : image) (x y : Z) : Prop :=
  0 <= x < width img /\ 0 <= y < height img.

Definition in_boundsb (img : image) (x y : Z) : bool :=
  (0 <=? x) && (x <? width img) && (0 <=? y) && (y <? height img).

(** [img.getpixel((x, y))] for a position inside the image. *)
Definition getpixel (img : image) (x y : Z) : pixel :=
  nth (Z.to_nat x) (nth (Z.to_nat y) (rows img) []) zero_pixel.

(** [range(n)] *)
Definition range (n : Z) : list Z := map Z.of_nat (seq 0 (Z.to_nat n)).

(** [img.convert('RGBA')] *)
Definition to_rgba (m : mode) (p : pixel) : pixel :=
  match m with
  | L => (red p, red p, red p, 255)
  | RGB => (red p, green p, blue p, 255)
  | RGBA => p
  end.

Definition convert_RGBA (img : image) : image :=
  {| mode_of := RGBA; width := width img; height := height img;
     rows := map (map (to_rgba (mode_of img))) (rows img) |}.

(** [if img.mode != 'RGBA': img = img.convert('RGBA')] *)
Definition ensure_RGBA (img : image) : image :=
  if mode_eqb (mode_of img) RGBA then img else convert_RGBA img.

(** [img.getdata()]: the pixels in row-major order. *)
Definition getdata (img : image) : list pixel := concat (rows img).

(** [img.putdata(data)]: copies [data] over the pixels in row-major
    order; pixels beyond the end of [data] keep their value. *)
Fixpoint fill_rows (rs : list (list pixel)) (data : list pixel) : list (list pixel) :=
  match rs with
  | [] => []
  | row :: rest =>
      (firstn (length row) data ++ skipn (length data) row)
        :: fill_rows rest (skipn (length row) data)
  end.

Definition putdata (img : image) (data : list pixel) : image :=
  {| mode_of := mode_of img; width := width img; height := height img;
     rows := fill_rows (rows img) data |}.

Definition box : Type := Z * Z * Z * Z.

(** [img.crop((left, upper, right, lower))]: the result has size
    [(right - left, lower - upper)]; positions outside the source read as
    zero.  Pillow raises [ValueError] when [right < left] or
    [lower < upper]. *)
Definition crop (img : image) (b : box) : result image :=
  let '(left_, upper, right_, lower) := b in
  if right_ <? left_ then Raise ValueError
  else if lower <? upper then Raise ValueError
  else Ok {| mode_of := mode_of img;
             width := right_ - left_; height := lower - upper;
             rows := map (fun j => map (fun i =>
                       if in_boundsb img (left_ + i) (upper + j)
                       then getpixel img (left_ + i) (upper + j)
                       else zero_pixel) (range (right_ - left_)))
                     (range (lower - upper)) |}.

(** [ImageDraw.Draw(img).rectangle([x0, y0, x1, y1], fill=ink)]: the box
    includes both end points and is clipped to the image; Pillow raises
    [ValueError] when [x1 < x0] or [y1 < y0]. *)
Definition draw_rectangle (img : image) (b : box) (ink : pixel) : result image :=
  let '(x0, y0, x1, y1) := b in
  if x1 <? x0 then Raise ValueError
  else if y1 <? y0 then Raise ValueError
  else Ok {| mode_of := mode_of img; width := width img; height := height img;
             rows := imap (fun j row => imap (fun i p =>
                       if (x0 <=? Z.of_nat i) && (Z.of_nat i <=? x1)
                          && (y0 <=? Z.of_nat j) && (Z.of_nat j <=? y1)
                       then ink else p) row) (rows img) |}.

(** [img.split()[-1]]: the alpha band of an RGBA image. *)
Definition alpha_band (img : image) : list (list Z) := map (map alpha) (rows img).

(** [getbbox()], after libImaging's [ImagingGetBBox]: one pass over the
    rows, keeping the least column, the first row, one past the greatest
    column and one past the last row that hold a non-zero value. *)
Fixpoint scan_row (row : list Z) (x : Z) (st : Z * Z * bool) : Z * Z * bool :=
  match row with
  | [] => st
  | v :: rest =>
      let '(b0, b2, has_data) := st in
      scan_row rest (x + 1)
        (if v =? 0 then st
         else ((if x <? b0 then x else b0), (if b2 <=? x then x + 1 else b2), true))
  end.

Fixpoint scan_rows (rs : list (list Z)) (y : Z) (bb : box) : box :=
  match rs with
  | [] => bb
  | row :: rest =>
      let '(b0, b1, b2, b3) := bb in
      let '(b0', b2', has_data) := scan_row row 0 (b0, b2, false) in
      scan_rows rest (y + 1)
        (if has_data then (b0', (if b1 <? 0 then y else b1), b2', y + 1)
         else (b0', b1, b2', b3))
  end.

Definition getbbox (xsize : Z) (band : list (list Z)) : option box :=
  let '(b0, b1, b2, b3) := scan_rows band 0 (xsize, -1, 0, 0) in
  if b1 <? 0 then None else Some (b0, b1, b2, b3).

(** [img.resize((w, h), Image.Resampling.LANCZOS)]: a request for the
    current size returns a copy; otherwise Pillow raises [ValueError]
    unless both sides are at least 1.  The resampled pixels come from the
    filter [resample], which is left abstract. *)
Definition resize (resample : image -> Z -> Z -> list (list pixel))
    (img : image) (w h : Z) : result image :=
  if (w =? width img) && (h =? height img) then Ok img
  else if (w <? 1) || (h <? 1) then Raise ValueError
  else Ok {| mode_of := mode_of img; width := w; height := h;
             rows := resample img w h |}.

End Raster.

(** ** Slides, after python-pptx, and extract_slide_title_and_bbox *)

Module Locator.

(** Position and size of a shape, in EMU. *)
Record geometry := Geometry {
  left : Z;
  top : Z;
  width : Z;
  height : Z
}.

(** A shape; [text] is [None] when the shape has no [text] attribute
    (pictures, connectors). *)
Record shape := Shape {
  text : option string;
  geom : geometry
}.

(** [slide.shapes.title] is the title placeholder, which always carries
    text, or [None]. *)
Record title_shape := TitleShape {
  title_text : string;
  title_geom : geometry
}.

Record slide := Slide {
  title : option title_shape;
  shapes : list shape
}.

(** The presentation; the page size is positive (the file format bounds
    it from below by one inch). *)
Record presentation := Presentation {
  slide_width : positive;
  slide_height : positive;
  slides : list slide
}.

(** The bounding box as fractions of the page: Python's true division of
    two integers, taken here as the exact quotient. *)
Definition bbox : Type := Q * Q * Q * Q.

Definition relative (prs : presentation) (g : geometry) : bbox :=
  (left g # slide_width prs,
   top g # slide_height prs,
   width g # slide_width prs,
   height g # slide_height prs).

Definition strip_text (s : string) : string :=
  string_of_list_ascii (Sanitizer.strip (list_ascii_of_string s)).

Definition nonempty (s : string) : bool :=
  match s with EmptyString => false | _ => true end.

(** The loop over [slide.shapes]: the first shape that has text which is
    not blank. *)
Fixpoint first_text (prs : presentation) (l : list shape)
  : option string * option bbox :=
  match l with
  | [] => (None, None)
  | sh :: rest =>
      match text sh with
      | Some t =>
          if nonempty (strip_text t)
          then (Some (strip_text t), Some (relative prs (geom sh)))
          else first_text prs rest
      | None => first_text prs rest
      end
  end.

Definition extract_slide_title_and_bbox (prs : presentation) (s : slide)
  : option string * option bbox :=
  match title s with
  | Some title_shape =>
      (Some (title_text title_shape), Some (relative prs (title_geom title_shape)))
  | None => first_text prs (shapes s)
  end.

End Locator.

(** ** The image stages and the driver *)

Module Extractor.

Import Raster.

(** [int(q)] of a fraction: truncation toward zero.  The fractions of
    the box and their products with the image size are taken exactly,
    where the code computes them in double precision; the two agree
    whenever the fraction is exact in binary, and can differ by one pixel
    otherwise.  The facts about the title eraser hold for every value of
    these products. *)
Definition int_of (q : Q) : Z := Z.quot (Qnum q) (Zpos (Qden q)).

(** The pixel rectangle of the title: [(x, y, width, height)] after the
    margin and the clamping. *)
Definition title_rect (img_width img_height : Z) (bbox : Locator.bbox) (margin : Z)
  : Z * Z * Z * Z :=
  let '(x_rel, y_rel, width_rel, height_rel) := bbox in
  let x := int_of (x_rel * inject_Z img_width) - margin in
  let y := int_of (y_rel * inject_Z img_height) - margin in
  let width := int_of (width_rel * inject_Z img_width) + 2 * margin in
  let height := int_of (height_rel * inject_Z img_height) + 2 * margin in
  let x := Z.max 0 x in
  let y := Z.max 0 y in
  let width := Z.min width (img_width - x) in
  let height := Z.min height (img_height - y) in
  (x, y, width, height).

(** The box handed to [draw.rectangle]. *)
Definition fill_box (r : Z * Z * Z * Z) : box :=
  let '(x, y, width, height) := r in (x, y, x + width, y + height).

Definition transparent_white : pixel := (255, 255, 255, 0).

Definition remove_title_from_image (img : image) (bbox : option Locator.bbox)
    (margin : Z) : result image :=
  match bbox with
  | None => Ok img
  | Some bb =>
      let r := title_rect (Raster.width img) (Raster.height img) bb margin in
      let img := ensure_RGBA img in
      draw_rectangle img (fill_box r) transparent_white
  end.

(** The box [autocrop_image] crops to, given the bounding box of the
    alpha band. *)
Definition crop_box (img : image) (bbox : box) (margin : Z) : box :=
  let '(left_, top_, right_, bottom_) := bbox in
  let left_ := Z.max 0 (left_ - margin) in
  let top_ := Z.max 0 (top_ - margin) in
  let right_ := Z.min (Raster.width img) (right_ + margin) in
  let bottom_ := Z.min (Raster.height img) (bottom_ + margin) in
  (left_, top_, right_, bottom_).

Definition autocrop_image (img : image) (margin : Z) : result image :=
  let img := ensure_RGBA img in
  let alpha := alpha_band img in
  match getbbox (Raster.width img) alpha with
  | None => crop img (0, 0, 100, 100)
  | Some bbox => crop img (crop_box img bbox margin)
  end.

(** The near-white test of the background filter and the pixel it
    appends to [new_data]. *)
Definition filter_pixel (item : pixel) : pixel :=
  if (250 <? red item) && (250 <? green item) && (250 <? blue item)
  then (255, 255, 255, 0)
  else item.

(** The loop over [img.getdata()] followed by [img.putdata(new_data)]. *)
Definition background_filter (img : image) : image :=
  let data := getdata img in
  let new_data := fold_left (fun acc item => acc ++ [filter_pixel item]) data [] in
  putdata img new_data.

Section Resampling.

Variable resample : image -> Z -> Z -> list (list pixel).

(** [int(img.width * scale_percent / 100)]: the true division is taken
    as the exact quotient, and [int] truncates it toward zero.  The code
    divides in double precision, which gives the same integer as long as
    the quotient stays below 2^47, as it does for every image Pillow can
    hold at a scale from 1 to 99; for a negative scale of several hundred
    digits the division itself raises, where here the failure is the one
    of [resize]. *)
Definition resize_image (img : image) (scale_percent : Z) : result image :=
  if 100 <=? scale_percent then Ok img
  else
    let width := Z.quot (Raster.width img * scale_percent) 100 in
    let height := Z.quot (Raster.height img * scale_percent) 100 in
    resize resample img width height.

End Resampling.

End Extractor.

Module Driver.

Import Raster.

Record options := Options {
  remove_title : bool;
  autocrop : bool;
  crop_margin : Z;
  scale_percent : Z
}.

(** Python's truth value of a title: [None] and the empty string are
    false. *)
Definition truthy (title : option string) : bool :=
  match title with
  | Some t => Locator.nonempty t
  | None => false
  end.

(** The truth value of [bbox]: a tuple of four numbers is true, [None]
    is false. *)
Definition has_bbox (bbox : option Locator.bbox) : bool :=
  match bbox with Some _ => true | None => false end.

Definition png : string := ".png".

(** Lines 317 to 328: the output name of slide [idx] and the updated
    registry. *)
Definition output_name (idx : Z) (title : option string)
    (name_counts : gmap string Z) : string * gmap string Z :=
  if truthy title then
    let safe_title := Sanitizer.sanitize_filename (default EmptyString title) in
    match name_counts !! safe_title with
    | Some n =>
        let name_counts := <[safe_title := n + 1]> name_counts in
        (safe_title +:+ "_" +:+ pretty (n + 1) +:+ png, name_counts)
    | None =>
        let name_counts := <[safe_title := 1]> name_counts in
        (safe_title +:+ png, name_counts)
    end
  else ("Slide_" +:+ pretty idx +:+ png, name_counts).

(** The names the loop gives to the slides, in order; [idx] is the
    1-based position of the first of [titles]. *)
Fixpoint output_names (titles : list (option string)) (idx : Z)
    (name_counts : gmap string Z) : list string :=
  match titles with
  | [] => []
  | title :: rest =>
      let '(name, name_counts) := output_name idx title name_counts in
      name :: output_names rest (idx + 1) name_counts
  end.

(** What is known of a slide before the conversion: title and box. *)
Abbreviation slide_info := (option string * option Locator.bbox)%type.

(** The files saved so far, in order, each with its name; on disk a
    later file of the same name replaces the earlier one. *)
Abbreviation written := (list (string * image)).

(** The lines the program prints.  Every call of [print] is one line;
    the lines that matter to a reader have a constructor of their own and
    the others are [MsgInfo]. *)
Inductive message :=
  | MsgUsage
  | MsgInfo
  | MsgWritten (output_name : string)
  | MsgStatistics
  | MsgDone
  | MsgNotFound (pptx_path : string)
  | MsgLibreOfficeMissing
  | MsgPdfError
  | MsgPdfNotCreated
  | MsgPdftoppmMissing
  | MsgNoPng
  | MsgError (e : exn).

(** A printing computation: the lines printed, and the value returned or
    the exception raised. *)
Definition io (A : Type) : Type := list message * result A.

(** A part of the run: given the lines printed before it, the files it
    saves, the lines it prints, and its value or exception. *)
Definition action (A : Type) : Type := list message -> written * io A.

Definition ret {A} (a : A) : action A := fun _ => ([], ([], Ok a)).

(** A call that prints nothing and saves nothing. *)
Definition lift {A} (r : result A) : action A := fun _ => ([], ([], r)).

Definition bind_action {A B} (m : action A) (k : A -> action B) : action B :=
  fun printed =>
    let '(out, (msgs, r)) := m printed in
    match r with
    | Raise e => (out, (msgs, Raise e))
    | Ok a =>
        let '(out', (msgs', r')) := k a (printed ++ msgs) in
        (out ++ out', (msgs ++ msgs', r'))
    end.

Notation "'do!' x ':=' m 'in' k" := (bind_action m (fun x => k))
  (at level 10, x name, m at level 100, k at level 200).

(** [try: m  except Exception as e: handler e] *)
Definition catch {A} (m : action A) (handler : exn -> action A) : action A :=
  fun printed =>
    let '(out, (msgs, r)) := m printed in
    match r with
    | Ok a => (out, (msgs, Ok a))
    | Raise e =>
        let '(out', (msgs', r')) := handler e (printed ++ msgs) in
        (out ++ out', (msgs ++ msgs', r'))
    end.

(** Leaving a [with] block: the clean-up runs however the block ends,
    and an exception of the clean-up replaces the outcome of the
    block. *)
Definition finally {A} (m : action A) (cleanup : result unit) : action A :=
  fun printed =>
    let '(out, (msgs, r)) := m printed in
    match cleanup with
    | Ok _ => (out, (msgs, r))
    | Raise e => (out, (msgs, Raise e))
    end.

Section Run.

Variable resample : image -> Z -> Z -> list (list pixel).

(** Lines 343 to 369: what happens to one loaded page. *)
Definition process_image (o : options) (bbox : option Locator.bbox) (img : image)
  : result image :=
  let img := ensure_RGBA img in
  let img := Extractor.background_filter img in
  try! img := (if remove_title o && has_bbox bbox
               then Extractor.remove_title_from_image img bbox 15
               else Ok img) in
  try! img := (if autocrop o
               then Extractor.autocrop_image img (crop_margin o)
               else Ok img) in
  try! img := (if scale_percent o <? 100
               then Extractor.resize_image resample img (scale_percent o)
               else Ok img) in
  Ok img.

(** What the run can observe of its surroundings: the libraries, the
    file system, the presentation parser, the external tools and the
    standard streams.  Every call that can raise has a [result].  A page
    is opened once and the tools run once, so these answers depend on the
    arguments only; a line can be printed many times and an output name
    can be met twice, so the answers of standard output and of the file
    system for an output name also depend on the lines printed so
    far. *)
Record env := Env {
  (* lines 9 to 15: the imports of python-pptx and Pillow *)
  import_libraries : result unit;
  (* os.path.exists(pptx_path) *)
  path_exists : string -> bool;
  (* os.makedirs(output_dir, exist_ok=True) *)
  makedirs : string -> result unit;
  (* os.listdir(output_dir) *)
  listdir : string -> result (list string);
  (* Presentation(pptx_path) and len(prs.slides) *)
  load_presentation : string -> result Locator.presentation;
  (* shutil.which(name) is not None *)
  which : string -> bool;
  (* tempfile.TemporaryDirectory() *)
  make_tmpdir : result unit;
  (* subprocess.run(['soffice', ...], check=True, ...) *)
  run_soffice : result unit;
  (* the same command with 'libreoffice' *)
  run_libreoffice : result unit;
  (* os.path.exists(pdf_file) *)
  pdf_exists : bool;
  (* subprocess.run(['pdftoppm', ...], check=True) *)
  run_pdftoppm : result unit;
  (* os.listdir(tmpdir) *)
  listdir_tmpdir : result (list string);
  (* os.path.exists(output_path), line 333 *)
  output_exists : list message -> string -> bool;
  (* Image.open(img_path), with the loading of its pixels *)
  open_image : string -> result image;
  (* img.save(output_path, 'PNG', optimize=True) *)
  save_image : list message -> string -> image -> result unit;
  (* os.path.getsize(output_path), line 170 *)
  getsize : list message -> string -> result unit;
  (* the clean-up of the temporary directory when the with block ends *)
  cleanup_tmpdir : result unit;
  (* a line written to standard output *)
  stdout : list message -> message -> result unit;
  (* traceback.print_exc(), on standard error *)
  print_exc : result unit;
  (* the flush of the standard streams when the interpreter shuts down *)
  flush_std_files : result unit
}.

(** [print(...)]: the line is printed, or the stream raises (the
    encoding cannot represent a character, the pipe is closed, the disk
    is full) and nothing is printed. *)
Definition print (E : env) (m : message) : action unit :=
  fun printed =>
    match stdout E printed m with
    | Ok _ => ([], ([m], Ok tt))
    | Raise e => ([], ([], Raise e))
    end.

(** [img.save(...)], line 372: the file is recorded when the call
    returns.  (A call that raises can leave a truncated file behind; it
    is not counted among the files written.) *)
Definition save (E : env) (name : string) (img : image) : action unit :=
  fun printed =>
    match save_image E printed name img with
    | Ok _ => ([(name, img)], ([], Ok tt))
    | Raise e => ([], ([], Raise e))
    end.

(** [get_file_size_mb(output_path)]; the size itself only goes into the
    lines printed. *)
Definition get_file_size_mb (E : env) (name : string) : action unit :=
  fun printed => ([], ([], getsize E printed name)).

(** [os.path.exists(output_path)] at this point of the run. *)
Definition file_existed (E : env) (name : string) : action bool :=
  fun printed => ([], ([], Ok (output_exists E printed name))).

(** The loop of lines 315 to 397 over [zip(png_files, slides_info)];
    its value is [(files_created, files_overwritten)]. *)
Fixpoint process_slides (E : env) (o : options)
    (pages : list (string * slide_info)) (idx : Z)
    (name_counts : gmap string Z) (files_created files_overwritten : Z)
  : action (Z * Z) :=
  match pages with
  | [] => ret (files_created, files_overwritten)
  | (png_file, (title, bbox)) :: rest =>
      let '(name, name_counts) := output_name idx title name_counts in
      do! existed := file_existed E name in
      do! img := lift (open_image E png_file) in
      do! img := lift (process_image o bbox img) in
      do! _u := save E name img in
      do! _size := get_file_size_mb E name in
      let files_overwritten :=
        if existed then files_overwritten + 1 else files_overwritten in
      let files_created :=
        if existed then files_created else files_created + 1 in
      do! _p := print E (MsgWritten name) in
      process_slides E o rest (idx + 1) name_counts files_created files_overwritten
  end.

(** Lines 399 to 405. *)
Definition print_statistics (E : env) (files_created files_overwritten : Z)
  : action unit :=
  do! _p := print E MsgStatistics in
  do! _p := (if 0 <? files_created then print E MsgInfo else ret tt) in
  do! _p := (if 0 <? files_overwritten then print E MsgInfo else ret tt) in
  do! _p := print E MsgInfo in
  print E MsgInfo.

Definition ends_with (suffix s : string) : bool :=
  let a := list_ascii_of_string suffix in
  let b := list_ascii_of_string s in
  bool_decide (skipn (length b - length a) b = a).

Fixpoint insert_sorted (s : string) (l : list string) : list string :=
  match l with
  | [] => [s]
  | t :: rest => if String.leb s t then s :: l else t :: insert_sorted s rest
  end.

(** [sorted(...)] on strings. *)
Definition sorted (l : list string) : list string := fold_right insert_sorted [] l.

(** Line 301: [sorted([f for f in listing if f.endswith('.png')])]. *)
Definition sorted_pngs (listing : list string) : list string :=
  sorted (List.filter (ends_with png) listing).

(** The sorted names of the rasterized pages in the temporary
    directory; none when the directory cannot be listed. *)
Definition png_files (E : env) : list string :=
  match listdir_tmpdir E with
  | Ok listing => sorted_pngs listing
  | Raise _ => []
  end.

(** Lines 269 to 277: the conversion to PDF; [false] after the
    diagnostic of a failed conversion. *)
Definition convert_to_pdf (E : env) : action bool :=
  match run_soffice E with
  | Ok _ => ret true
  | Raise FileNotFoundError =>
      do! _u := lift (run_libreoffice E) in
      ret true
  | Raise CalledProcessError =>
      do! _p := print E MsgPdfError in
      do! _p := print E MsgInfo in
      ret false
  | Raise e => lift (Raise e)
  end.

(** Lines 287 to 299: the rasterization; [false] after the diagnostic of
    a missing [pdftoppm]. *)
Definition convert_to_png (E : env) : action bool :=
  match run_pdftoppm E with
  | Ok _ => ret true
  | Raise FileNotFoundError =>
      do! _p := print E MsgPdftoppmMissing in
      do! _p := print E MsgInfo in
      do! _p := print E MsgInfo in
      ret false
  | Raise e => lift (Raise e)
  end.

Definition use_libreoffice_method (E : env) (slides_info : list slide_info)
    (o : options) : action unit :=
  do! _u := lift (make_tmpdir E) in
  finally
    (do! _p := print E MsgInfo in
     do! converted := convert_to_pdf E in
     if negb converted then ret tt
     else if negb (pdf_exists E) then print E MsgPdfNotCreated
     else
       do! _p := print E MsgInfo in
       do! rasterized := convert_to_png E in
       if negb rasterized then ret tt
       else
         do! listing := lift (listdir_tmpdir E) in
         match sorted_pngs listing with
         | [] => print E MsgNoPng
         | _ :: _ =>
             do! _p := print E MsgInfo in
             do! counts :=
               process_slides E o (zip (sorted_pngs listing) slides_info) 1 ∅ 0 0 in
             print_statistics E (fst counts) (snd counts)
         end)
    (cleanup_tmpdir E).

(** [f.lower()] on the code points below 256. *)
Definition lower_char (c : ascii) : ascii :=
  let n := nat_of_ascii c in
  if ((65 <=? n) && (n <=? 90) || (192 <=? n) && (n <=? 214)
      || (216 <=? n) && (n <=? 222))%nat
  then ascii_of_nat (n + 32) else c.

Definition lower (s : string) : string :=
  string_of_list_ascii (map lower_char (list_ascii_of_string s)).

(** Lines 220 to 227: the titles and boxes of the slides, one line
    printed for each. *)
Fixpoint collect_slides_info (E : env) (prs : Locator.presentation)
    (slides : list Locator.slide) : action (list slide_info) :=
  match slides with
  | [] => ret []
  | slide :: rest =>
      let info := Locator.extract_slide_title_and_bbox prs slide in
      do! _p := print E MsgInfo in
      do! infos := collect_slides_info E prs rest in
      ret (info :: infos)
  end.

(** Lines 208 to 216: the number of slides and what will be done to
    them. *)
Definition announce_settings (E : env) (o : options) : action unit :=
  do! _p := print E MsgInfo in
  do! _p := print E MsgInfo in
  do! _p := (if remove_title o then print E MsgInfo else ret tt) in
  do! _p := (if autocrop o then print E MsgInfo else ret tt) in
  do! _p := (if scale_percent o <? 100 then print E MsgInfo else ret tt) in
  print E MsgInfo.

(** Lines 205 to 247: the body of the try block. *)
Definition convert_presentation (E : env) (pptx_path : string) (o : options)
  : action unit :=
  do! prs := lift (load_presentation E pptx_path) in
  do! _p := announce_settings E o in
  do! slides_info := collect_slides_info E prs (Locator.slides prs) in
  do! _p := print E MsgInfo in
  let has_libreoffice := which E "soffice" || which E "libreoffice" in
  if has_libreoffice then
    do! _p := print E MsgInfo in
    do! _u := use_libreoffice_method E slides_info o in
    do! _p := print E MsgInfo in
    print E MsgDone
  else
    do! _p := print E MsgLibreOfficeMissing in
    do! _p := print E MsgInfo in
    do! _p := print E MsgInfo in
    do! _p := print E MsgInfo in
    print E MsgInfo.

(** Lines 249 to 252: the handler of the try block. *)
Definition report_error (E : env) (e : exn) : action unit :=
  do! _p := print E (MsgError e) in
  lift (print_exc E).

(** Lines 196 to 202: the output directory, with a warning when it
    already holds images, and the file being loaded. *)
Definition announce_output (E : env) (existing_files : list string) : action unit :=
  do! _p := (match existing_files with
             | [] => print E MsgInfo
             | _ => do! _p := print E MsgInfo in print E MsgInfo
             end) in
  print E MsgInfo.

Definition pptx_to_png_transparent (E : env) (pptx_path output_dir : string)
    (o : options) : action unit :=
  if negb (path_exists E pptx_path) then print E (MsgNotFound pptx_path)
  else
    do! _u := lift (makedirs E output_dir) in
    do! listing := lift (listdir E output_dir) in
    let existing_files := List.filter (fun f => ends_with png (lower f)) listing in
    do! _p := announce_output E existing_files in
    catch (convert_presentation E pptx_path o) (report_error E).

End Run.

End Driver.

(** ** The command line *)

Module Cli.

Import Raster Driver.

Definition is_decimal (c : ascii) : bool :=
  let n := nat_of_ascii c in (48 <=? n)%nat && (n <=? 57)%nat.

Definition digit_value (c : ascii) : Z := Z.of_nat (nat_of_ascii c) - 48.

Definition underscore : ascii := "_"%char.

(** Digits with single underscores between them, as [int] accepts. *)
Fixpoint digits_from (acc : Z) (seen_digit : bool) (s : list ascii) : result Z :=
  match s with
  | [] => if seen_digit then Ok acc else Raise ValueError
  | c :: rest =>
      if is_decimal c then digits_from (10 * acc + digit_value c) true rest
      else if Ascii.eqb c underscore && seen_digit
      then match rest with
           | d :: _ => if is_decimal d then digits_from acc false rest
                       else Raise ValueError
           | [] => Raise ValueError
           end
      else Raise ValueError
  end.

(** The characters [int] skips around a number, among the code points
    below 256: TAB, LF, VT, FF, CR, SPACE, NEL and NBSP.  The separators
    FS, GS, RS and US, which [str.strip] removes, are not among them. *)
Definition int_whitespace : list ascii :=
  map ascii_of_nat [9; 10; 11; 12; 13; 32; 133; 160]%nat.

Definition is_int_space (c : ascii) : bool := existsb (Ascii.eqb c) int_whitespace.

Fixpoint skip_spaces (s : list ascii) : list ascii :=
  match s with
  | [] => []
  | c :: rest => if is_int_space c then skip_spaces rest else s
  end.

Definition trim_spaces (s : list ascii) : list ascii :=
  rev (skip_spaces (rev (skip_spaces s))).

(** The interpreter's default limit on the number of digits of a decimal
    string ([sys.int_info.default_max_str_digits]). *)
Definition int_max_str_digits : nat := 4300.

(** [int(s)] for a string: blanks around, an optional sign, decimal
    digits; anything else raises [ValueError], and so does a number with
    more digits than the limit. *)
Definition int_of_string (s : string) : result Z :=
  let text := trim_spaces (list_ascii_of_string s) in
  if (int_max_str_digits <? length (List.filter is_decimal text))%nat
  then Raise ValueError
  else
    match text with
    | "-"%char :: rest => try! n := digits_from 0 false rest in Ok (- n)
    | "+"%char :: rest => digits_from 0 false rest
    | rest => digits_from 0 false rest
    end.

(** [c.isdigit()] for a code point below 256: the decimal digits and the
    superscripts one, two and three. *)
Definition is_digit (c : ascii) : bool :=
  is_decimal c || existsb (Ascii.eqb c) (map ascii_of_nat [178; 179; 185]%nat).

(** [arg.isdigit()] *)
Definition isdigit (arg : string) : bool :=
  match list_ascii_of_string arg with
  | [] => false
  | l => forallb is_digit l
  end.

(** [arg.split('=')[1]] for an [arg] that contains an equals sign. *)
Fixpoint until_eq (s : list ascii) : list ascii :=
  match s with
  | [] => []
  | c :: rest => if Ascii.eqb c "="%char then [] else c :: until_eq rest
  end.

Fixpoint after_eq (s : list ascii) : list ascii :=
  match s with
  | [] => []
  | c :: rest => if Ascii.eqb c "="%char then until_eq rest else after_eq rest
  end.

Definition value_of (arg : string) : string :=
  string_of_list_ascii (after_eq (list_ascii_of_string arg)).

Record settings := Settings {
  resolution : Z;
  keep_title : bool;
  do_autocrop : bool;
  margin : Z;
  scale : Z
}.

Definition defaults : settings :=
  {| resolution := 300; keep_title := false; do_autocrop := true;
     margin := 20; scale := 100 |}.

(** The loop over [sys.argv[3:]]. *)
Fixpoint parse_options (args : list string) (s : settings) : result settings :=
  match args with
  | [] => Ok s
  | arg :: rest =>
      if String.eqb arg "--keep-title" then
        parse_options rest
          {| resolution := resolution s; keep_title := true;
             do_autocrop := do_autocrop s; margin := margin s; scale := scale s |}
      else if String.eqb arg "--no-crop" then
        parse_options rest
          {| resolution := resolution s; keep_title := keep_title s;
             do_autocrop := false; margin := margin s; scale := scale s |}
      else if String.prefix "--crop-margin=" arg then
        try! n := int_of_string (value_of arg) in
        parse_options rest
          {| resolution := resolution s; keep_title := keep_title s;
             do_autocrop := do_autocrop s; margin := n; scale := scale s |}
      else if String.prefix "--scale=" arg then
        try! n := int_of_string (value_of arg) in
        parse_options rest
          {| resolution := resolution s; keep_title := keep_title s;
             do_autocrop := do_autocrop s; margin := margin s; scale := n |}
      else if isdigit arg then
        try! n := int_of_string arg in
        parse_options rest
          {| resolution := n; keep_title := keep_title s;
             do_autocrop := do_autocrop s; margin := margin s; scale := scale s |}
      else parse_options rest s
  end.

(** How the script ends. *)
Inductive ending :=
  | Returned
  | SysExit (status : Z)
  | Uncaught (e : exn).

(** The exit status the ending asks for: an uncaught exception ends the
    interpreter with status 1. *)
Definition exit_status (e : ending) : Z :=
  match e with
  | Returned => 0
  | SysExit status => status
  | Uncaught _ => 1
  end.

(** The exit status of the process: the interpreter flushes the standard
    streams when it shuts down, and a failure there makes the status
    120. *)
Definition exit_code (E : env) (e : ending) : Z :=
  match flush_std_files E with
  | Ok _ => exit_status e
  | Raise _ => 120
  end.

(** Lines 412 to 434: the usage text has 23 lines. *)
Fixpoint print_lines (E : env) (m : message) (n : nat) : action unit :=
  match n with
  | O => ret tt
  | S n => do! _p := print E m in print_lines E m n
  end.

Section Main.

Variable resample : image -> Z -> Z -> list (list pixel).

(** The script from its first line: the imports, then the main block;
    [argv] is [sys.argv], the script name first. *)
Definition main (E : env) (argv : list string) : written * (list message * ending) :=
  match import_libraries E with
  | Raise e => ([], ([], Uncaught e))
  | Ok _ =>
      match argv with
      | [] | [_] =>
          let '(out, (msgs, r)) := print_lines E MsgUsage 23 [] in
          match r with
          | Ok _ => (out, (msgs, SysExit 1))
          | Raise e => (out, (msgs, Uncaught e))
          end
      | _ :: pptx_file :: rest =>
          let output_folder := match rest with o :: _ => o | [] => "images"%string end in
          match parse_options (skipn 1 rest) defaults with
          | Raise e => ([], ([], Uncaught e))
          | Ok s =>
              let '(out, (msgs, r)) :=
                pptx_to_png_transparent resample E pptx_file output_folder
                  {| remove_title := negb (keep_title s); autocrop := do_autocrop s;
                     crop_margin := margin s; scale_percent := scale s |} [] in
              match r with
              | Ok _ => (out, (msgs, Returned))
              | Raise e => (out, (msgs, Uncaught e))
              end
          end
      end
  end.

End Main.

End Cli.

(** * Specification vocabulary *)

Module SanitizerSpec.

Import Sanitizer.

(** A word: a non-empty run without whitespace. *)
Definition is_word (w : list ascii) : Prop :=
  w <> [] /\ Forall (fun c => is_space c = false) w.

(** The shape [join] produces from words. *)
Definition normal (s : list ascii) : Prop :=
  exists ws, Forall is_word ws /\ s = join ws.

(** Text that neither starts nor ends with whitespace. *)
Definition starts_ok (s : list ascii) : Prop :=
  match s with [] => True | c :: _ => is_space c = false end.

Fixpoint ends_ok (s : list ascii) : Prop :=
  match s with
  | [] => True
  | [c] => is_space c = false
  | _ :: rest => ends_ok rest
  end.

Definition valid (s : list ascii) : Prop := forall c, In c s -> ~ In c invalid_chars.

(** An already sanitized name, in the words of the specification: no
    invalid characters, single internal spaces, trimmed, at most 100
    characters. *)
Definition already_sanitized (s : list ascii) : Prop :=
  (forall c, In c s -> ~ In c invalid_chars) /\
  (forall c, In c s -> is_space c = true -> c = space) /\
  (forall a b, s <> a ++ space :: space :: b) /\
  starts_ok s /\ ends_ok s /\
  (length s <= 100)%nat.

End SanitizerSpec.

Module RasterSpec.

Import Raster.

(** A non-zero value of a band at column [x] of row [y]. *)
Definition nonzero (band : list (list Z)) (x y : Z) : Prop :=
  0 <= x /\ 0 <= y /\
  exists row v, band !! Z.to_nat y = Some row /\ row !! Z.to_nat x = Some v /\ v <> 0.

(** What the scan knows after the rows in [band]. *)
Definition box_inv (xsize : Z) (band : list (list Z)) (bb : box) : Prop :=
  let '(b0, b1, b2, b3) := bb in
  (forall x y, nonzero band x y -> 0 <= b1 /\ b0 <= x < b2 /\ b1 <= y < b3) /\
  (b1 < 0 -> b0 = xsize /\ b2 = 0) /\
  (0 <= b1 ->
     (exists y, nonzero band b0 y) /\ (exists y, nonzero band (b2 - 1) y) /\
     (exists x, nonzero band x b1) /\ (exists x, nonzero band x (b3 - 1))).

End RasterSpec.

Module ExtractorSpec.

Import Raster Extractor.

(** The pixel at column [x] of row [y], when there is one. *)
Definition pixel_at (img : image) (x y : nat) : option pixel :=
  match rows img !! y with
  | Some row => row !! x
  | None => None
  end.

Definition near_white (p : pixel) : Prop :=
  250 < red p /\ 250 < green p /\ 250 < blue p.

(** A pixel that is inside the image and not fully transparent. *)
Definition opaque_at (img : image) (x y : Z) : Prop :=
  in_bounds img x y /\ alpha (getpixel img x y) <> 0.

(** The box, right and lower sides excluded, holds every such pixel. *)
Definition encloses (img : image) (b : box) : Prop :=
  let '(l, t, r, d) := b in
  forall x y, opaque_at img x y -> l <= x < r /\ t <= y < d.

Definition box_within (b b' : box) : Prop :=
  let '(l, t, r, d) := b in
  let '(l', t', r', d') := b' in
  l' <= l /\ t' <= t /\ r <= r' /\ d <= d'.

(** The minimal rectangle containing all non-zero-alpha pixels. *)
Definition minimal_box (img : image) (b : box) : Prop :=
  encloses img b /\ forall b', encloses img b' -> box_within b b'.

Definition clamp (lo hi v : Z) : Z := Z.max lo (Z.min hi v).

(** A box expanded by the margin on all sides and clamped to the image
    bounds, in the words of the specification. *)
Definition expand_clamp (img : image) (b : box) (margin : Z) : box :=
  let '(l, t, r, d) := b in
  (clamp 0 (width img) (l - margin), clamp 0 (height img) (t - margin),
   clamp 0 (width img) (r + margin), clamp 0 (height img) (d + margin)).

(** [out] is the crop of [img] to the box: its size is the size of the
    box and its pixels are those of [img], zero outside [img]. *)
Definition is_crop (img : image) (b : box) (out : image) : Prop :=
  let '(l, t, r, d) := b in
  mode_of out = mode_of img /\ well_formed out /\
  width out = r - l /\ height out = d - t /\
  forall i j, 0 <= i < r - l -> 0 <= j < d - t ->
    getpixel out i j =
      if in_boundsb img (l + i) (t + j) then getpixel img (l + i) (t + j)
      else zero_pixel.

(** The pixel lies in the box handed to the fill, both ends included. *)
Definition in_fill (b : box) (i j : nat) : bool :=
  let '(x0, y0, x1, y1) := b in
  (x0 <=? Z.of_nat i) && (Z.of_nat i <=? x1)
  && (y0 <=? Z.of_nat j) && (Z.of_nat j <=? y1).

(** The title box in pixels before margin and clamping:
    [(int(x_rel * w), int(y_rel * h), int(width_rel * w), int(height_rel * h))]. *)
Definition pixel_box (img_width img_height : Z) (bbox : Locator.bbox)
  : Z * Z * Z * Z :=
  let '(x_rel, y_rel, width_rel, height_rel) := bbox in
  (int_of (x_rel * inject_Z img_width), int_of (y_rel * inject_Z img_height),
   int_of (width_rel * inject_Z img_width), int_of (height_rel * inject_Z img_height)).

End ExtractorSpec.

Module LocatorSpec.

Import Locator.

(** A shape the fallback loop passes over: it has no [text] attribute,
    or its text is blank. *)
Definition no_text (sh : shape) : Prop :=
  match text sh with
  | None => True
  | Some t => strip_text t = EmptyString
  end.

End LocatorSpec.

Module DriverSpec.

Import Raster Driver.

(** How many of the titles are used for naming and sanitize to [name]. *)
Fixpoint occurrences (name : string) (titles : list (option string)) : Z :=
  match titles with
  | [] => 0
  | title :: rest =>
      (if truthy title
          && String.eqb (Sanitizer.sanitize_filename (default EmptyString title)) name
       then 1 else 0) + occurrences name rest
  end.

(** The name of a slide whose sanitized title is [name] and that comes
    after [earlier] slides with the same sanitized title. *)
Definition numbered (name : string) (earlier : Z) : string :=
  if earlier =? 0 then name +:+ ".png"
  else name +:+ "_" +:+ pretty (earlier + 1) +:+ ".png".

(** The name of a slide without a usable title at 1-based position
    [position]. *)
Definition positional (position : Z) : string :=
  "Slide_" +:+ pretty position +:+ ".png".

(** The registry holds, for every name, the number of slides named from
    it so far; a name not yet used is absent. *)
Definition counts_from (name_counts : gmap string Z) (name : string) : Z :=
  default 0 (name_counts !! name).

Definition registry_ok (name_counts : gmap string Z) : Prop :=
  forall name n, name_counts !! name = Some n -> 1 <= n.

(** A shape without text: no [text] attribute, or the empty string. *)
Definition textless (sh : Locator.shape) : Prop :=
  Locator.text sh = None \/ Locator.text sh = Some EmptyString.

Definition is_RGBA (file : string * image) : Prop := mode_of (snd file) = RGBA.

Definition titles_of (pages : list (string * slide_info)) : list (option string) :=
  map (fun page => fst (snd page)) pages.

(** The stages that follow the title eraser. *)
Definition crop_and_resize (resample : image -> Z -> Z -> list (list pixel))
    (o : options) (img : image) : result image :=
  try! img := (if autocrop o
               then Extractor.autocrop_image img (crop_margin o)
               else Ok img) in
  try! img := (if scale_percent o <? 100
               then Extractor.resize_image resample img (scale_percent o)
               else Ok img) in
  Ok img.

(** The titles of the deck as the locator reports them, in slide
    order. *)
Definition deck_titles (prs : Locator.presentation) : list (option string) :=
  map (fun s => fst (Locator.extract_slide_title_and_bbox prs s)) (Locator.slides prs).

(** The run went through all its pages: it printed the header of its
    statistics, which follows the loop over the pages. *)
Definition completed (msgs : list message) : Prop := In MsgStatistics msgs.

(** The image is what the pipeline makes, with the box [bbox], of the
    rasterized page at position [i] (from 0) in sorted order. *)
Definition from_page (resample : image -> Z -> Z -> list (list pixel))
    (E : env) (o : options) (bbox : option Locator.bbox) (i : nat) (img : image)
  : Prop :=
  exists png_file img0,
    png_files E !! i = Some png_file /\
    open_image E png_file = Ok img0 /\
    process_image resample o bbox img0 = Ok img.


(** [Q] holds of what the action does after the lines [printed]: of the
    files it saves, the lines it prints, and its value or exception. *)
Definition outcome {A : Type} (m : action A) (printed : list message)
    (Q : written -> list message -> result A -> Prop) : Prop :=
  Q (fst (m printed)) (fst (snd (m printed))) (snd (snd (m printed))).

(** What the loop over [pages], which names its files [names], has done
    when it ends: it has printed one line for each of the first [k]
    pages and saved the files of the first [n] pages under their names,
    each file the processed image of its page.  Without an exception all
    pages are done.  An exception comes from page [k]: either before its
    file is saved, from opening, processing or saving it, or with the
    file saved, from reading its size or printing its line. *)
Definition loop_outcome (resample : image -> Z -> Z -> list (list pixel))
    (E : env) (o : options) (pages : list (string * slide_info))
    (names : list string)
    (out : written) (msgs : list message) (r : result (Z * Z)) : Prop :=
  exists k n : nat,
    msgs = map MsgWritten (take k names) /\ (k <= length pages)%nat /\
    map fst out = take n names /\ (n <= length pages)%nat /\
    length out = n /\
    (forall i name img, out !! i = Some (name, img) ->
       exists png_file title bbox img0,
         pages !! i = Some (png_file, (title, bbox)) /\
         open_image E png_file = Ok img0 /\
         process_image resample o bbox img0 = Ok img) /\
    match r with
    | Ok _ => k = length pages /\ n = length pages
    | Raise e =>
        exists png_file title bbox name,
          pages !! k = Some (png_file, (title, bbox)) /\
          names !! k = Some name /\
          ((n = k /\
            (open_image E png_file = Raise e \/
             exists img0, open_image E png_file = Ok img0 /\
               (process_image resample o bbox img0 = Raise e \/
                exists img printed,
                  process_image resample o bbox img0 = Ok img /\
                  save_image E printed name img = Raise e))) \/
           (n = S k /\
            exists printed,
              getsize E printed name = Raise e \/
              stdout E printed (MsgWritten name) = Raise e))
    end.

(** The conversion to rasterized pages went through: [soffice], or
    [libreoffice] when that binary is missing, produced the PDF, and
    [pdftoppm] left at least one page. *)
Definition conversion_ok (E : env) : Prop :=
  (run_soffice E = Ok tt \/
   (run_soffice E = Raise FileNotFoundError /\ run_libreoffice E = Ok tt)) /\
  pdf_exists E = true /\ run_pdftoppm E = Ok tt /\ png_files E <> [].

End DriverSpec.

Module CliSpec.

Import Driver.

(** The lines that report a failure. *)
Definition is_diagnostic (m : message) : bool :=
  match m with
  | MsgNotFound _ | MsgLibreOfficeMissing | MsgPdfError | MsgPdfNotCreated
  | MsgPdftoppmMissing | MsgNoPng | MsgError _ => true
  | MsgUsage | MsgInfo | MsgWritten _ | MsgStatistics | MsgDone => false
  end.

Definition reports_failure (msgs : list message) : Prop :=
  existsb is_diagnostic msgs = true.

(** [sys.argv[2] if len(sys.argv) > 2 else 'images'], with [rest] the
    arguments after the source path. *)
Definition output_folder (rest : list string) : string :=
  match rest with o :: _ => o | [] => "images"%string end.

(** Standard output takes every line, whatever has been printed
    before. *)
Definition stdout_works (E : env) : Prop :=
  forall printed m, stdout E printed m = Ok tt.

(** The standard streams take everything written to them: the lines
    printed, the traceback, and the flush when the interpreter ends. *)
Definition streams_work (E : env) : Prop :=
  stdout_works E /\ print_exc E = Ok tt /\ flush_std_files E = Ok tt.

End CliSpec.

Module RunSpec.

Import Raster Driver DriverSpec CliSpec.

(** What [use_libreoffice_method] has done when it ends.  Either it
    saved no file and did not reach its statistics, and if it returned it
    printed a diagnostic; or the conversion went through and the files
    are those of the loop over the pages, which ended without an
    exception if the statistics were reached, as they were if the method
    returned. *)
Definition method_outcome (resample : image -> Z -> Z -> list (list pixel))
    (E : env) (slides_info : list slide_info) (o : options)
    (out : written) (msgs : list message) (r : result unit) : Prop :=
  (out = [] /\ ~ completed msgs /\ (forall u, r = Ok u -> reports_failure msgs)) \/
  (conversion_ok E /\
   exists loop_msgs loop_r,
     loop_outcome resample E o (zip (png_files E) slides_info)
       (output_names (titles_of (zip (png_files E) slides_info)) 1 ∅)
       out loop_msgs loop_r /\
     (completed msgs -> exists counts, loop_r = Ok counts) /\
     (forall u, r = Ok u -> completed msgs)).

(** What [pptx_to_png_transparent] has done when it ends: without the
    presentation and LibreOffice no file is saved and no statistics are
    reached; with them the files are those of
    [use_libreoffice_method]. *)
Definition run_outcome (resample : image -> Z -> Z -> list (list pixel))
    (E : env) (pptx_path : string) (o : options)
    (out : written) (msgs : list message) (r : result unit) : Prop :=
  (out = [] /\ ~ completed msgs) \/
  (exists prs,
     load_presentation E pptx_path = Ok prs /\
     exists method_msgs method_r,
       method_outcome resample E
         (map (Locator.extract_slide_title_and_bbox prs) (Locator.slides prs)) o
         out method_msgs method_r /\
       (completed msgs -> completed method_msgs)).

(** What a part of the run that only prints progress lines has done:
    nothing is saved and only such lines are printed; it ends without an
    exception when standard output works, and an exception it raises is
    one of standard output. *)
Definition only_prints {A : Type} (E : env)
    (out : written) (msgs : list message) (r : result A) : Prop :=
  out = [] /\ Forall (eq MsgInfo) msgs /\
  (stdout_works E -> exists a, r = Ok a) /\
  (forall e, r = Raise e -> exists printed m, stdout E printed m = Raise e).

(** The run returned, and it either printed a diagnostic or reached its
    statistics and its closing line. *)
Definition returned_normally (out : written) (msgs : list message) (r : result unit)
  : Prop :=
  r = Ok tt /\
  (reports_failure msgs \/ (completed msgs /\ In MsgDone msgs)).

(** Where an exception that leaves [pptx_to_png_transparent] comes
    from: from creating or listing the output directory, before
    anything is printed or saved, or from standard output or the printing
    of the traceback. *)
Definition escape_cause (E : env) (output_dir : string)
    (out : written) (msgs : list message) (e : exn) : Prop :=
  (out = [] /\ msgs = [] /\
   (makedirs E output_dir = Raise e \/ listdir E output_dir = Raise e)) \/
  (exists printed m, stdout E printed m = Raise e) \/
  print_exc E = Raise e.

End RunSpec.

(** * Sample data *)

Module Fixtures.

Import Raster.

Definition black : pixel := (0, 0, 0, 255).
Definition white : pixel := (255, 255, 255, 255).
Definition clear : pixel := (255, 255, 255, 0).

(** Two by two: black and white above, a faint near-white and a clear
    pixel below. *)
Definition img2 : image :=
  Image RGBA 2 2 [[black; white]; [(252, 253, 254, 7); (10, 20, 30, 0)]].

(** One opaque pixel. *)
Definition dot : image := Image RGBA 1 1 [[black]].

(** Three by three, opaque only in the middle. *)
Definition ring : image :=
  Image RGBA 3 3 [[clear; clear; clear]; [clear; black; clear]; [clear; clear; clear]].

(** Three by two, fully transparent. *)
Definition blank : image :=
  Image RGBA 3 2 [[clear; clear; clear]; [clear; clear; clear]].

(** A title box of zero width along the left side, half the height. *)
Definition sliver : Locator.bbox := (0, 0, 0, 1 # 2)%Q.

(** A title box with its corner on the lower right corner of the page. *)
Definition corner : Locator.bbox := (1, 1, 1 # 4, 1 # 4)%Q.

Definition page : Locator.geometry := Locator.Geometry 0 0 9144000 6858000.

Definition title_box : Locator.geometry := Locator.Geometry 457200 274638 8229600 1143000.

Definition titled (t : string) : Locator.slide :=
  Locator.Slide (Some (Locator.TitleShape t title_box)) [Locator.Shape (Some t) title_box].

(** A slide that holds a picture only. *)
Definition untitled : Locator.slide :=
  Locator.Slide None [Locator.Shape None page].

(** Three slides: two titled A and one whose title placeholder is empty. *)
Definition deck : Locator.presentation :=
  Locator.Presentation 9144000 6858000 [titled "A"; titled "A"; titled EmptyString].

Definition default_options : Driver.options :=
  Driver.Options true true 20 100.

(** A stand-in for the resampling filter: nearest neighbour. *)
Definition nearest (img : image) (w h : Z) : list (list pixel) :=
  map (fun j => map (fun i =>
         getpixel img (i * width img / w) (j * height img / h)) (range w))
      (range h).

(** Two slides titled Intro. *)
Definition intro_deck : Locator.presentation :=
  Locator.Presentation 9144000 6858000 [titled "Intro"; titled "Intro"].

(** A slide with a picture only between two titled ones. *)
Definition mixed_deck : Locator.presentation :=
  Locator.Presentation 9144000 6858000 [titled "A"; untitled; titled "B"].




(** Surroundings of a run: the presentation behind every path, the
    answers of creating the output directory and of [pdftoppm], the
    content of the temporary directory, the image behind every page, the
    answer of [os.path.getsize], and standard output.  Everything else
    succeeds. *)
Definition surroundings (prs : Locator.presentation) (directory rasterizer : result unit)
    (pages : list string) (page_image : image) (size : result unit)
    (console : list Driver.message -> Driver.message -> result unit) : Driver.env :=
  {| Driver.import_libraries := Ok tt;
     Driver.path_exists := fun _ => true;
     Driver.makedirs := fun _ => directory;
     Driver.listdir := fun _ => Ok [];
     Driver.load_presentation := fun _ => Ok prs;
     Driver.which := fun _ => true;
     Driver.make_tmpdir := Ok tt;
     Driver.run_soffice := Ok tt;
     Driver.run_libreoffice := Ok tt;
     Driver.pdf_exists := true;
     Driver.run_pdftoppm := rasterizer;
     Driver.listdir_tmpdir := Ok pages;
     Driver.output_exists := fun _ _ => false;
     Driver.open_image := fun _ => Ok page_image;
     Driver.save_image := fun _ _ _ => Ok tt;
     Driver.getsize := fun _ _ => size;
     Driver.cleanup_tmpdir := Ok tt;
     Driver.stdout := console;
     Driver.print_exc := Ok tt;
     Driver.flush_std_files := Ok tt |}.

(** Two rasterized pages with what is known of their slides. *)
Definition two_pages : list (string * Driver.slide_info) :=
  [("slide-1.png", (Some "A", None)); ("slide-2.png", (None, None))]%string.

Definition three_pages : list string :=
  ["slide-3.png"; "deck.pdf"; "slide-1.png"; "slide-2.png"]%string.

(** Surroundings in which every step succeeds: the deck above, three
    rasterized pages, the image [ring] on each of them. *)
Definition fair_weather : Driver.env :=
  surroundings deck (Ok tt) (Ok tt) three_pages ring (Ok tt) (fun _ _ => Ok tt).

(** The same, on a file system that refuses to create the output
    directory. *)
Definition read_only : Driver.env :=
  surroundings deck (Raise OSError) (Ok tt) three_pages ring (Ok tt) (fun _ _ => Ok tt).

(** The same as [fair_weather], without the rasterizer [pdftoppm]. *)
Definition no_poppler : Driver.env :=
  surroundings deck (Ok tt) (Raise FileNotFoundError) ["deck.pdf"]%string ring (Ok tt)
    (fun _ _ => Ok tt).

(** The same as [fair_weather], with a standard output that cannot
    encode the signs the program prints. *)
Definition plain_console : Driver.env :=
  surroundings deck (Ok tt) (Ok tt) three_pages ring (Ok tt)
    (fun _ _ => Raise UnicodeEncodeError).

(** The same as [fair_weather], with output files that vanish before
    their size is read. *)
Definition vanishing_files : Driver.env :=
  surroundings deck (Ok tt) (Ok tt) three_pages ring (Raise FileNotFoundError)
    (fun _ _ => Ok tt).

(** Fair weather for the other decks. *)
Definition intro_run : Driver.env :=
  surroundings intro_deck (Ok tt) (Ok tt) three_pages ring (Ok tt) (fun _ _ => Ok tt).

Definition mixed_run : Driver.env :=
  surroundings mixed_deck (Ok tt) (Ok tt) three_pages ring (Ok tt) (fun _ _ => Ok tt).


End Fixtures.

(** * Properties *)

(** ** The filename sanitizer *)

Module SanitizerFacts.

Import Sanitizer SanitizerSpec.

Lemma space_is_space : is_space space = true.
Proof. reflexivity. Qed.

Lemma space_valid : ~ In space invalid_chars.
Proof. cbv. intros H. repeat destruct H as [H | H]; try discriminate H; exact H. Qed.

Lemma in_replace_char c d text :
  In c (replace_char d text) <-> In c text /\ c <> d.
Proof.
  unfold replace_char. rewrite filter_In. split; intros [H1 H2]; split; auto.
  - intros ->. rewrite Ascii.eqb_refl in H2. discriminate.
  - destruct (Ascii.eqb_spec c d); [contradiction | reflexivity].
Qed.

Lemma in_remove_all cs : forall text c,
  In c (fold_left (fun t char => replace_char char t) cs text)
  <-> In c text /\ ~ In c cs.
Proof.
  induction cs as [|d cs IH]; intros text c; simpl.
  - tauto.
  - rewrite IH, in_replace_char. intuition congruence.
Qed.

Lemma replace_char_id d text : ~ In d text -> replace_char d text = text.
Proof.
  unfold replace_char. induction text as [|c text IH]; simpl; intros H; [reflexivity|].
  destruct (Ascii.eqb_spec c d) as [->|Hne]; simpl.
  - exfalso. apply H. now left.
  - f_equal. apply IH. intros Hin. apply H. now right.
Qed.

Lemma remove_all_id cs : forall text,
  (forall c, In c text -> ~ In c cs) ->
  fold_left (fun t char => replace_char char t) cs text = text.
Proof.
  induction cs as [|d cs IH]; intros text H; simpl; [reflexivity|].
  rewrite replace_char_id.
  - apply IH. intros c Hc Hin. apply (H c Hc). now right.
  - intros Hin. apply (H d Hin). now left.
Qed.

Lemma split_from_nonspace w : forall cur rest,
  Forall (fun c => is_space c = false) w ->
  split_from cur (w ++ rest) = split_from (cur ++ w) rest.
Proof.
  induction w as [|c w IH]; intros cur rest Hw; simpl.
  - now rewrite app_nil_r.
  - inversion Hw as [|? ? Hc Hw']; subst. rewrite Hc.
    rewrite IH by assumption. now rewrite <- app_assoc.
Qed.

Lemma split_join ws : Forall is_word ws -> split (join ws) = ws.
Proof.
  unfold split. induction ws as [|w ws IH]; intros H; [reflexivity|].
  inversion H as [|? ? [Hne Hw] Hws]; subst.
  destruct ws as [|w' ws].
  - simpl. rewrite <- (app_nil_r w) at 1. rewrite split_from_nonspace by assumption.
    simpl. destruct w; [contradiction | reflexivity].
  - change (join (w :: w' :: ws)) with (w ++ space :: join (w' :: ws)).
    rewrite split_from_nonspace by assumption. simpl app.
    cbn [split_from]. rewrite space_is_space.
    rewrite (IH Hws). destruct w; [contradiction | reflexivity].
Qed.

Lemma split_from_words text : forall cur,
  Forall (fun c => is_space c = false) cur ->
  Forall is_word (split_from cur text).
Proof.
  induction text as [|c text IH]; intros cur Hcur; simpl.
  - destruct cur; constructor; [|constructor]. split; [discriminate | assumption].
  - destruct (is_space c) eqn:Hc.
    + destruct cur.
      * apply IH. constructor.
      * constructor; [split; [discriminate | assumption]|]. apply IH. constructor.
    + apply IH. apply Forall_app. split; [assumption|]. constructor; [assumption | constructor].
Qed.

Lemma split_words text : Forall is_word (split text).
Proof. apply split_from_words. constructor. Qed.

Lemma normal_join_split text : normal (join (split text)).
Proof. exists (split text). split; [apply split_words | reflexivity]. Qed.


Lemma lstrip_id s : starts_ok s -> lstrip s = s.
Proof. destruct s as [|c s]; simpl; [reflexivity | intros ->; reflexivity]. Qed.

Lemma rstrip_id s : ends_ok s -> rstrip s = s.
Proof.
  induction s as [|c s IH]; [reflexivity|].
  destruct s as [|d s].
  - simpl. intros ->. reflexivity.
  - intros H. change (ends_ok (d :: s)) in H. specialize (IH H).
    change (rstrip (c :: d :: s)) with
      (match rstrip (d :: s) with
       | [] => if is_space c then [] else [c]
       | r => c :: r
       end).
    rewrite IH. reflexivity.
Qed.

Lemma rstrip_app a b :
  rstrip (a ++ b) = match rstrip b with [] => rstrip a | r => a ++ r end.
Proof.
  induction a as [|c a IH]; simpl.
  - destruct (rstrip b); reflexivity.
  - rewrite IH. destruct (rstrip b) as [|d r]; [reflexivity|].
    destruct a; reflexivity.
Qed.

Lemma rstrip_ends_ok s : ends_ok (rstrip s).
Proof.
  induction s as [|c s IH]; simpl; [exact I|].
  destruct (rstrip s) as [|d r] eqn:E.
  - destruct (is_space c) eqn:Hc; simpl; auto.
  - exact IH.
Qed.

Lemma word_starts_ok w rest : is_word w -> starts_ok (w ++ rest).
Proof.
  intros [Hne Hw]. destruct w as [|c w]; [contradiction|].
  simpl. now inversion Hw.
Qed.

Lemma nonspace_ends_ok w : Forall (fun c => is_space c = false) w -> ends_ok w.
Proof.
  induction w as [|c w IH]; intros H; [exact I|].
  inversion H; subst. destruct w; [assumption | now apply IH].
Qed.

Lemma ends_ok_app a b : b <> [] -> ends_ok b -> ends_ok (a ++ b).
Proof.
  intros Hne Hb. induction a as [|c a IH]; [assumption|].
  simpl. destruct (a ++ b) eqn:E; [|assumption].
  apply app_eq_nil in E. now destruct E.
Qed.

Lemma join_nonnil w ws : is_word w -> join (w :: ws) <> [].
Proof.
  intros [Hne _]. destruct ws; simpl; [assumption|].
  destruct w; [contradiction | discriminate].
Qed.

Lemma normal_starts_ok s : normal s -> starts_ok s.
Proof.
  intros (ws & Hws & ->). destruct ws as [|w ws]; [exact I|].
  inversion Hws; subst. destruct ws.
  - rewrite <- (app_nil_r (join [w])). now apply word_starts_ok.
  - now apply word_starts_ok.
Qed.

Lemma normal_ends_ok s : normal s -> ends_ok s.
Proof.
  intros (ws & Hws & ->). induction ws as [|w ws IH]; [exact I|].
  inversion Hws as [|? ? Hw Hws']; subst. destruct ws as [|w' ws].
  - apply nonspace_ends_ok, Hw.
  - change (join (w :: w' :: ws)) with (w ++ space :: join (w' :: ws)).
    apply ends_ok_app; [discriminate|].
    inversion Hws'; subst.
    assert (Hn : join (w' :: ws) <> []) by now apply join_nonnil.
    specialize (IH Hws').
    destruct (join (w' :: ws)) as [|c r]; [contradiction | exact IH].
Qed.

Lemma strip_normal s : normal s -> strip s = s.
Proof.
  intros H. unfold strip. rewrite lstrip_id by now apply normal_starts_ok.
  apply rstrip_id. now apply normal_ends_ok.
Qed.

Lemma join_split_normal s : normal s -> join (split s) = s.
Proof. intros (ws & Hws & ->). now rewrite split_join. Qed.

Lemma prefix_word n w : is_word w -> firstn n w = [] \/ is_word (firstn n w).
Proof.
  intros [Hne Hw]. destruct (firstn n w) eqn:E; [now left|right].
  split; [discriminate|]. rewrite <- E. clear E.
  rewrite List.Forall_forall in *. intros c Hc. apply Hw.
  rewrite <- (firstn_skipn n w). apply in_or_app. now left.
Qed.

(** Cutting a normal text and stripping the cut gives a normal text. *)
Lemma normal_strip_firstn ws : forall n,
  Forall is_word ws -> normal (strip (firstn n (join ws))).
Proof.
  induction ws as [|w ws IH]; intros n Hws.
  - simpl. rewrite firstn_nil. exists []. split; [constructor | reflexivity].
  - inversion Hws as [|? ? Hw Hws']; subst.
    assert (Hone : forall k, normal (strip (firstn k w))).
    { intros k. destruct (prefix_word k w Hw) as [-> | Hk].
      - exists []. split; [constructor | reflexivity].
      - rewrite strip_normal; exists [firstn k w]; split;
          try reflexivity; constructor; auto. }
    destruct ws as [|w' ws]; [apply Hone|].
    change (join (w :: w' :: ws)) with (w ++ space :: join (w' :: ws)).
    rewrite firstn_app.
    destruct (Nat.le_gt_cases n (length w)) as [Hle | Hgt].
    + replace (n - length w)%nat with 0%nat by lia.
      simpl firstn at 2. rewrite app_nil_r. apply Hone.
    + rewrite firstn_all2 by lia.
      destruct (n - length w)%nat as [|k] eqn:Ek; [lia|].
      cbn [firstn]. unfold strip.
      rewrite lstrip_id by now apply word_starts_ok.
      set (X := firstn k (join (w' :: ws))).
      destruct (IH k Hws') as (ws2 & Hws2 & E2). fold X in E2.
      assert (HX : starts_ok X).
      { unfold X. pose proof (normal_starts_ok (join (w' :: ws))
          (ex_intro _ (w' :: ws) (conj Hws' eq_refl))) as Hs.
        destruct (join (w' :: ws)); destruct k; simpl; auto. }
      unfold strip in E2. rewrite lstrip_id in E2 by assumption.
      change (w ++ space :: X) with (w ++ [space] ++ X).
      rewrite app_assoc, rstrip_app, E2.
      destruct ws2 as [|w2 ws2].
      * simpl. rewrite rstrip_app. simpl.
        rewrite rstrip_id by (apply nonspace_ends_ok, Hw).
        exists [w]. split; [constructor; auto | reflexivity].
      * inversion Hws2; subst.
        pose proof (join_nonnil w2 ws2 H1) as Hn.
        destruct (join (w2 :: ws2)) as [|c r] eqn:Ej; [contradiction|].
        exists (w :: w2 :: ws2). split; [constructor; auto|].
        change (join (w :: w2 :: ws2)) with (w ++ space :: join (w2 :: ws2)).
        rewrite Ej, <- app_assoc. reflexivity.
Qed.


Lemma lstrip_length s : (length (lstrip s) <= length s)%nat.
Proof.
  induction s as [|c s IH]; simpl; [lia|]. destruct (is_space c); simpl; lia.
Qed.

Lemma rstrip_length s : (length (rstrip s) <= length s)%nat.
Proof.
  induction s as [|c s IH]; simpl; [lia|].
  destruct (rstrip s); [destruct (is_space c)|]; simpl in *; lia.
Qed.

Lemma strip_length s : (length (strip s) <= length s)%nat.
Proof.
  unfold strip. pose proof (rstrip_length (lstrip s)). pose proof (lstrip_length s). lia.
Qed.

Lemma in_lstrip c s : In c (lstrip s) -> In c s.
Proof.
  induction s as [|d s IH]; simpl; [tauto|].
  destruct (is_space d); simpl; tauto.
Qed.

Lemma in_rstrip c s : In c (rstrip s) -> In c s.
Proof.
  induction s as [|d s IH]; simpl; [tauto|].
  destruct (rstrip s); [destruct (is_space d)|]; simpl in *; tauto.
Qed.

Lemma in_strip c s : In c (strip s) -> In c s.
Proof. unfold strip. intros H. now apply in_lstrip, in_rstrip. Qed.

Lemma in_firstn c n (s : list ascii) : In c (firstn n s) -> In c s.
Proof.
  intros H. rewrite <- (firstn_skipn n s). apply in_or_app. now left.
Qed.

Lemma in_join c ws : In c (join ws) -> c = space \/ exists w, In w ws /\ In c w.
Proof.
  induction ws as [|w ws IH]; [intros []|].
  destruct ws as [|w' ws].
  - simpl. intros H. right. exists w. split; [now left | assumption].
  - change (join (w :: w' :: ws)) with (w ++ space :: join (w' :: ws)).
    intros H. apply in_app_or in H. destruct H as [H | [H | H]].
    + right. exists w. split; [now left | assumption].
    + now left.
    + destruct (IH H) as [-> | (v & Hv & Hc)]; [now left|].
      right. exists v. split; [now right | assumption].
Qed.

Lemma in_split_from c w text : forall cur,
  In w (split_from cur text) -> In c w -> In c cur \/ In c text.
Proof.
  induction text as [|d text IH]; intros cur Hw Hc; simpl in Hw.
  - destruct cur; [destruct Hw|]. destruct Hw as [<- | []]. now left.
  - destruct (is_space d).
    + destruct cur as [|a cur].
      * destruct (IH _ Hw Hc) as [[] | H]. right. now right.
      * destruct Hw as [<- | Hw]; [now left|].
        destruct (IH _ Hw Hc) as [[] | H]. right. now right.
    + destruct (IH _ Hw Hc) as [H | H].
      * apply in_app_or in H. destruct H as [H | [<- | []]]; [now left|].
        right. now left.
      * right. now right.
Qed.

Lemma in_join_split c text : In c (join (split text)) -> c = space \/ In c text.
Proof.
  intros H. apply in_join in H. destruct H as [-> | (w & Hw & Hc)]; [now left|].
  destruct (in_split_from c w text [] Hw Hc) as [[] | H]. now right.
Qed.

Lemma sanitize_chars_normal t : normal (sanitize_chars t).
Proof.
  unfold sanitize_chars.
  set (x := fold_left _ invalid_chars t).
  destruct (100 <? Z.of_nat (length (join (split x)))).
  - apply normal_strip_firstn, split_words.
  - rewrite strip_normal; apply normal_join_split.
Qed.

Lemma sanitize_chars_length t : (length (sanitize_chars t) <= 100)%nat.
Proof.
  unfold sanitize_chars.
  set (x := join (split _)).
  destruct (Z.ltb_spec 100 (Z.of_nat (length x))) as [H | H].
  - pose proof (strip_length (firstn 100 x)) as Hs.
    pose proof (firstn_le_length 100 x). lia.
  - pose proof (strip_length x). lia.
Qed.

Lemma sanitize_chars_valid t : valid (sanitize_chars t).
Proof.
  unfold sanitize_chars. intros c Hc.
  set (x := fold_left _ invalid_chars t) in *.
  assert (H : In c (join (split x))).
  { destruct (100 <? Z.of_nat (length (join (split x)))).
    - now apply in_strip, in_firstn in Hc.
    - now apply in_strip in Hc. }
  apply in_join_split in H. destruct H as [-> | H]; [apply space_valid|].
  unfold x in H. apply in_remove_all in H. exact (proj2 H).
Qed.

(** A normal, valid text of at most 100 characters is a fixed point. *)
Lemma sanitize_chars_fixed s :
  normal s -> valid s -> (length s <= 100)%nat -> sanitize_chars s = s.
Proof.
  intros Hn Hv Hl. unfold sanitize_chars.
  rewrite remove_all_id by exact Hv.
  rewrite join_split_normal by assumption.
  destruct (Z.ltb_spec 100 (Z.of_nat (length s))); [lia|].
  now apply strip_normal.
Qed.

Lemma join_split_from s : forall cur,
  Forall (fun c => is_space c = false) cur ->
  (cur = [] -> starts_ok s) ->
  (forall c, In c s -> is_space c = true -> c = space) ->
  (forall a b, s <> a ++ space :: space :: b) ->
  ends_ok s ->
  join (split_from cur s) = cur ++ s.
Proof.
  induction s as [|c r IH]; intros cur Hcur Hstart Hsp Hadj Hend.
  - simpl. rewrite app_nil_r. now destruct cur.
  - cbn [split_from]. destruct (is_space c) eqn:Hc.
    + assert (c = space) by (apply Hsp; [now left | assumption]). subst c.
      destruct cur as [|a cur].
      { specialize (Hstart eq_refl). simpl in Hstart. congruence. }
      destruct r as [|d r'].
      { simpl in Hend. congruence. }
      assert (Hd : is_space d = false).
      { destruct (is_space d) eqn:Hd; [|reflexivity].
        assert (d = space) by (apply Hsp; [right; now left | assumption]). subst d.
        exfalso. apply (Hadj [] r'). reflexivity. }
      assert (E : join (split_from [] (d :: r')) = [] ++ d :: r').
      { apply IH.
        - constructor.
        - intros _. exact Hd.
        - intros e He. apply Hsp. now right.
        - intros x y E. apply (Hadj (space :: x) y). rewrite E. reflexivity.
        - exact Hend. }
      simpl app in E.
      destruct (split_from [] (d :: r')) as [|w ws] eqn:Es; [discriminate E|].
      change (join ((a :: cur) :: w :: ws)) with ((a :: cur) ++ space :: join (w :: ws)).
      now rewrite E.
    + rewrite IH.
      * now rewrite <- app_assoc.
      * apply Forall_app. split; [assumption|]. constructor; [assumption | constructor].
      * intros E. apply app_eq_nil in E. destruct E; discriminate.
      * intros e He. apply Hsp. now right.
      * intros x y E. apply (Hadj (c :: x) y). rewrite E. reflexivity.
      * destruct r; [exact I | exact Hend].
Qed.

Lemma already_sanitized_normal s : already_sanitized s -> normal s.
Proof.
  intros (_ & Hsp & Hadj & Hst & Hend & _).
  exists (split s). split; [apply split_words|].
  unfold split. rewrite join_split_from; auto.
Qed.


Lemma not_invalid c :
  forallb (fun d => negb (Ascii.eqb c d)) invalid_chars = true -> ~ In c invalid_chars.
Proof.
  rewrite forallb_forall. intros H Hin. specialize (H c Hin).
  rewrite Ascii.eqb_refl in H. discriminate.
Qed.

Lemma sanitize_chars_idempotent t :
  sanitize_chars (sanitize_chars t) = sanitize_chars t.
Proof.
  apply sanitize_chars_fixed.
  - apply sanitize_chars_normal.
  - apply sanitize_chars_valid.
  - apply sanitize_chars_length.
Qed.

Lemma sanitize_chars_already s : already_sanitized s -> sanitize_chars s = s.
Proof.
  intros H. apply sanitize_chars_fixed.
  - now apply already_sanitized_normal.
  - exact (proj1 H).
  - exact (proj2 (proj2 (proj2 (proj2 (proj2 H))))).
Qed.

(** C6: [sanitize_filename] is a function (so deterministic and pure) and
    it is idempotent: sanitizing a sanitized name gives it back; and a
    name that is already sanitized (no invalid characters, single
    internal spaces, trimmed, at most 100 characters) is returned
    unchanged. *)
Theorem sanitize_filename_idempotent :
  (forall t : string,
     sanitize_filename (sanitize_filename t) = sanitize_filename t) /\
  (forall t : string,
     already_sanitized (list_ascii_of_string t) -> sanitize_filename t = t).
Proof.
  split; intros t.
  - unfold sanitize_filename.
    rewrite list_ascii_of_string_of_list_ascii.
    now rewrite sanitize_chars_idempotent.
  - intros H. unfold sanitize_filename.
    rewrite sanitize_chars_already by assumption.
    apply string_of_list_ascii_of_string.
Qed.

Lemma sanitize_filename_idempotent_witness :
  already_sanitized (list_ascii_of_string "Q1 plan") /\
  sanitize_filename "Q1 plan" = "Q1 plan"%string.
Proof.
  assert (H : already_sanitized (list_ascii_of_string "Q1 plan")).
  { split; [|split; [|split; [|split; [|split]]]].
    - intros c Hc Hin. simpl in Hc.
      repeat (destruct Hc as [<- | Hc];
              [match type of Hin with In ?x _ => exact (not_invalid x eq_refl Hin) end|]).
      destruct Hc.
    - intros c Hc. simpl in Hc.
      repeat (destruct Hc as [<- | Hc]; [vm_compute; congruence|]).
      destruct Hc.
    - intros a b E. simpl in E.
      do 8 (destruct a as [|? a]; simpl in E; [congruence|]).
      apply (f_equal (@length ascii)) in E. simpl in E.
      rewrite length_app in E. simpl in E. lia.
    - reflexivity.
    - reflexivity.
    - simpl. lia. }
  split; [exact H|].
  exact (proj2 sanitize_filename_idempotent "Q1 plan"%string H).
Defined.

(** *** What every sanitized name looks like *)

Lemma in_join_space c ws :
  Forall is_word ws -> In c (join ws) -> is_space c = true -> c = space.
Proof.
  intros Hws Hin Hc. apply in_join in Hin.
  destruct Hin as [-> | (w & Hw & Hcw)]; [reflexivity|].
  rewrite List.Forall_forall in Hws. destruct (Hws w Hw) as [_ Hns].
  rewrite List.Forall_forall in Hns. rewrite (Hns c Hcw) in Hc. discriminate Hc.
Qed.

Lemma join_cons_cons w w' ws :
  join (w :: w' :: ws) = w ++ space :: join (w' :: ws).
Proof. reflexivity. Qed.

Lemma word_no_space w a b : is_word w -> w <> a ++ space :: b.
Proof.
  intros [_ Hw] E. rewrite List.Forall_forall in Hw.
  assert (H : is_space space = false).
  { apply Hw. rewrite E. apply in_or_app. right. now left. }
  discriminate H.
Qed.

Lemma join_not_space_first w ws b : Forall is_word (w :: ws) -> join (w :: ws) <> space :: b.
Proof.
  intros Hws E.
  pose proof (normal_starts_ok _ (ex_intro _ (w :: ws) (conj Hws eq_refl))) as Hs.
  rewrite E in Hs. simpl in Hs. discriminate Hs.
Qed.

Lemma join_no_double_space ws : forall a b,
  Forall is_word ws -> join ws <> a ++ space :: space :: b.
Proof.
  induction ws as [|w ws IH]; intros a b Hws E.
  - destruct a; discriminate E.
  - inversion Hws as [|? ? Hw Hws']; subst. destruct ws as [|w' ws].
    + simpl in E. exact (word_no_space w a (space :: b) Hw E).
    + rewrite join_cons_cons in E.
      apply app_eq_app in E. destruct E as (l & [[E1 E2] | [E1 E2]]).
      * destruct l as [|c l]; cbn [app] in E2.
        { injection E2 as E2.
          exact (join_not_space_first w' ws b Hws' (eq_sym E2)). }
        { injection E2 as <- E2.
          exact (word_no_space w a l Hw E1). }
      * destruct l as [|c l]; cbn [app] in E2.
        { injection E2 as E2.
          exact (join_not_space_first w' ws b Hws' E2). }
        { injection E2 as <- E2. exact (IH l b Hws' E2). }
Qed.

Lemma normal_already_sanitized s :
  normal s -> valid s -> (length s <= 100)%nat -> already_sanitized s.
Proof.
  intros Hn Hv Hl. pose proof Hn as (ws & Hws & E).
  split; [exact Hv|]. split; [|split; [|split; [|split]]].
  - intros c Hc Hsp. subst s. exact (in_join_space c ws Hws Hc Hsp).
  - intros a b. subst s. now apply join_no_double_space.
  - now apply normal_starts_ok.
  - now apply normal_ends_ok.
  - exact Hl.
Qed.

(** X1: Whatever the text, the result is a sanitized name: it holds none of
    the invalid characters, its only whitespace is single plain spaces
    between words, it neither starts nor ends with whitespace, and it has
    at most 100 characters. *)
Theorem sanitize_filename_sanitized (t : string) :
  already_sanitized (list_ascii_of_string (sanitize_filename t)).
Proof.
  unfold sanitize_filename. rewrite list_ascii_of_string_of_list_ascii.
  apply normal_already_sanitized.
  - apply sanitize_chars_normal.
  - apply sanitize_chars_valid.
  - apply sanitize_chars_length.
Qed.

Lemma split_from_all_space text :
  Forall (fun c => is_space c = true) text -> split_from [] text = [].
Proof.
  induction 1 as [|c text Hc _ IH]; [reflexivity|]. simpl. now rewrite Hc.
Qed.

Lemma split_from_cur_nonnil text : forall cur, cur <> [] -> split_from cur text <> [].
Proof.
  induction text as [|c text IH]; intros cur Hcur; simpl.
  - destruct cur; [contradiction | discriminate].
  - destruct (is_space c).
    + destruct cur; [contradiction | discriminate].
    + apply IH. destruct cur; discriminate.
Qed.

Lemma split_nonnil text c :
  In c text -> is_space c = false -> split text <> [].
Proof.
  unfold split. induction text as [|d text IH]; intros Hin Hc; [destruct Hin|].
  simpl. destruct (is_space d) eqn:Hd.
  - destruct Hin as [-> | Hin]; [congruence|]. now apply IH.
  - now apply split_from_cur_nonnil.
Qed.

Lemma rstrip_nonnil c s : is_space c = false -> rstrip (c :: s) <> [].
Proof.
  intros Hc. simpl. destruct (rstrip s); [rewrite Hc|]; discriminate.
Qed.

(** X2: The result is empty exactly when the text consists of whitespace and
    invalid characters only. *)
Theorem sanitize_filename_empty_iff (t : string) :
  sanitize_filename t = EmptyString <->
  (forall c, In c (list_ascii_of_string t) -> is_space c = true \/ In c invalid_chars).
Proof.
  unfold sanitize_filename.
  set (text := list_ascii_of_string t).
  assert (Hempty : string_of_list_ascii (sanitize_chars text) = EmptyString
                   <-> sanitize_chars text = []).
  { split; [|now intros ->]. destruct (sanitize_chars text); [reflexivity | discriminate]. }
  rewrite Hempty. unfold sanitize_chars.
  set (x := fold_left _ invalid_chars text). split.
  - intros E c Hc.
    destruct (is_space c) eqn:Hsp; [now left | right].
    destruct (in_dec ascii_dec c invalid_chars) as [Hin | Hnin]; [assumption | exfalso].
    assert (Hx : In c x) by (apply in_remove_all; auto).
    pose proof (split_nonnil x c Hx Hsp) as Hne.
    pose proof (split_words x) as Hws.
    destruct (split x) as [|w ws]; [contradiction|].
    pose proof (normal_starts_ok _ (ex_intro _ (w :: ws) (conj Hws eq_refl))) as Hs.
    pose proof (join_nonnil w ws (Forall_inv Hws)) as Hj.
    destruct (join (w :: ws)) as [|c0 r]; [contradiction|]. simpl in Hs.
    assert (Hstrip : forall l, strip (c0 :: l) <> []).
    { intros l. unfold strip. simpl. rewrite Hs. now apply rstrip_nonnil. }
    destruct (100 <? Z.of_nat (length (c0 :: r))); [|exact (Hstrip _ E)].
    simpl in E. exact (Hstrip _ E).
  - intros H.
    assert (Hx : Forall (fun c => is_space c = true) x).
    { rewrite List.Forall_forall. intros c Hc. apply in_remove_all in Hc.
      destruct Hc as [Hc Hnin]. destruct (H c Hc); [assumption | contradiction]. }
    unfold split. rewrite (split_from_all_space x Hx). reflexivity.
Qed.

Lemma sanitize_filename_empty_iff_witness :
  sanitize_filename " ?*: "%string = EmptyString.
Proof.
  apply (proj2 (sanitize_filename_empty_iff " ?*: "%string)).
  intros c Hc. simpl in Hc.
  repeat (destruct Hc as [<- | Hc]; [vm_compute; auto 12|]). destruct Hc.
Defined.

Lemma lstrip_starts_ok s : starts_ok (lstrip s).
Proof.
  induction s as [|c s IH]; simpl; [exact I|].
  destruct (is_space c) eqn:Hc; [exact IH | exact Hc].
Qed.

Lemma rstrip_starts_ok s : starts_ok s -> starts_ok (rstrip s).
Proof.
  destruct s as [|c s]; [intros _; exact I|]. simpl. intros Hc.
  destruct (rstrip s); [rewrite Hc|]; exact Hc.
Qed.

Lemma strip_idempotent s : strip (strip s) = strip s.
Proof.
  unfold strip at 1.
  rewrite lstrip_id by (apply rstrip_starts_ok, lstrip_starts_ok).
  apply rstrip_id, rstrip_ends_ok.
Qed.

End SanitizerFacts.

(** ** Pillow's operations *)

Module RasterFacts.

Import Raster RasterSpec.

Lemma fold_append_map {A B} (f : A -> B) (l : list A) (acc : list B) :
  fold_left (fun acc item => acc ++ [f item]) l acc = acc ++ map f l.
Proof.
  revert acc. induction l as [|a l IH]; intros acc; simpl.
  - now rewrite app_nil_r.
  - rewrite IH, <- app_assoc. reflexivity.
Qed.

(** Writing back the image of every pixel, in row-major order, maps the
    rows. *)
Lemma fill_rows_map (f : pixel -> pixel) (rs : list (list pixel)) :
  fill_rows rs (map f (concat rs)) = map (map f) rs.
Proof.
  induction rs as [|row rs IH]; [reflexivity|].
  cbn [fill_rows concat map]. rewrite map_app.
  assert (E1 : firstn (length row) (map f row ++ map f (concat rs)) = map f row).
  { rewrite <- (length_map f row). rewrite firstn_app, Nat.sub_diag, firstn_all.
    simpl. now rewrite app_nil_r. }
  assert (E2 : skipn (length (map f row ++ map f (concat rs))) row = []).
  { apply skipn_all2. rewrite length_app, length_map. lia. }
  assert (E3 : skipn (length row) (map f row ++ map f (concat rs)) = map f (concat rs)).
  { rewrite <- (length_map f row). rewrite skipn_app, Nat.sub_diag, skipn_all.
    reflexivity. }
  rewrite E1, E2, E3, IH, app_nil_r. reflexivity.
Qed.

Lemma nth_range {A} (f : Z -> A) (n i : Z) (d : A) :
  0 <= i < n -> nth (Z.to_nat i) (map f (range n)) d = f i.
Proof.
  intros H. unfold range. rewrite map_map.
  rewrite (nth_indep _ d (f (Z.of_nat 0))) by (rewrite length_map, length_seq; lia).
  rewrite (map_nth (fun k => f (Z.of_nat k))).
  rewrite seq_nth by lia. f_equal. lia.
Qed.

Lemma length_range n : length (range n) = Z.to_nat n.
Proof. unfold range. now rewrite length_map, length_seq. Qed.

Lemma scan_row_spec (row : list Z) : forall x b0 b2 hd c0 c2 hd',
  scan_row row x (b0, b2, hd) = (c0, c2, hd') ->
  c0 <= b0 /\ b2 <= c2 /\
  (forall i v, row !! i = Some v -> v <> 0 -> c0 <= x + Z.of_nat i < c2) /\
  (c0 = b0 \/ exists i v, row !! i = Some v /\ v <> 0 /\ c0 = x + Z.of_nat i) /\
  (c2 = b2 \/ exists i v, row !! i = Some v /\ v <> 0 /\ c2 = x + Z.of_nat i + 1) /\
  (hd' = true <-> hd = true \/ exists i v, row !! i = Some v /\ v <> 0).
Proof.
  induction row as [|v row IH]; intros x b0 b2 hd c0 c2 hd' E.
  - simpl in E. injection E as <- <- <-.
    split; [lia|]. split; [lia|]. split; [|split; [|split]]; auto.
    + intros i v H. discriminate H.
    + split; [now left|]. intros [H | (i & v & H & _)]; [assumption | discriminate H].
  - cbn [scan_row] in E. destruct (Z.eqb_spec v 0) as [-> | Hv].
    + apply IH in E. destruct E as (H1 & H2 & H3 & H4 & H5 & H6).
      split; [lia|]. split; [lia|]. split; [|split; [|split]].
      * intros [|i] w Hi Hw; simpl in Hi.
        { congruence. }
        { specialize (H3 i w Hi Hw). lia. }
      * destruct H4 as [-> | (i & w & Hi & Hw & ->)]; [now left|].
        right. exists (S i), w. repeat split; auto. lia.
      * destruct H5 as [-> | (i & w & Hi & Hw & ->)]; [now left|].
        right. exists (S i), w. repeat split; auto. lia.
      * rewrite H6. split; (intros [H | (i & w & Hi & Hw)]; [now left | right]).
        { exists (S i), w. auto. }
        { destruct i as [|i]; simpl in Hi; [congruence|]. exists i, w. auto. }
    + apply IH in E. destruct E as (H1 & H2 & H3 & H4 & H5 & H6).
      assert (Hhere : (v :: row) !! 0%nat = Some v) by reflexivity.
      split; [destruct (x <? b0) eqn:?; lia|].
      split; [destruct (b2 <=? x) eqn:?; lia|].
      split; [|split; [|split]].
      * intros [|i] w Hi Hw; simpl in Hi.
        { destruct (x <? b0) eqn:?; destruct (b2 <=? x) eqn:?; lia. }
        { specialize (H3 i w Hi Hw). lia. }
      * destruct H4 as [-> | (i & w & Hi & Hw & ->)].
        { destruct (Z.ltb_spec x b0); [right | now left].
          exists 0%nat, v. repeat split; auto. lia. }
        { right. exists (S i), w. repeat split; auto. lia. }
      * destruct H5 as [-> | (i & w & Hi & Hw & ->)].
        { destruct (Z.leb_spec b2 x); [right | now left].
          exists 0%nat, v. repeat split; auto. lia. }
        { right. exists (S i), w. repeat split; auto. lia. }
      * rewrite H6. split; [intros _ | intros _; now left].
        right. exists 0%nat, v. auto.
Qed.


Lemma nonzero_snoc (pre : list (list Z)) (row : list Z) (x y : Z) :
  nonzero (pre ++ [row]) x y <->
  nonzero pre x y \/
  (y = Z.of_nat (length pre) /\ 0 <= x /\
   exists v, row !! Z.to_nat x = Some v /\ v <> 0).
Proof.
  unfold nonzero. split.
  - intros (Hx & Hy & r & v & Hr & Hv & Hnz).
    destruct (Nat.lt_ge_cases (Z.to_nat y) (length pre)) as [Hlt | Hge].
    + left. rewrite lookup_app_l in Hr by assumption. eauto 8.
    + right. rewrite lookup_app_r in Hr by assumption.
      destruct (Z.to_nat y - length pre)%nat as [|k] eqn:Ek; simpl in Hr; [|discriminate Hr].
      injection Hr as ->. split; [lia|]. eauto.
  - intros [(Hx & Hy & r & v & Hr & Hv & Hnz) | (-> & Hx & v & Hv & Hnz)].
    + split; [assumption|]. split; [assumption|]. exists r, v.
      split; [|auto]. apply lookup_app_l_Some. assumption.
    + split; [assumption|]. split; [lia|]. exists row, v.
      split; [|auto]. rewrite Nat2Z.id, lookup_app_r, Nat.sub_diag by lia. reflexivity.
Qed.

Lemma nonzero_row_bound (band : list (list Z)) (x y : Z) :
  nonzero band x y -> y < Z.of_nat (length band).
Proof.
  intros (_ & Hy & r & _ & Hr & _). apply lookup_lt_Some in Hr. lia.
Qed.

Lemma scan_rows_step (xsize : Z) (pre : list (list Z)) (row : list Z)
    (b0 b1 b2 b3 c0 c2 : Z) (hd : bool) :
  (length row <= Z.to_nat xsize)%nat ->
  box_inv xsize pre (b0, b1, b2, b3) ->
  scan_row row 0 (b0, b2, false) = (c0, c2, hd) ->
  box_inv xsize (pre ++ [row])
    (if hd then (c0, (if b1 <? 0 then Z.of_nat (length pre) else b1), c2,
                 Z.of_nat (length pre) + 1)
     else (c0, b1, c2, b3)).
Proof.
  intros Hlen (I1 & I2 & I3) E.
  apply scan_row_spec in E. destruct E as (H1 & H2 & H3 & H4 & H5 & H6).
  set (y := Z.of_nat (length pre)).
  assert (Hb1 : 0 <= b1 -> b1 < y).
  { intros H. destruct (I3 H) as (_ & _ & [x Hx] & _).
    now apply nonzero_row_bound in Hx. }
  assert (Hmono : forall x y', nonzero pre x y' -> nonzero (pre ++ [row]) x y').
  { intros x y' H. apply nonzero_snoc. now left. }
  assert (Hrow : forall i v, row !! i = Some v -> v <> 0 ->
                 nonzero (pre ++ [row]) (Z.of_nat i) y).
  { intros i v Hi Hv. apply nonzero_snoc. right. split; [reflexivity|].
    split; [lia|]. exists v. now rewrite Nat2Z.id. }
  destruct hd.
  - destruct (proj1 H6 eq_refl) as [Hf | (i0 & v0 & Hi0 & Hv0)]; [discriminate Hf|].
    pose proof (H3 i0 v0 Hi0 Hv0) as Hc.
    pose proof (lookup_lt_Some _ _ _ Hi0) as Hi0len.
    assert (Hb1' : 0 <= (if b1 <? 0 then y else b1) <= y).
    { destruct (Z.ltb_spec b1 0); [unfold y; lia|]. specialize (Hb1 ltac:(lia)). lia. }
    split; [|split].
    + intros x y' Hnz. apply nonzero_snoc in Hnz.
      destruct Hnz as [Hnz | (-> & Hx & v & Hv & Hvz)].
      * pose proof (nonzero_row_bound _ _ _ Hnz) as Hy'.
        destruct (I1 x y' Hnz) as (Hb & Hxx & Hyy).
        destruct (Z.ltb_spec b1 0); [lia|]. fold y in Hy'. lia.
      * specialize (H3 _ _ Hv Hvz). rewrite Z2Nat.id in H3 by assumption.
        fold y. lia.
    + intros Hneg. lia.
    + intros _. split; [|split; [|split]].
      * destruct H4 as [-> | (i & v & Hi & Hv & ->)].
        { destruct (Z.ltb_spec b1 0) as [Hn | Hp].
          - destruct (I2 Hn) as [-> _]. lia.
          - destruct (I3 Hp) as ([y' Hy'] & _). exists y'. now apply Hmono. }
        { exists y. rewrite Z.add_0_l. eapply Hrow; eauto. }
      * destruct H5 as [-> | (i & v & Hi & Hv & ->)].
        { destruct (Z.ltb_spec b1 0) as [Hn | Hp].
          - destruct (I2 Hn) as [_ ->]. lia.
          - destruct (I3 Hp) as (_ & [y' Hy'] & _). exists y'. now apply Hmono. }
        { exists y. replace (0 + Z.of_nat i + 1 - 1) with (Z.of_nat i) by lia.
          eapply Hrow; eauto. }
      * destruct (Z.ltb_spec b1 0) as [Hn | Hp].
        { exists (Z.of_nat i0). eapply Hrow; eauto. }
        { destruct (I3 Hp) as (_ & _ & [x Hx] & _). exists x. now apply Hmono. }
      * exists (Z.of_nat i0). replace (y + 1 - 1) with y by lia. eapply Hrow; eauto.
  - assert (Hnone : forall i v, row !! i = Some v -> v = 0).
    { intros i v Hi. destruct (Z.eq_dec v 0) as [|Hv]; [assumption|].
      assert (false = true) by (apply H6; right; eauto). discriminate. }
    assert (c0 = b0).
    { destruct H4 as [| (i & v & Hi & Hv & _)]; [assumption|].
      now apply Hnone in Hi. }
    assert (c2 = b2).
    { destruct H5 as [| (i & v & Hi & Hv & _)]; [assumption|].
      now apply Hnone in Hi. }
    subst c0 c2.
    assert (Hsame : forall x y', nonzero (pre ++ [row]) x y' -> nonzero pre x y').
    { intros x y' Hnz. apply nonzero_snoc in Hnz.
      destruct Hnz as [Hnz | (_ & _ & v & Hv & Hvz)]; [assumption|].
      now apply Hnone in Hv. }
    split; [|split].
    + intros x y' Hnz. apply I1. now apply Hsame.
    + exact I2.
    + intros Hp. destruct (I3 Hp) as ([y1 Y1] & [y2 Y2] & [x1 X1] & [x2 X2]).
      repeat split; eauto.
Qed.

Lemma scan_rows_inv (xsize : Z) (rs : list (list Z)) : forall pre bb,
  Forall (fun row => (length row <= Z.to_nat xsize)%nat) rs ->
  box_inv xsize pre bb ->
  box_inv xsize (pre ++ rs) (scan_rows rs (Z.of_nat (length pre)) bb).
Proof.
  induction rs as [|row rs IH]; intros pre bb Hlen Hinv.
  - simpl. now rewrite app_nil_r.
  - inversion Hlen as [|? ? Hrow Hrest]; subst.
    destruct bb as [[[b0 b1] b2] b3]. cbn [scan_rows].
    destruct (scan_row row 0 (b0, b2, false)) as [[c0 c2] hd] eqn:E.
    pose proof (scan_rows_step xsize pre row b0 b1 b2 b3 c0 c2 hd Hrow Hinv E) as Hstep.
    specialize (IH (pre ++ [row]) _ Hrest Hstep).
    rewrite <- app_assoc in IH. simpl in IH.
    rewrite length_app in IH. simpl in IH.
    replace (Z.of_nat (length pre + 1)) with (Z.of_nat (length pre) + 1) in IH by lia.
    exact IH.
Qed.

(** [getbbox] returns [None] exactly when the band is zero everywhere,
    and otherwise a box that contains every non-zero position and
    touches one on each of its four sides. *)
Lemma getbbox_spec (xsize : Z) (band : list (list Z)) :
  Forall (fun row => (length row <= Z.to_nat xsize)%nat) band ->
  match getbbox xsize band with
  | None => forall x y, ~ nonzero band x y
  | Some (b0, b1, b2, b3) =>
      (forall x y, nonzero band x y -> b0 <= x < b2 /\ b1 <= y < b3) /\
      (exists y, nonzero band b0 y) /\ (exists y, nonzero band (b2 - 1) y) /\
      (exists x, nonzero band x b1) /\ (exists x, nonzero band x (b3 - 1))
  end.
Proof.
  intros Hlen. unfold getbbox.
  assert (Hinit : box_inv xsize [] (xsize, -1, 0, 0)).
  { split; [|split].
    - intros x y (_ & _ & r & v & Hr & _). discriminate Hr.
    - intros _. split; reflexivity.
    - intros H. lia. }
  pose proof (scan_rows_inv xsize band [] _ Hlen Hinit) as H.
  simpl in H. change (Z.of_nat 0) with 0 in H.
  destruct (scan_rows band 0 (xsize, -1, 0, 0)) as [[[b0 b1] b2] b3].
  unfold box_inv in H. destruct H as (I1 & I2 & I3).
  destruct (Z.ltb_spec b1 0) as [Hn | Hp].
  - intros x y Hnz. destruct (I1 x y Hnz). lia.
  - split; [|exact (I3 Hp)].
    intros x y Hnz. destruct (I1 x y Hnz) as (_ & ? & ?). split; assumption.
Qed.

End RasterFacts.

(** ** The image stages *)

Module ExtractorFacts.

Import Raster RasterSpec RasterFacts Extractor ExtractorSpec.

Lemma filter_pixel_near_white p : near_white p -> filter_pixel p = (255, 255, 255, 0).
Proof.
  intros (Hr & Hg & Hb). unfold filter_pixel.
  destruct (Z.ltb_spec 250 (red p)); [|lia].
  destruct (Z.ltb_spec 250 (green p)); [|lia].
  destruct (Z.ltb_spec 250 (blue p)); [|lia]. reflexivity.
Qed.

Lemma filter_pixel_other p : ~ near_white p -> filter_pixel p = p.
Proof.
  intros H. unfold filter_pixel, near_white in *.
  destruct (Z.ltb_spec 250 (red p)); [|reflexivity].
  destruct (Z.ltb_spec 250 (green p)); [|reflexivity].
  destruct (Z.ltb_spec 250 (blue p)); [|reflexivity].
  exfalso. apply H. auto.
Qed.

Lemma lookup_map {A B} (f : A -> B) (l : list A) (i : nat) :
  map f l !! i = f <$> l !! i.
Proof.
  revert i. induction l as [|a l IH]; intros [|i]; simpl; auto.
Qed.

Lemma lookup_map_Some {A B} (f : A -> B) (l : list A) (i : nat) (x : A) :
  l !! i = Some x -> map f l !! i = Some (f x).
Proof. intros H. now rewrite lookup_map, H. Qed.

Lemma background_filter_rows img :
  rows (background_filter img) = map (map filter_pixel) (rows img).
Proof.
  unfold background_filter, putdata, getdata. cbn [rows].
  rewrite fold_append_map. simpl. apply fill_rows_map.
Qed.

Lemma background_filter_pixel img x y :
  pixel_at (background_filter img) x y = filter_pixel <$> pixel_at img x y.
Proof.
  unfold pixel_at. rewrite background_filter_rows, lookup_map.
  destruct (rows img !! y) as [row|]; simpl; [|reflexivity].
  apply lookup_map.
Qed.

(** C1: on an RGBA image the background filter keeps the mode and the
    size; a pixel whose red, green and blue are each above 250 becomes
    (255, 255, 255, 0), and every other pixel, alpha included, is left as
    it was. *)
Theorem background_filter_spec (img : image) :
  mode_of img = RGBA ->
  mode_of (background_filter img) = RGBA /\
  width (background_filter img) = width img /\
  height (background_filter img) = height img /\
  forall x y,
    match pixel_at img x y with
    | None => pixel_at (background_filter img) x y = None
    | Some p =>
        (near_white p -> pixel_at (background_filter img) x y = Some (255, 255, 255, 0)) /\
        (~ near_white p -> pixel_at (background_filter img) x y = Some p)
    end.
Proof.
  intros Hmode. split; [exact Hmode|]. split; [reflexivity|]. split; [reflexivity|].
  intros x y. rewrite background_filter_pixel.
  destruct (pixel_at img x y) as [p|]; simpl; [|reflexivity].
  split; intros H.
  - now rewrite filter_pixel_near_white.
  - now rewrite filter_pixel_other.
Qed.


Lemma background_filter_spec_witness :
  mode_of Fixtures.img2 = RGBA /\
  pixel_at (background_filter Fixtures.img2) 1 0 = Some (255, 255, 255, 0) /\
  pixel_at (background_filter Fixtures.img2) 0 1 = Some (255, 255, 255, 0) /\
  pixel_at (background_filter Fixtures.img2) 1 1 = Some (10, 20, 30, 0).
Proof.
  split; [reflexivity|].
  pose proof (background_filter_spec Fixtures.img2 eq_refl) as (_ & _ & _ & H).
  split; [|split].
  - apply (proj1 (H 1%nat 0%nat)). cbv. auto.
  - apply (proj1 (H 0%nat 1%nat)). cbv. auto.
  - apply (proj2 (H 1%nat 1%nat)). cbv. intros (H1 & _). discriminate H1.
Defined.

(** *** Cropping *)

Lemma well_formed_row img y row :
  well_formed img -> rows img !! y = Some row -> length row = Z.to_nat (width img).
Proof.
  intros (_ & _ & _ & H) Hy. rewrite Forall_forall in H.
  apply H. eapply list_elem_of_lookup_2. exact Hy.
Qed.

Lemma getpixel_lookup img x y row p :
  rows img !! Z.to_nat y = Some row -> row !! Z.to_nat x = Some p ->
  getpixel img x y = p.
Proof.
  intros Hy Hx. unfold getpixel.
  rewrite (nth_lookup_Some _ _ _ _ Hy). now apply nth_lookup_Some.
Qed.

Lemma in_bounds_lookup img x y :
  well_formed img -> in_bounds img x y ->
  exists row, rows img !! Z.to_nat y = Some row /\
              row !! Z.to_nat x = Some (getpixel img x y).
Proof.
  intros Hwf [Hx Hy]. pose proof Hwf as (Hw & Hh & Hlen & Hrows).
  destruct (lookup_lt_is_Some_2 (rows img) (Z.to_nat y)) as [row Hrow]; [lia|].
  exists row. split; [assumption|].
  pose proof (well_formed_row _ _ _ Hwf Hrow) as Hl.
  destruct (lookup_lt_is_Some_2 row (Z.to_nat x)) as [p Hp]; [lia|].
  now rewrite (getpixel_lookup _ _ _ _ _ Hrow Hp).
Qed.

(** On a well-formed image the non-zero positions of the alpha band are
    the pixels that are not fully transparent. *)
Lemma nonzero_alpha_band img x y :
  well_formed img -> (nonzero (alpha_band img) x y <-> opaque_at img x y).
Proof.
  intros Hwf. unfold nonzero, opaque_at, alpha_band. split.
  - intros (Hx & Hy & r & v & Hr & Hv & Hnz).
    rewrite lookup_map in Hr.
    destruct (rows img !! Z.to_nat y) as [row|] eqn:Hrow; [|discriminate Hr].
    simpl in Hr. injection Hr as <-. rewrite lookup_map in Hv.
    destruct (row !! Z.to_nat x) as [p|] eqn:Hp; [|discriminate Hv].
    simpl in Hv. injection Hv as <-.
    pose proof (well_formed_row _ _ _ Hwf Hrow) as Hl.
    pose proof (lookup_lt_Some _ _ _ Hrow) as Hy'.
    pose proof (lookup_lt_Some _ _ _ Hp) as Hx'.
    destruct Hwf as (Hw & Hh & Hlen & _).
    split; [unfold in_bounds; lia|].
    now rewrite (getpixel_lookup _ _ _ _ _ Hrow Hp).
  - intros (Hb & Hnz). destruct (in_bounds_lookup _ _ _ Hwf Hb) as (row & Hrow & Hp).
    destruct Hb as [Hx Hy]. split; [lia|]. split; [lia|].
    exists (map alpha row), (alpha (getpixel img x y)).
    split; [now rewrite lookup_map, Hrow|].
    split; [now rewrite lookup_map, Hp | assumption].
Qed.

Lemma alpha_band_lengths img :
  well_formed img ->
  Forall (fun row => (length row <= Z.to_nat (width img))%nat) (alpha_band img).
Proof.
  intros (_ & _ & _ & H). unfold alpha_band. rewrite Forall_forall in H.
  rewrite Forall_forall. intros r Hr. apply list_elem_of_In, in_map_iff in Hr. destruct Hr as (row & <- & Hin).
  rewrite length_map. apply list_elem_of_In in Hin. rewrite (H row Hin). lia.
Qed.

Lemma crop_spec img l t r d :
  l <= r -> t <= d ->
  exists out, crop img (l, t, r, d) = Ok out /\ is_crop img (l, t, r, d) out.
Proof.
  intros Hlr Htd. unfold crop.
  destruct (Z.ltb_spec r l); [lia|]. destruct (Z.ltb_spec d t); [lia|].
  eexists. split; [reflexivity|].
  split; [reflexivity|]. split; [|split; [reflexivity|split; [reflexivity|]]].
  - unfold well_formed. cbn [width height rows].
    split; [lia|]. split; [lia|]. split.
    + now rewrite length_map, length_range.
    + rewrite Forall_forall. intros row Hrow.
      apply list_elem_of_In, in_map_iff in Hrow. destruct Hrow as (j & <- & _).
      now rewrite length_map, length_range.
  - intros i j Hi Hj. unfold getpixel at 1. cbn [rows].
    rewrite (nth_range _ _ _ []) by assumption.
    now rewrite nth_range by assumption.
Qed.


(** The box found on the alpha band is the minimal box of the image, and
    it is a non-empty part of the image. *)
Lemma getbbox_alpha img :
  well_formed img ->
  match getbbox (width img) (alpha_band img) with
  | None => forall x y, ~ opaque_at img x y
  | Some (l, t, r, d) =>
      minimal_box img (l, t, r, d) /\
      0 <= l < r /\ r <= width img /\ 0 <= t < d /\ d <= height img
  end.
Proof.
  intros Hwf.
  pose proof (getbbox_spec (width img) (alpha_band img) (alpha_band_lengths img Hwf)) as H.
  destruct (getbbox (width img) (alpha_band img)) as [[[[l t] r] d]|].
  - destruct H as (Hin & [y0 H0] & [y2 H2] & [x1 H1] & [x3 H3]).
    apply (nonzero_alpha_band _ _ _ Hwf) in H0, H2, H1, H3.
    assert (Henc : encloses img (l, t, r, d)).
    { intros x y Hxy. apply Hin. now apply nonzero_alpha_band. }
    split; [split; [exact Henc|]|].
    + intros [[[l' t'] r'] d'] Henc'. unfold box_within.
      pose proof (Henc' _ _ H0). pose proof (Henc' _ _ H2).
      pose proof (Henc' _ _ H1). pose proof (Henc' _ _ H3). lia.
    + pose proof (Henc _ _ H0). pose proof (Henc _ _ H1).
      destruct H0 as [[? ?] _]. destruct H2 as [[? ?] _].
      destruct H1 as [[? ?] _]. destruct H3 as [[? ?] _]. lia.
  - intros x y Hxy. apply (H x y). now apply nonzero_alpha_band.
Qed.

Lemma ensure_RGBA_id img : mode_of img = RGBA -> ensure_RGBA img = img.
Proof. unfold ensure_RGBA. now intros ->. Qed.

(** C2, as the code has it: for an RGBA image with some pixel of
    non-zero alpha and a margin that is not negative, [autocrop_image]
    returns the crop to the minimal rectangle containing all non-zero-alpha
    pixels, expanded by the margin on all sides and clamped to the image
    bounds; for a fully transparent image it returns the 100 by 100 crop
    from the origin, whatever the margin. *)
Theorem autocrop_image_spec (img : image) (margin : Z) :
  mode_of img = RGBA -> well_formed img ->
  ((exists x y, opaque_at img x y) -> 0 <= margin ->
   exists bb out,
     minimal_box img bb /\
     autocrop_image img margin = Ok out /\
     is_crop img (expand_clamp img bb margin) out /\
     box_within (expand_clamp img bb margin) (0, 0, width img, height img) /\
     0 < width out /\ 0 < height out) /\
  ((forall x y, ~ opaque_at img x y) ->
   exists out,
     autocrop_image img margin = Ok out /\ is_crop img (0, 0, 100, 100) out).
Proof.
  intros Hmode Hwf. unfold autocrop_image. rewrite (ensure_RGBA_id _ Hmode).
  pose proof (getbbox_alpha img Hwf) as H.
  destruct (getbbox (width img) (alpha_band img)) as [[[[l t] r] d]|].
  - destruct H as (Hmin & Hl & Hr & Ht & Hd). split.
    + intros _ Hm. exists (l, t, r, d).
      assert (E : crop_box img (l, t, r, d) margin = expand_clamp img (l, t, r, d) margin).
      { unfold crop_box, expand_clamp, clamp. repeat f_equal; lia. }
      rewrite E. unfold expand_clamp, clamp.
      destruct (crop_spec img (Z.max 0 (Z.min (width img) (l - margin)))
                  (Z.max 0 (Z.min (height img) (t - margin)))
                  (Z.max 0 (Z.min (width img) (r + margin)))
                  (Z.max 0 (Z.min (height img) (d + margin))))
        as (out & Hout & Hcrop); [lia | lia |].
      exists out. split; [exact Hmin|]. split; [exact Hout|]. split; [exact Hcrop|].
      destruct Hcrop as (_ & _ & Hw & Hh & _).
      split; [unfold box_within; lia|]. lia.
    + intros Hnone. exfalso.
      destruct Hmin as [Henc Hleast].
      specialize (Hleast (0, 0, 0, 0)). unfold box_within in Hleast.
      assert (Hempty : encloses img (0, 0, 0, 0)).
      { intros x y Hxy. now apply Hnone in Hxy. }
      specialize (Hleast Hempty). lia.
  - split.
    + intros (x & y & Hxy). now apply H in Hxy.
    + intros _. apply crop_spec; lia.
Qed.

Lemma dot_well_formed : well_formed Fixtures.dot.
Proof. repeat split; try (cbv; discriminate). repeat constructor. Qed.

Lemma ring_well_formed : well_formed Fixtures.ring.
Proof. repeat split; try (cbv; discriminate). repeat constructor. Qed.

Lemma blank_well_formed : well_formed Fixtures.blank.
Proof. repeat split; try (cbv; discriminate). repeat constructor. Qed.

Lemma autocrop_image_spec_witness :
  (exists out, autocrop_image Fixtures.ring 5 = Ok out /\ width out = 3 /\ height out = 3) /\
  (exists out, autocrop_image Fixtures.blank 5 = Ok out /\
               is_crop Fixtures.blank (0, 0, 100, 100) out).
Proof.
  split.
  - destruct (proj1 (autocrop_image_spec Fixtures.ring 5 eq_refl ring_well_formed))
      as (bb & out & _ & Hout & _).
    + exists 1, 1. split; [cbv; intuition discriminate | cbv; discriminate].
    + lia.
    + exists out. split; [exact Hout|].
      vm_compute in Hout. injection Hout as <-. split; reflexivity.
  - apply (proj2 (autocrop_image_spec Fixtures.blank 5 eq_refl blank_well_formed)).
    intros x y [[Hx Hy] Ha]. apply Ha.
    assert (Hx' : x = 0 \/ x = 1 \/ x = 2) by (cbv [Fixtures.blank width] in Hx; lia).
    assert (Hy' : y = 0 \/ y = 1) by (cbv [Fixtures.blank height] in Hy; lia).
    destruct Hx' as [-> | [-> | ->]]; destruct Hy' as [-> | ->]; reflexivity.
Defined.

(** C2 fails for a negative margin: on the one-pixel opaque image with
    margin -2 the computed box is (2, 2, -1, -1), which is not a box of
    the image, and the crop raises [ValueError]. *)
Lemma autocrop_negative_margin :
  mode_of Fixtures.dot = RGBA /\ well_formed Fixtures.dot /\
  (exists x y, opaque_at Fixtures.dot x y) /\
  crop_box Fixtures.dot (0, 0, 1, 1) (-2) = (2, 2, -1, -1) /\
  autocrop_image Fixtures.dot (-2) = Raise ValueError /\
  ~ (exists out, autocrop_image Fixtures.dot (-2) = Ok out).
Proof.
  split; [reflexivity|]. split; [exact dot_well_formed|].
  split; [exists 0, 0; split; [cbv; intuition discriminate | cbv; discriminate]|].
  split; [reflexivity|]. split; [reflexivity|].
  intros [out H]. vm_compute in H. discriminate H.
Qed.


(** *** Erasing the title *)

Lemma draw_rectangle_ok img x0 y0 x1 y1 ink :
  x0 <= x1 -> y0 <= y1 ->
  exists out, draw_rectangle img (x0, y0, x1, y1) ink = Ok out /\
    mode_of out = mode_of img /\ width out = width img /\ height out = height img /\
    forall i j, pixel_at out i j =
      (fun p => if in_fill (x0, y0, x1, y1) i j then ink else p) <$> pixel_at img i j.
Proof.
  intros Hx Hy. unfold draw_rectangle.
  destruct (Z.ltb_spec x1 x0); [lia|]. destruct (Z.ltb_spec y1 y0); [lia|].
  eexists. split; [reflexivity|]. repeat split.
  intros i j. unfold pixel_at. cbn [rows]. rewrite list_lookup_imap.
  destruct (rows img !! j) as [row|]; simpl; [|reflexivity].
  now rewrite list_lookup_imap.
Qed.

Lemma draw_rectangle_raises img x0 y0 x1 y1 ink :
  x1 < x0 \/ y1 < y0 -> draw_rectangle img (x0, y0, x1, y1) ink = Raise ValueError.
Proof.
  intros H. unfold draw_rectangle.
  destruct (Z.ltb_spec x1 x0); [reflexivity|].
  destruct (Z.ltb_spec y1 y0); [reflexivity|]. lia.
Qed.

Lemma image_eq (a b : image) :
  mode_of a = mode_of b -> width a = width b -> height a = height b ->
  (forall i j, pixel_at a i j = pixel_at b i j) ->
  length (rows a) = length (rows b) ->
  a = b.
Proof.
  destruct a as [ma wa ha ra], b as [mb wb hb rb]. simpl.
  intros -> -> -> Hpx Hlen. f_equal.
  apply list_eq. intros j. specialize (fun i => Hpx i j). unfold pixel_at in Hpx. simpl in Hpx.
  destruct (ra !! j) as [r1|] eqn:E1, (rb !! j) as [r2|] eqn:E2.
  - f_equal. apply list_eq. exact Hpx.
  - apply lookup_lt_Some in E1. apply lookup_ge_None in E2. lia.
  - apply lookup_lt_Some in E2. apply lookup_ge_None in E1. lia.
  - reflexivity.
Qed.

Lemma ensure_RGBA_well_formed img : well_formed img -> well_formed (ensure_RGBA img).
Proof.
  intros Hwf. unfold ensure_RGBA. destruct (mode_eqb (mode_of img) RGBA); [assumption|].
  destruct Hwf as (Hw & Hh & Hlen & Hrows). unfold well_formed, convert_RGBA. cbn [width height rows].
  split; [assumption|]. split; [assumption|]. split; [now rewrite length_map|].
  rewrite Forall_forall in *. intros row Hrow.
  apply list_elem_of_In, in_map_iff in Hrow. destruct Hrow as (r & <- & Hr).
  rewrite length_map. apply Hrows. now apply list_elem_of_In.
Qed.

Lemma ensure_RGBA_size img :
  width (ensure_RGBA img) = width img /\ height (ensure_RGBA img) = height img /\
  mode_of (ensure_RGBA img) = RGBA.
Proof.
  unfold ensure_RGBA. destruct (mode_of img) eqn:E; simpl; auto.
Qed.

Lemma title_rect_bounds W H bb margin x y w h :
  title_rect W H bb margin = (x, y, w, h) ->
  0 <= x /\ 0 <= y /\ x + w <= W /\ y + h <= H.
Proof.
  destruct bb as [[[x_rel y_rel] width_rel] height_rel]. unfold title_rect.
  intros E. injection E as <- <- <- <-. lia.
Qed.

(** When width and height are not negative the fill is performed, and
    it changes exactly the pixels of the image that lie in the box. *)
Lemma remove_title_fill img bb margin x y w h :
  title_rect (width img) (height img) bb margin = (x, y, w, h) ->
  0 <= w -> 0 <= h ->
  exists out,
    remove_title_from_image img (Some bb) margin = Ok out /\
    mode_of out = RGBA /\ width out = width img /\ height out = height img /\
    length (rows out) = length (rows (ensure_RGBA img)) /\
    forall i j,
      pixel_at out i j =
        (fun p => if in_fill (x, y, x + w, y + h) i j then transparent_white else p)
          <$> pixel_at (ensure_RGBA img) i j.
Proof.
  intros E Hw0 Hh0.
  pose proof (ensure_RGBA_size img) as (Hw & Hh & Hm).
  unfold remove_title_from_image. rewrite E. cbn [fill_box].
  destruct (draw_rectangle_ok (ensure_RGBA img) x y (x + w) (y + h) transparent_white)
    as (out & Hout & Hmo & Hwo & Hho & Hpx); [lia | lia |].
  exists out. rewrite Hout.
  split; [reflexivity|]. split; [congruence|]. split; [congruence|].
  split; [congruence|]. split; [|exact Hpx].
  unfold draw_rectangle in Hout.
  destruct (x + w <? x); [discriminate Hout|].
  destruct (y + h <? y); [discriminate Hout|].
  injection Hout as <-. cbn [rows]. apply length_imap.
Qed.

(** C3, as the code has it: for every image, every bounding box and
    every margin the rectangle handed to the fill has its corner (x, y)
    at or after the origin and its far corner (x + width, y + height) at
    or before (image width, image height), even when the box with its
    margin exceeds the image; whenever width and height are not negative
    the fill is performed, the whole rectangle lies within the image
    bounds and no pixel outside it changes; and when the clamping leaves
    zero width on the right edge (x is the image width) or zero height on
    the bottom edge (y is the image height), the fill changes no pixel. *)
Theorem remove_title_rect_spec (img : image) (bb : Locator.bbox) (margin : Z) :
  forall x y w h,
  title_rect (width img) (height img) bb margin = (x, y, w, h) ->
  (0 <= x /\ 0 <= y /\ x + w <= width img /\ y + h <= height img) /\
  (0 <= w -> 0 <= h ->
   0 <= x <= width img /\ 0 <= x + w <= width img /\
   0 <= y <= height img /\ 0 <= y + h <= height img /\
   exists out,
     remove_title_from_image img (Some bb) margin = Ok out /\
     mode_of out = RGBA /\ width out = width img /\ height out = height img /\
     forall i j,
       pixel_at out i j =
         (fun p => if in_fill (x, y, x + w, y + h) i j then transparent_white else p)
           <$> pixel_at (ensure_RGBA img) i j) /\
  (well_formed img -> 0 <= w -> 0 <= h -> x = width img \/ y = height img ->
   remove_title_from_image img (Some bb) margin = Ok (ensure_RGBA img)).
Proof.
  intros x y w h E.
  pose proof (title_rect_bounds _ _ _ _ _ _ _ _ E) as Hb.
  pose proof (ensure_RGBA_size img) as (Hw & Hh & Hm).
  split; [exact Hb|]. split.
  - intros Hw0 Hh0. repeat split; try lia.
    destruct (remove_title_fill _ _ _ _ _ _ _ E Hw0 Hh0)
      as (out & Hout & Hmo & Hwo & Hho & _ & Hpx).
    exists out. auto.
  - intros Hwf Hw0 Hh0 Hedge.
    destruct (remove_title_fill _ _ _ _ _ _ _ E Hw0 Hh0)
      as (out & Hout & Hmo & Hwo & Hho & Hlen & Hpx).
    rewrite Hout. f_equal.
    pose proof (ensure_RGBA_well_formed img Hwf) as Hwf'.
    apply image_eq; try congruence.
    intros i j. rewrite Hpx.
    destruct (pixel_at (ensure_RGBA img) i j) as [p|] eqn:Ep; [|reflexivity].
    simpl. f_equal. unfold pixel_at in Ep.
    destruct (rows (ensure_RGBA img) !! j) as [row|] eqn:Erow; [|discriminate Ep].
    pose proof (well_formed_row _ _ _ Hwf' Erow) as Hlen'.
    apply lookup_lt_Some in Ep. apply lookup_lt_Some in Erow.
    destruct Hwf' as (? & ? & Hrows & _).
    unfold in_fill.
    destruct Hedge as [-> | ->].
    + destruct (Z.leb_spec (width img) (Z.of_nat i)); [lia | reflexivity].
    + destruct (Z.leb_spec (height img) (Z.of_nat j)); [lia|].
      now rewrite !andb_false_r.
Qed.

Lemma remove_title_rect_spec_witness :
  title_rect 3 3 Fixtures.corner 0 = (3, 3, 0, 0) /\
  remove_title_from_image Fixtures.ring (Some Fixtures.corner) 0 = Ok Fixtures.ring.
Proof.
  split; [reflexivity|].
  pose proof (remove_title_rect_spec Fixtures.ring Fixtures.corner 0 3 3 0 0 eq_refl)
    as (_ & _ & H).
  apply H; [exact ring_well_formed | lia | lia | left; reflexivity].
Defined.

(** C3 fails for a box of zero width that is not on the right edge: with
    margin 0 the box [sliver] gives the rectangle (0, 0, 0, 1), of zero
    area, and the fill, which includes both end points, turns the two
    pixels of column 0 into transparent white. *)
Lemma remove_title_zero_width_fills :
  title_rect (width Fixtures.img2) (height Fixtures.img2) Fixtures.sliver 0 = (0, 0, 0, 1) /\
  exists out,
    remove_title_from_image Fixtures.img2 (Some Fixtures.sliver) 0 = Ok out /\
    pixel_at Fixtures.img2 0 0 = Some Fixtures.black /\
    pixel_at out 0 0 = Some transparent_white /\
    out <> Fixtures.img2.
Proof.
  split; [reflexivity|]. eexists. split; [reflexivity|].
  split; [reflexivity|]. split; [reflexivity|]. discriminate.
Qed.

(** *** Resizing *)

(** C4, as the code has it: a scale of 100 or more returns the image
    itself; a scale below 100 for which both floor(width * scale / 100)
    and floor(height * scale / 100) are at least 1 gives an image of
    exactly that width and height, neither larger than the original. *)
Theorem resize_image_spec (resample : image -> Z -> Z -> list (list pixel))
    (img : image) (scale_percent : Z) :
  0 <= width img -> 0 <= height img ->
  (100 <= scale_percent -> resize_image resample img scale_percent = Ok img) /\
  (scale_percent < 100 ->
   1 <= width img * scale_percent / 100 ->
   1 <= height img * scale_percent / 100 ->
   exists out,
     resize_image resample img scale_percent = Ok out /\
     mode_of out = mode_of img /\
     width out = width img * scale_percent / 100 /\
     height out = height img * scale_percent / 100 /\
     width out <= width img /\ height out <= height img).
Proof.
  intros Hw Hh. unfold resize_image. split.
  - intros H. destruct (Z.leb_spec 100 scale_percent); [reflexivity | lia].
  - intros Hs Hw1 Hh1. destruct (Z.leb_spec 100 scale_percent); [lia|].
    assert (Hwpos : 0 <= width img * scale_percent).
    { destruct (Z.le_gt_cases 0 (width img * scale_percent)); [assumption|].
      pose proof (Z.div_lt_upper_bound (width img * scale_percent) 100 0). lia. }
    assert (Hhpos : 0 <= height img * scale_percent).
    { destruct (Z.le_gt_cases 0 (height img * scale_percent)); [assumption|].
      pose proof (Z.div_lt_upper_bound (height img * scale_percent) 100 0). lia. }
    rewrite !Z.quot_div_nonneg by lia.
    assert (Hwle : width img * scale_percent / 100 <= width img).
    { apply Z.div_le_upper_bound; nia. }
    assert (Hhle : height img * scale_percent / 100 <= height img).
    { apply Z.div_le_upper_bound; nia. }
    unfold resize.
    destruct ((width img * scale_percent / 100 =? width img)
              && (height img * scale_percent / 100 =? height img)) eqn:Esame.
    + apply andb_true_iff in Esame. destruct Esame as [E1 E2].
      apply Z.eqb_eq in E1, E2. exists img. rewrite E1, E2. repeat split; lia.
    + destruct (Z.ltb_spec (width img * scale_percent / 100) 1); [lia|].
      destruct (Z.ltb_spec (height img * scale_percent / 100) 1); [lia|].
      simpl. eexists. split; [reflexivity|]. simpl. repeat split; lia.
Qed.

Lemma resize_image_spec_witness :
  resize_image Fixtures.nearest Fixtures.ring 100 = Ok Fixtures.ring /\
  exists out,
    resize_image Fixtures.nearest Fixtures.ring 70 = Ok out /\
    width out = 2 /\ height out = 2.
Proof.
  pose proof (resize_image_spec Fixtures.nearest Fixtures.ring) as H.
  split.
  - apply (H 100); [vm_compute; discriminate | vm_compute; discriminate | lia].
  - destruct (proj2 (H 70 ltac:(vm_compute; discriminate) ltac:(vm_compute; discriminate)))
      as (out & Hout & _ & Hw & Hh & _).
    + lia.
    + vm_compute. discriminate.
    + vm_compute. discriminate.
    + exists out. split; [exact Hout|]. split; [exact Hw | exact Hh].
Defined.

(** C4 fails where a scaled side is below 1.  At scale 50 the one-pixel
    image would have to become 0 by 0, and at scale -5 the claimed width
    of the 2 by 2 image, floor(2 * -5 / 100), is -1 while the code asks
    for int(-0.1), which is 0; in both cases the resize raises
    [ValueError] and no image comes out. *)
Lemma resize_below_one_pixel :
  width Fixtures.dot * 50 / 100 = 0 /\
  resize_image Fixtures.nearest Fixtures.dot 50 = Raise ValueError /\
  width Fixtures.img2 * -5 / 100 = -1 /\
  Z.quot (width Fixtures.img2 * -5) 100 = 0 /\
  resize_image Fixtures.nearest Fixtures.img2 (-5) = Raise ValueError.
Proof. repeat split. Qed.

(** *** More on the background filter *)

Lemma background_filter_eq img :
  background_filter img =
    {| mode_of := mode_of img; width := width img; height := height img;
       rows := map (map filter_pixel) (rows img) |}.
Proof.
  rewrite <- background_filter_rows. reflexivity.
Qed.

Lemma filter_pixel_idempotent p : filter_pixel (filter_pixel p) = filter_pixel p.
Proof.
  unfold filter_pixel at 2 3.
  destruct ((250 <? red p) && (250 <? green p) && (250 <? blue p)) eqn:E.
  - reflexivity.
  - unfold filter_pixel. now rewrite E.
Qed.

(** X3: Filtering twice is filtering once, and after the filter no near-white
    pixel is visible: a pixel of the result whose red, green and blue
    are all above 250 is (255, 255, 255, 0). *)
Theorem background_filter_idempotent (img : image) :
  background_filter (background_filter img) = background_filter img /\
  forall x y p,
    pixel_at (background_filter img) x y = Some p -> near_white p ->
    p = (255, 255, 255, 0).
Proof.
  split.
  - rewrite (background_filter_eq (background_filter img)).
    rewrite (background_filter_eq img). cbn [mode_of width height rows].
    f_equal. rewrite map_map. apply map_ext. intros row.
    rewrite map_map. apply map_ext. apply filter_pixel_idempotent.
  - intros x y p Hp Hnw. rewrite background_filter_pixel in Hp.
    destruct (pixel_at img x y) as [q|]; [|discriminate Hp].
    simpl in Hp. injection Hp as <-.
    rewrite <- filter_pixel_idempotent. now apply filter_pixel_near_white.
Qed.

Lemma background_filter_idempotent_witness :
  pixel_at Fixtures.img2 0 1 = Some (252, 253, 254, 7) /\
  exists p,
    pixel_at (background_filter Fixtures.img2) 0 1 = Some p /\ near_white p /\
    p = (255, 255, 255, 0).
Proof.
  split; [reflexivity|].
  assert (Hnw : near_white (255, 255, 255, 0)) by (cbv; auto).
  exists (filter_pixel (252, 253, 254, 7)).
  split; [reflexivity|]. split; [exact Hnw|].
  exact (proj2 (background_filter_idempotent Fixtures.img2) 0%nat 1%nat _ eq_refl Hnw).
Defined.

Lemma background_filter_well_formed img :
  well_formed img -> well_formed (background_filter img).
Proof.
  intros (Hw & Hh & Hlen & Hrows). rewrite background_filter_eq.
  unfold well_formed. cbn [width height rows].
  split; [assumption|]. split; [assumption|]. split; [now rewrite length_map|].
  rewrite Forall_forall in *. intros row Hrow.
  apply list_elem_of_In, in_map_iff in Hrow. destruct Hrow as (r & <- & Hr).
  rewrite length_map. apply Hrows. now apply list_elem_of_In.
Qed.

Lemma pixel_at_getpixel img x y :
  well_formed img -> in_bounds img x y ->
  pixel_at img (Z.to_nat x) (Z.to_nat y) = Some (getpixel img x y).
Proof.
  intros Hwf Hb. destruct (in_bounds_lookup _ _ _ Hwf Hb) as (row & Hrow & Hp).
  unfold pixel_at. now rewrite Hrow.
Qed.

Lemma pixel_at_Some_getpixel img x y p :
  0 <= x -> 0 <= y ->
  pixel_at img (Z.to_nat x) (Z.to_nat y) = Some p -> getpixel img x y = p.
Proof.
  intros Hx Hy. unfold pixel_at.
  destruct (rows img !! Z.to_nat y) as [row|] eqn:Hrow; [|discriminate].
  intros Hp. now apply (getpixel_lookup _ _ _ row).
Qed.

Lemma background_filter_getpixel img x y :
  well_formed img -> in_bounds img x y ->
  getpixel (background_filter img) x y = filter_pixel (getpixel img x y).
Proof.
  intros Hwf Hb. apply pixel_at_Some_getpixel; [apply Hb | apply Hb |].
  rewrite background_filter_pixel, (pixel_at_getpixel _ _ _ Hwf Hb). reflexivity.
Qed.

(** *** More on the title eraser *)

Lemma remove_title_ok_inv img bb margin out x y w h :
  title_rect (width img) (height img) bb margin = (x, y, w, h) ->
  remove_title_from_image img (Some bb) margin = Ok out ->
  0 <= w /\ 0 <= h.
Proof.
  intros E Hout. unfold remove_title_from_image in Hout. rewrite E in Hout.
  cbn [fill_box] in Hout.
  destruct (Z.lt_ge_cases w 0) as [Hw | Hw].
  { rewrite draw_rectangle_raises in Hout by lia. discriminate Hout. }
  destruct (Z.lt_ge_cases h 0) as [Hh | Hh].
  { rewrite draw_rectangle_raises in Hout by lia. discriminate Hout. }
  split; assumption.
Qed.

(** X5: Erasing the title of an image whose title has been erased changes
    nothing more. *)
Theorem remove_title_idempotent (img : image) (bbox : option Locator.bbox)
    (margin : Z) (out : image) :
  remove_title_from_image img bbox margin = Ok out ->
  remove_title_from_image out bbox margin = Ok out.
Proof.
  destruct bbox as [bb|]; [|reflexivity].
  intros Hout.
  destruct (title_rect (width img) (height img) bb margin) as [[[x y] w] h] eqn:E.
  destruct (remove_title_ok_inv _ _ _ _ _ _ _ _ E Hout) as [Hw Hh].
  destruct (remove_title_fill _ _ _ _ _ _ _ E Hw Hh)
    as (out1 & Hout1 & Hm1 & Hw1 & Hh1 & Hlen1 & Hpx1).
  rewrite Hout in Hout1. injection Hout1 as <-.
  assert (E' : title_rect (width out) (height out) bb margin = (x, y, w, h))
    by now rewrite Hw1, Hh1.
  destruct (remove_title_fill _ _ _ _ _ _ _ E' Hw Hh)
    as (out2 & Hout2 & Hm2 & Hw2 & Hh2 & Hlen2 & Hpx2).
  rewrite Hout2. f_equal.
  rewrite (ensure_RGBA_id _ Hm1) in Hlen2, Hpx2.
  apply image_eq; try congruence.
  intros i j. rewrite Hpx2, Hpx1.
  destruct (pixel_at (ensure_RGBA img) i j) as [p|]; [|reflexivity].
  destruct (in_fill (x, y, x + w, y + h) i j); reflexivity.
Qed.

Lemma remove_title_idempotent_witness :
  exists out,
    remove_title_from_image Fixtures.img2 (Some Fixtures.sliver) 0 = Ok out /\
    remove_title_from_image out (Some Fixtures.sliver) 0 = Ok out.
Proof.
  eexists. split; [reflexivity|].
  apply (remove_title_idempotent Fixtures.img2). reflexivity.
Defined.

(** The fill reaches every pixel of the image within [margin] of the
    title's pixel box. *)
Lemma remove_title_covers (img : image) (bb : Locator.bbox) (margin : Z)
    (out : image) :
  well_formed img ->
  remove_title_from_image img (Some bb) margin = Ok out ->
  forall px py pw ph,
  pixel_box (width img) (height img) bb = (px, py, pw, ph) ->
  forall i j p,
    pixel_at out i j = Some p ->
    px - margin <= Z.of_nat i <= px + pw + margin ->
    py - margin <= Z.of_nat j <= py + ph + margin ->
    p = transparent_white.
Proof.
  intros Hwf Hout px py pw ph Hbox i j p Hp Hi Hj.
  destruct bb as [[[x_rel y_rel] width_rel] height_rel].
  unfold pixel_box in Hbox. injection Hbox as <- <- <- <-.
  destruct (title_rect (width img) (height img)
              (x_rel, y_rel, width_rel, height_rel) margin) as [[[x y] w] h] eqn:E.
  destruct (remove_title_ok_inv _ _ _ _ _ _ _ _ E Hout) as [Hw Hh].
  destruct (remove_title_fill _ _ _ _ _ _ _ E Hw Hh)
    as (out1 & Hout1 & _ & _ & _ & _ & Hpx).
  rewrite Hout in Hout1. injection Hout1 as <-.
  rewrite Hpx in Hp.
  pose proof (ensure_RGBA_well_formed img Hwf) as Hwf'.
  pose proof (ensure_RGBA_size img) as (Hws & Hhs & _).
  destruct (pixel_at (ensure_RGBA img) i j) as [q|] eqn:Eq; [|discriminate Hp].
  assert (Hin : Z.of_nat i < width img /\ Z.of_nat j < height img).
  { unfold pixel_at in Eq.
    destruct (rows (ensure_RGBA img) !! j) as [row|] eqn:Erow; [|discriminate Eq].
    pose proof (well_formed_row _ _ _ Hwf' Erow) as Hlen.
    apply lookup_lt_Some in Eq. apply lookup_lt_Some in Erow.
    destruct Hwf' as (? & ? & Hrows & _). lia. }
  assert (Hfill : in_fill (x, y, x + w, y + h) i j = true).
  { unfold title_rect in E. injection E as <- <- <- <-. unfold in_fill.
    repeat (apply andb_true_intro; split); apply Z.leb_le; lia. }
  change (Some (if in_fill (x, y, x + w, y + h) i j then transparent_white else q)
          = Some p) in Hp.
  rewrite Hfill in Hp. now injection Hp as <-.
Qed.

(** X6: The erased rectangle covers the title box and its margin: a pixel of
    the image that lies within [margin] of the title box, in pixels, is
    transparent white afterwards. *)
Theorem remove_title_covers_title (img : image) (bb : Locator.bbox) (margin : Z)
    (out : image) :
  well_formed img ->
  remove_title_from_image img (Some bb) margin = Ok out ->
  forall px py pw ph,
  pixel_box (width img) (height img) bb = (px, py, pw, ph) ->
  forall i j p,
    pixel_at out i j = Some p ->
    px - margin <= Z.of_nat i <= px + pw + margin ->
    py - margin <= Z.of_nat j <= py + ph + margin ->
    p = transparent_white.
Proof. exact (remove_title_covers img bb margin out). Qed.

Lemma img2_well_formed : well_formed Fixtures.img2.
Proof. repeat split; try (cbv; discriminate). repeat constructor. Qed.

Lemma remove_title_covers_title_witness :
  exists out p,
    remove_title_from_image Fixtures.img2 (Some Fixtures.sliver) 1 = Ok out /\
    pixel_at out 1 1 = Some p /\ p = transparent_white.
Proof.
  eexists. eexists. split; [reflexivity|]. split; [reflexivity|].
  eapply (remove_title_covers_title Fixtures.img2 Fixtures.sliver 1 _
            img2_well_formed eq_refl 0 0 0 1 eq_refl 1%nat 1%nat).
  - reflexivity.
  - cbv. split; discriminate.
  - cbv. split; discriminate.
Defined.

(** *** More on the resizer *)

(** X7: Whatever the scale, an image that comes out has the mode of the
    one that went in and is not larger, and the resizer raises only when
    the scale is below 100 and a side scaled by it is below one pixel. *)
Theorem resize_image_never_enlarges (resample : image -> Z -> Z -> list (list pixel))
    (img : image) (scale_percent : Z) :
  0 <= width img -> 0 <= height img ->
  (forall out,
     resize_image resample img scale_percent = Ok out ->
     mode_of out = mode_of img /\
     width out <= width img /\ height out <= height img) /\
  (forall e,
     resize_image resample img scale_percent = Raise e ->
     scale_percent < 100 /\
     (Z.quot (width img * scale_percent) 100 < 1 \/
      Z.quot (height img * scale_percent) 100 < 1)).
Proof.
  intros Hw Hh. unfold resize_image, resize.
  destruct (Z.leb_spec 100 scale_percent) as [Hs | Hs].
  { split; [|discriminate]. intros out E. injection E as <-. repeat split; lia. }
  set (w := Z.quot (width img * scale_percent) 100).
  set (h := Z.quot (height img * scale_percent) 100).
  destruct ((w =? width img) && (h =? height img)).
  { split; [|discriminate]. intros out E. injection E as <-. repeat split; lia. }
  destruct (Z.ltb_spec w 1) as [Hw1 | Hw1]; cbn [orb].
  { split; [discriminate|]. intros e E. auto. }
  destruct (Z.ltb_spec h 1) as [Hh1 | Hh1].
  { split; [discriminate|]. intros e E. auto. }
  split; [|discriminate]. intros out E. injection E as <-. cbn [mode_of width height].
  split; [reflexivity|].
  assert (Hbound : forall d, 0 <= d -> 1 <= Z.quot (d * scale_percent) 100 ->
                             Z.quot (d * scale_percent) 100 <= d).
  { intros d Hd H1.
    assert (0 <= d * scale_percent).
    { destruct (Z.le_gt_cases 0 (d * scale_percent)) as [|Hneg]; [assumption|].
      pose proof (Z.quot_opp_l (- (d * scale_percent)) 100 ltac:(lia)) as Ho.
      rewrite Z.opp_involutive in Ho.
      pose proof (Z.quot_pos (- (d * scale_percent)) 100 ltac:(lia) ltac:(lia)). lia. }
    rewrite Z.quot_div_nonneg by lia. apply Z.div_le_upper_bound; nia. }
  split; apply Hbound; assumption.
Qed.

Lemma resize_image_never_enlarges_witness :
  exists out,
    resize_image Fixtures.nearest Fixtures.ring 34 = Ok out /\
    width out <= 3 /\ height out <= 3.
Proof.
  eexists. split; [reflexivity|].
  destruct (proj1 (resize_image_never_enlarges Fixtures.nearest Fixtures.ring 34
                     ltac:(cbv; discriminate) ltac:(cbv; discriminate)) _ eq_refl)
    as (_ & Hw & Hh).
  split; [exact Hw | exact Hh].
Defined.

(** *** More on the autocropper *)

Lemma in_boundsb_true img x y : in_bounds img x y -> in_boundsb img x y = true.
Proof.
  intros [Hx Hy]. unfold in_boundsb.
  repeat (apply andb_true_intro; split);
    first [apply Z.leb_le | apply Z.ltb_lt]; lia.
Qed.

(** The box found on the alpha band holds every visible pixel and has
    one on each of its four sides. *)
Lemma getbbox_alpha_touch img :
  well_formed img ->
  match getbbox (width img) (alpha_band img) with
  | None => forall x y, ~ opaque_at img x y
  | Some (l, t, r, d) =>
      encloses img (l, t, r, d) /\
      (exists y, opaque_at img l y) /\ (exists y, opaque_at img (r - 1) y) /\
      (exists x, opaque_at img x t) /\ (exists x, opaque_at img x (d - 1))
  end.
Proof.
  intros Hwf.
  pose proof (getbbox_spec (width img) (alpha_band img) (alpha_band_lengths img Hwf)) as H.
  destruct (getbbox (width img) (alpha_band img)) as [[[[l t] r] d]|].
  - destruct H as (Hin & [y0 H0] & [y2 H2] & [x1 H1] & [x3 H3]).
    apply (nonzero_alpha_band _ _ _ Hwf) in H0, H2, H1, H3.
    split; [|eauto 10].
    intros x y Hxy. apply Hin. now apply nonzero_alpha_band.
  - intros x y Hxy. apply (H x y). now apply nonzero_alpha_band.
Qed.

(** Two well-formed images of the same mode and size with the same
    pixels are equal. *)
Lemma image_ext (a b : image) :
  well_formed a -> well_formed b ->
  mode_of a = mode_of b -> width a = width b -> height a = height b ->
  (forall x y, in_bounds a x y -> getpixel a x y = getpixel b x y) ->
  a = b.
Proof.
  intros Ha Hb Hm Hw Hh Hpx.
  pose proof Ha as (Ha1 & Ha2 & Ha3 & Ha4). pose proof Hb as (Hb1 & Hb2 & Hb3 & Hb4).
  apply image_eq; try assumption; [|lia].
  intros i j.
  destruct (Z.lt_ge_cases (Z.of_nat i) (width a)) as [Hi | Hi];
    [destruct (Z.lt_ge_cases (Z.of_nat j) (height a)) as [Hj | Hj]|].
  - assert (Hin : in_bounds a (Z.of_nat i) (Z.of_nat j)) by (unfold in_bounds; lia).
    assert (Hin' : in_bounds b (Z.of_nat i) (Z.of_nat j)) by (unfold in_bounds; lia).
    pose proof (pixel_at_getpixel _ _ _ Ha Hin) as E1.
    pose proof (pixel_at_getpixel _ _ _ Hb Hin') as E2.
    rewrite !Nat2Z.id in E1, E2. rewrite E1, E2. f_equal. now apply Hpx.
  - unfold pixel_at.
    rewrite (proj2 (lookup_ge_None (rows a) j)) by lia.
    now rewrite (proj2 (lookup_ge_None (rows b) j)) by lia.
  - unfold pixel_at.
    destruct (rows a !! j) as [ra|] eqn:Era, (rows b !! j) as [rb|] eqn:Erb.
    + pose proof (well_formed_row _ _ _ Ha Era). pose proof (well_formed_row _ _ _ Hb Erb).
      rewrite (proj2 (lookup_ge_None ra i)) by lia.
      now rewrite (proj2 (lookup_ge_None rb i)) by lia.
    + apply lookup_lt_Some in Era. apply lookup_ge_None in Erb. lia.
    + apply lookup_lt_Some in Erb. apply lookup_ge_None in Era. lia.
    + reflexivity.
Qed.

(** Cropping an image to its own extent gives the image back. *)
Lemma crop_whole img :
  well_formed img -> crop img (0, 0, width img, height img) = Ok img.
Proof.
  intros Hwf. pose proof Hwf as (Hw & Hh & _).
  destruct (crop_spec img 0 0 (width img) (height img) Hw Hh)
    as (out & Hout & Hm & Hwf' & Hwo & Hho & Hpx).
  rewrite Hout. f_equal. apply image_ext; try assumption; try lia.
  intros x y [Hx Hy]. rewrite Hpx by lia. cbn [Z.add].
  rewrite in_boundsb_true; [reflexivity|]. unfold in_bounds. lia.
Qed.

(** X4: A page that is near-white everywhere comes out of the filter and the
    autocropper as a fully transparent image of 100 by 100 pixels,
    whatever its own size and whatever the margin. *)
Theorem blank_page_crops_to_100 (img : image) (margin : Z) :
  mode_of img = RGBA -> well_formed img ->
  (forall x y, in_bounds img x y -> near_white (getpixel img x y)) ->
  exists out,
    autocrop_image (background_filter img) margin = Ok out /\
    width out = 100 /\ height out = 100 /\
    forall i j, 0 <= i < 100 -> 0 <= j < 100 -> alpha (getpixel out i j) = 0.
Proof.
  intros Hmode Hwf Hwhite.
  pose proof (background_filter_well_formed img Hwf) as Hwf'.
  assert (Hclear : forall x y, in_bounds (background_filter img) x y ->
                               alpha (getpixel (background_filter img) x y) = 0).
  { intros x y Hb. rewrite background_filter_getpixel by assumption.
    now rewrite filter_pixel_near_white by now apply Hwhite. }
  unfold autocrop_image.
  rewrite (ensure_RGBA_id (background_filter img)) by exact Hmode.
  pose proof (getbbox_alpha_touch _ Hwf') as H.
  destruct (getbbox (width (background_filter img)) (alpha_band (background_filter img)))
    as [[[[l t] r] d]|].
  - destruct H as (_ & [y [Hb Ha]] & _). exfalso. apply Ha. now apply Hclear.
  - destruct (crop_spec (background_filter img) 0 0 100 100 ltac:(lia) ltac:(lia))
      as (out & Hout & _ & _ & Hw & Hh & Hpx).
    exists out. split; [exact Hout|]. split; [lia|]. split; [lia|].
    intros i j Hi Hj. rewrite Hpx by lia.
    destruct (in_boundsb (background_filter img) (0 + i) (0 + j)) eqn:Eb; [|reflexivity].
    apply Hclear. unfold in_boundsb in Eb.
    repeat (apply andb_prop in Eb; destruct Eb as [Eb ?]).
    unfold in_bounds. lia.
Qed.

Lemma blank_page_crops_to_100_witness :
  exists out,
    autocrop_image (background_filter (Image RGBA 2 1 [[Fixtures.white; Fixtures.clear]])) 20
      = Ok out /\
    width out = 100 /\ height out = 100.
Proof.
  destruct (blank_page_crops_to_100 (Image RGBA 2 1 [[Fixtures.white; Fixtures.clear]]) 20)
    as (out & Hout & Hw & Hh & _).
  - reflexivity.
  - repeat split; try (cbv; discriminate). repeat constructor.
  - intros x y [Hx Hy].
    assert (Hx' : x = 0 \/ x = 1) by (cbn [width] in Hx; lia).
    assert (Hy' : y = 0) by (cbn [height] in Hy; lia).
    subst y. destruct Hx' as [-> | ->]; cbv; auto.
  - exists out. auto.
Defined.

(** What [autocrop_image] does on an RGBA image, case by case. *)
Lemma autocrop_cases img margin :
  mode_of img = RGBA -> well_formed img -> 0 <= margin ->
  ((forall x y, ~ opaque_at img x y) /\
   autocrop_image img margin = crop img (0, 0, 100, 100)) \/
  (exists l t r d L T R D,
     encloses img (l, t, r, d) /\
     (exists y, opaque_at img l y) /\ (exists y, opaque_at img (r - 1) y) /\
     (exists x, opaque_at img x t) /\ (exists x, opaque_at img x (d - 1)) /\
     0 <= L <= l /\ l - margin <= L /\ r <= R <= width img /\ R <= r + margin /\
     0 <= T <= t /\ t - margin <= T /\ d <= D <= height img /\ D <= d + margin /\
     l < r /\ t < d /\
     (L, T, R, D) = crop_box img (l, t, r, d) margin /\
     autocrop_image img margin = crop img (L, T, R, D)).
Proof.
  intros Hmode Hwf Hm. unfold autocrop_image. rewrite (ensure_RGBA_id _ Hmode).
  pose proof (getbbox_alpha_touch img Hwf) as H.
  destruct (getbbox (width img) (alpha_band img)) as [[[[l t] r] d]|]; [right | now left].
  destruct H as (Henc & [y0 H0] & [y2 H2] & [x1 H1] & [x3 H3]).
  exists l, t, r, d, (Z.max 0 (l - margin)), (Z.max 0 (t - margin)),
    (Z.min (width img) (r + margin)), (Z.min (height img) (d + margin)).
  pose proof (Henc _ _ H0). pose proof (Henc _ _ H1).
  pose proof (proj1 H0) as [? ?]. pose proof (proj1 H2) as [? ?].
  pose proof (proj1 H1) as [? ?]. pose proof (proj1 H3) as [? ?].
  split; [exact Henc|].
  split; [eauto|]. split; [eauto|]. split; [eauto|]. split; [eauto|].
  repeat (split; [lia|]). split; reflexivity.
Qed.

(** X8: Cropping never removes a visible pixel: with a margin that is not
    negative, every pixel of non-zero alpha is found again in the result,
    and when there is one the result is not larger than the image. *)
Theorem autocrop_keeps_visible_pixels (img : image) (margin : Z) (out : image) :
  mode_of img = RGBA -> well_formed img -> 0 <= margin ->
  autocrop_image img margin = Ok out ->
  (forall x y, opaque_at img x y ->
     exists i j, in_bounds out i j /\ getpixel out i j = getpixel img x y) /\
  ((exists x y, opaque_at img x y) ->
   width out <= width img /\ height out <= height img).
Proof.
  intros Hmode Hwf Hm Hout.
  destruct (autocrop_cases img margin Hmode Hwf Hm)
    as [[Hnone _] | (l & t & r & d & L & T & R & D & Henc & _ & _ & _ & _ &
                     HL & HL' & HR & HR' & HT & HT' & HD & HD' & Hlr & Htd & _ & E)].
  - split.
    + intros x y Hxy. now apply Hnone in Hxy.
    + intros (x & y & Hxy). now apply Hnone in Hxy.
  - rewrite E in Hout.
    destruct (crop_spec img L T R D ltac:(lia) ltac:(lia))
      as (out' & Hout' & _ & _ & Hw & Hh & Hpx).
    rewrite Hout in Hout'. injection Hout' as <-.
    split; [|intros _; lia].
    intros x y Hxy. pose proof (Henc x y Hxy) as [Hx Hy].
    exists (x - L), (y - T). split; [unfold in_bounds; lia|].
    rewrite Hpx by lia.
    replace (L + (x - L)) with x by lia. replace (T + (y - T)) with y by lia.
    now rewrite (in_boundsb_true _ _ _ (proj1 Hxy)).
Qed.

Lemma autocrop_keeps_visible_pixels_witness :
  exists out i j,
    autocrop_image Fixtures.ring 0 = Ok out /\
    in_bounds out i j /\ getpixel out i j = Fixtures.black.
Proof.
  assert (Hout : autocrop_image Fixtures.ring 0 = Ok (Image RGBA 1 1 [[Fixtures.black]]))
    by reflexivity.
  destruct (proj1 (autocrop_keeps_visible_pixels Fixtures.ring 0 _ eq_refl
                     ring_well_formed ltac:(lia) Hout) 1 1) as (i & j & Hb & Hp).
  - split; [cbv; intuition discriminate | cbv; discriminate].
  - exists (Image RGBA 1 1 [[Fixtures.black]]), i, j. auto.
Defined.

(** X9: Cropping again with the same margin gives the same image. *)
Theorem autocrop_image_idempotent (img : image) (margin : Z) (out : image) :
  mode_of img = RGBA -> well_formed img -> 0 <= margin ->
  autocrop_image img margin = Ok out ->
  autocrop_image out margin = Ok out.
Proof.
  intros Hmode Hwf Hm Hout.
  destruct (autocrop_cases img margin Hmode Hwf Hm)
    as [[Hnone E] | (l & t & r & d & L & T & R & D & Henc & [y0 H0] & [y2 H2] &
                     [x1 H1] & [x3 H3] &
                     HL & HL' & HR & HR' & HT & HT' & HD & HD' & Hlr & Htd & _ & E)].
  - rewrite E in Hout.
    destruct (crop_spec img 0 0 100 100 ltac:(lia) ltac:(lia))
      as (out' & Hout' & Hmode' & Hwf' & Hw & Hh & Hpx).
    rewrite Hout in Hout'. injection Hout' as <-. rewrite Hmode in Hmode'.
    destruct (autocrop_cases out margin Hmode' Hwf' Hm)
      as [[_ E'] | (l' & t' & r' & d' & _ & _ & _ & _ & _ & [y [[Hx Hy] Ha]] & _)].
    + rewrite E'. replace 100 with (width out) at 1 by lia.
      replace 100 with (height out) by lia. now apply crop_whole.
    + exfalso. apply Ha. rewrite Hpx by lia.
      destruct (in_boundsb img (0 + l') (0 + y)) eqn:Eb; [|reflexivity].
      destruct (Z.eq_dec (alpha (getpixel img (0 + l') (0 + y))) 0) as [|Hne];
        [assumption|].
      exfalso. apply (Hnone (0 + l') (0 + y)). split; [|exact Hne].
      unfold in_boundsb in Eb.
      repeat (apply andb_prop in Eb; destruct Eb as [Eb ?]). unfold in_bounds. lia.
  - rewrite E in Hout.
    destruct (crop_spec img L T R D ltac:(lia) ltac:(lia))
      as (out' & Hout' & Hmode' & Hwf' & Hw & Hh & Hpx).
    rewrite Hout in Hout'. injection Hout' as <-. rewrite Hmode in Hmode'.
    assert (Hmove : forall x y, opaque_at img x y -> opaque_at out (x - L) (y - T)).
    { intros x y Hxy. pose proof (Henc x y Hxy) as [Hx Hy].
      split; [unfold in_bounds; lia|]. rewrite Hpx by lia.
      replace (L + (x - L)) with x by lia. replace (T + (y - T)) with y by lia.
      rewrite (in_boundsb_true _ _ _ (proj1 Hxy)). exact (proj2 Hxy). }
    apply Hmove in H0, H2, H1, H3.
    destruct (autocrop_cases out margin Hmode' Hwf' Hm)
      as [[Hnone' _] | (l' & t' & r' & d' & L' & T' & R' & D' & Henc' & [? [[? ?] _]] &
                        [? [[? ?] _]] & [? [[? ?] _]] & [? [[? ?] _]] &
                        HL2 & HL2' & HR2 & HR2' & HT2 & HT2' & HD2 & HD2' & _ & _ &
                        Hbox & E')].
    + now apply Hnone' in H0.
    + pose proof (Henc' _ _ H0). pose proof (Henc' _ _ H2).
      pose proof (Henc' _ _ H1). pose proof (Henc' _ _ H3).
      rewrite E'. unfold crop_box in Hbox. injection Hbox as -> -> -> ->.
      replace (Z.max 0 (l' - margin)) with 0 by lia.
      replace (Z.max 0 (t' - margin)) with 0 by lia.
      replace (Z.min (width out) (r' + margin)) with (width out) by lia.
      replace (Z.min (height out) (d' + margin)) with (height out) by lia.
      now apply crop_whole.
Qed.

Lemma autocrop_image_idempotent_witness :
  exists out,
    autocrop_image Fixtures.ring 1 = Ok out /\ autocrop_image out 1 = Ok out.
Proof.
  eexists. split; [reflexivity|].
  apply (autocrop_image_idempotent Fixtures.ring 1 _ eq_refl ring_well_formed);
    [lia | reflexivity].
Defined.

End ExtractorFacts.

(** ** The title locator *)

Module LocatorFacts.

Import Locator LocatorSpec.

Lemma strip_text_idempotent t : strip_text (strip_text t) = strip_text t.
Proof.
  unfold strip_text. rewrite list_ascii_of_string_of_list_ascii.
  now rewrite SanitizerFacts.strip_idempotent.
Qed.

Lemma nonempty_true t : t <> EmptyString -> nonempty t = true.
Proof. destruct t; [contradiction | reflexivity]. Qed.

Lemma first_text_skip prs pre rest :
  Forall no_text pre -> first_text prs (pre ++ rest) = first_text prs rest.
Proof.
  induction 1 as [|sh pre Hsh _ IH]; [reflexivity|].
  simpl. unfold no_text in Hsh. destruct (text sh) as [t|]; [|exact IH].
  rewrite Hsh. exact IH.
Qed.

(** X10: Without a title shape the locator takes the first shape, in shape
    order, whose text is not blank: it returns that text stripped and
    that shape's box. *)
Theorem extract_fallback_first_text (prs : presentation) (s : slide)
    (pre post : list shape) (sh : shape) (t : string) :
  title s = None ->
  shapes s = pre ++ sh :: post ->
  Forall no_text pre ->
  text sh = Some t -> strip_text t <> EmptyString ->
  extract_slide_title_and_bbox prs s
  = (Some (strip_text t), Some (relative prs (geom sh))).
Proof.
  intros Ht Hs Hpre Hsh Hne. unfold extract_slide_title_and_bbox.
  rewrite Ht, Hs, (first_text_skip prs pre _ Hpre). simpl.
  now rewrite Hsh, (nonempty_true _ Hne).
Qed.

Lemma extract_fallback_first_text_witness :
  extract_slide_title_and_bbox Fixtures.deck
    (Slide None [Shape None Fixtures.page; Shape (Some "  ") Fixtures.page;
                 Shape (Some " Plan ") Fixtures.title_box; Shape (Some "x") Fixtures.page])
  = (Some "Plan"%string, Some (relative Fixtures.deck Fixtures.title_box)).
Proof.
  apply (extract_fallback_first_text Fixtures.deck _
           [Shape None Fixtures.page; Shape (Some "  ") Fixtures.page]
           [Shape (Some "x") Fixtures.page]
           (Shape (Some " Plan ") Fixtures.title_box) " Plan ").
  - reflexivity.
  - reflexivity.
  - repeat constructor.
  - reflexivity.
  - discriminate.
Defined.

Lemma first_text_shape prs l :
  match first_text prs l with
  | (Some t, Some b) =>
      t <> EmptyString /\ strip_text t = t /\
      exists sh t0, In sh l /\ text sh = Some t0 /\ t = strip_text t0 /\
                    b = relative prs (geom sh)
  | (None, None) => Forall no_text l
  | _ => False
  end.
Proof.
  induction l as [|sh l IH]; simpl; [constructor|].
  destruct (text sh) as [t0|] eqn:Et.
  - destruct (nonempty (strip_text t0)) eqn:En.
    + split; [intros E; rewrite E in En; discriminate En|].
      split; [apply strip_text_idempotent|].
      exists sh, t0. auto.
    + destruct (first_text prs l) as [[t|] [b|]]; try exact IH.
      * destruct IH as (H1 & H2 & sh' & t1 & Hin & H3).
        split; [assumption|]. split; [assumption|]. exists sh', t1. tauto.
      * constructor; [|exact IH]. unfold no_text. rewrite Et.
        destruct (strip_text t0); [reflexivity | discriminate En].
  - destruct (first_text prs l) as [[t|] [b|]]; try exact IH.
    + destruct IH as (H1 & H2 & sh' & t1 & Hin & H3).
      split; [assumption|]. split; [assumption|]. exists sh', t1. tauto.
    + constructor; [|exact IH]. unfold no_text. now rewrite Et.
Qed.

(** X11: The locator returns a title and a box together or neither; and a
    title found without a title shape is never empty and carries no
    whitespace at either end. *)
Theorem extract_title_and_bbox_together (prs : presentation) (s : slide) :
  (fst (extract_slide_title_and_bbox prs s) = None <->
   snd (extract_slide_title_and_bbox prs s) = None) /\
  (title s = None ->
   forall t, fst (extract_slide_title_and_bbox prs s) = Some t ->
     t <> EmptyString /\ strip_text t = t) /\
  (extract_slide_title_and_bbox prs s = (None, None) ->
   title s = None /\ Forall no_text (shapes s)).
Proof.
  unfold extract_slide_title_and_bbox.
  destruct (title s) as [ts|].
  - split; [split; discriminate|]. split; discriminate.
  - pose proof (first_text_shape prs (shapes s)) as H.
    destruct (first_text prs (shapes s)) as [[t|] [b|]]; try contradiction.
    + split; [split; discriminate|]. split; [|discriminate].
      intros _ t' E. injection E as <-. tauto.
    + split; [split; reflexivity|]. split; [intros _ t' E; discriminate E|].
      intros _. auto.
Qed.

Lemma extract_title_and_bbox_together_witness :
  title Fixtures.untitled = None /\
  extract_slide_title_and_bbox Fixtures.deck Fixtures.untitled = (None, None) /\
  Forall no_text (shapes Fixtures.untitled).
Proof.
  split; [reflexivity|]. split; [reflexivity|].
  apply (proj2 (proj2 (extract_title_and_bbox_together Fixtures.deck Fixtures.untitled))).
  reflexivity.
Defined.

End LocatorFacts.

(** ** Naming and the per-slide pipeline *)

Module DriverFacts.

Import Raster RasterSpec RasterFacts Extractor ExtractorSpec ExtractorFacts Driver DriverSpec.

Local Opaque Sanitizer.sanitize_filename.

Lemma output_names_positional titles : forall idx name_counts i title,
  titles !! i = Some title -> truthy title = false ->
  output_names titles idx name_counts !! i = Some (positional (idx + Z.of_nat i)).
Proof.
  induction titles as [|t titles IH]; intros idx name_counts i title Hi Ht; [discriminate Hi|].
  cbn [output_names].
  destruct (output_name idx t name_counts) as [name name_counts'] eqn:E.
  destruct i as [|i]; simpl in Hi.
  - injection Hi as ->. unfold output_name in E. rewrite Ht in E.
    injection E as <- _. simpl. unfold positional. now rewrite Z.add_0_r.
  - simpl. rewrite (IH _ _ _ _ Hi Ht). do 2 f_equal. lia.
Qed.

Lemma output_name_step idx title name_counts name name_counts' :
  registry_ok name_counts ->
  output_name idx title name_counts = (name, name_counts') ->
  registry_ok name_counts' /\
  (forall s, counts_from name_counts' s =
             counts_from name_counts s + occurrences s [title]) /\
  (truthy title = true ->
   name = numbered (Sanitizer.sanitize_filename (default EmptyString title))
            (counts_from name_counts
               (Sanitizer.sanitize_filename (default EmptyString title)))).
Proof.
  intros Hok E. unfold output_name in E. cbn [occurrences].
  destruct (truthy title) eqn:Ht; cycle 1.
  { injection E as <- <-. split; [assumption|]. split; [intros s; simpl; lia | discriminate]. }
  set (safe := Sanitizer.sanitize_filename (default EmptyString title)) in *.
  unfold counts_from.
  destruct (name_counts !! safe) as [n|] eqn:En; injection E as <- <-.
  - pose proof (Hok _ _ En) as Hn. split; [|split].
    + intros s m Hs. destruct (decide (safe = s)) as [<- | Hne].
      * rewrite lookup_insert_eq in Hs. injection Hs as <-. lia.
      * rewrite lookup_insert_ne in Hs by assumption. eauto.
    + intros s. simpl. destruct (String.eqb_spec safe s) as [<- | Hne].
      * rewrite lookup_insert_eq, En. simpl. lia.
      * rewrite lookup_insert_ne by assumption. lia.
    + intros _. unfold numbered. simpl.
      destruct (Z.eqb_spec n 0); [lia | reflexivity].
  - split; [|split].
    + intros s m Hs. destruct (decide (safe = s)) as [<- | Hne].
      * rewrite lookup_insert_eq in Hs. injection Hs as <-. lia.
      * rewrite lookup_insert_ne in Hs by assumption. eauto.
    + intros s. simpl. destruct (String.eqb_spec safe s) as [<- | Hne].
      * rewrite lookup_insert_eq, En. simpl. lia.
      * rewrite lookup_insert_ne by assumption. lia.
    + intros _. reflexivity.
Qed.

Lemma occurrences_app name l1 l2 :
  occurrences name (l1 ++ l2) = occurrences name l1 + occurrences name l2.
Proof.
  induction l1 as [|t l1 IH]; simpl; [reflexivity|]. rewrite IH. lia.
Qed.

Lemma output_names_numbered titles : forall idx name_counts i title,
  registry_ok name_counts ->
  titles !! i = Some title -> truthy title = true ->
  output_names titles idx name_counts !! i =
    Some (numbered (Sanitizer.sanitize_filename (default EmptyString title))
            (counts_from name_counts
               (Sanitizer.sanitize_filename (default EmptyString title))
             + occurrences (Sanitizer.sanitize_filename (default EmptyString title))
                 (take i titles))).
Proof.
  induction titles as [|t titles IH]; intros idx name_counts i title Hok Hi Ht;
    [discriminate Hi|].
  cbn [output_names].
  destruct (output_name idx t name_counts) as [name name_counts'] eqn:E.
  destruct (output_name_step _ _ _ _ _ Hok E) as (Hok' & Hcount & Hname).
  destruct i as [|i]; simpl in Hi.
  - injection Hi as ->. simpl. rewrite Z.add_0_r. f_equal. now apply Hname.
  - cbn [lookup list_lookup take]. rewrite (IH _ _ _ _ Hok' Hi Ht).
    rewrite Hcount. change (t :: take i titles) with ([t] ++ take i titles).
    rewrite occurrences_app. do 2 f_equal. lia.
Qed.


Lemma registry_ok_empty : registry_ok ∅.
Proof. intros name n H. rewrite lookup_empty in H. discriminate H. Qed.

(** *** Modes *)

Lemma crop_mode img b out : crop img b = Ok out -> mode_of out = mode_of img.
Proof.
  destruct b as [[[l t] r] d]. unfold crop.
  destruct (r <? l); [discriminate|]. destruct (d <? t); [discriminate|].
  intros E. injection E as <-. reflexivity.
Qed.

Lemma draw_rectangle_mode img b ink out :
  draw_rectangle img b ink = Ok out -> mode_of out = mode_of img.
Proof.
  destruct b as [[[x0 y0] x1] y1]. unfold draw_rectangle.
  destruct (x1 <? x0); [discriminate|]. destruct (y1 <? y0); [discriminate|].
  intros E. injection E as <-. reflexivity.
Qed.

Lemma remove_title_mode img bbox margin out :
  mode_of img = RGBA ->
  remove_title_from_image img bbox margin = Ok out -> mode_of out = RGBA.
Proof.
  intros Hm. unfold remove_title_from_image. destruct bbox as [bb|].
  - intros E. apply draw_rectangle_mode in E. rewrite E. apply ensure_RGBA_size.
  - intros E. injection E as <-. exact Hm.
Qed.

Lemma autocrop_mode img margin out :
  autocrop_image img margin = Ok out -> mode_of out = RGBA.
Proof.
  unfold autocrop_image.
  destruct (getbbox _ _); intros E; apply crop_mode in E; rewrite E; apply ensure_RGBA_size.
Qed.

Lemma resize_image_mode resample img scale out :
  resize_image resample img scale = Ok out -> mode_of out = mode_of img.
Proof.
  unfold resize_image, resize. destruct (100 <=? scale).
  - intros E. now injection E as <-.
  - destruct (_ && _).
    + intros E. now injection E as <-.
    + destruct (_ || _); [discriminate|]. intros E. now injection E as <-.
Qed.

Lemma crop_and_resize_mode resample o img out :
  mode_of img = RGBA -> crop_and_resize resample o img = Ok out -> mode_of out = RGBA.
Proof.
  intros Hm. unfold crop_and_resize.
  destruct (autocrop o).
  - destruct (autocrop_image img (crop_margin o)) as [img1|] eqn:E1; [|discriminate].
    apply autocrop_mode in E1. simpl.
    destruct (scale_percent o <? 100).
    + destruct (resize_image resample img1 (scale_percent o)) as [img2|] eqn:E2; [|discriminate].
      apply resize_image_mode in E2. simpl. intros E. injection E as <-. congruence.
    + simpl. intros E. injection E as <-. exact E1.
  - simpl. destruct (scale_percent o <? 100).
    + destruct (resize_image resample img (scale_percent o)) as [img2|] eqn:E2; [|discriminate].
      apply resize_image_mode in E2. simpl. intros E. injection E as <-. congruence.
    + simpl. intros E. injection E as <-. exact Hm.
Qed.

Lemma process_image_unfold resample o bbox img :
  process_image resample o bbox img =
    (try! erased := (if remove_title o && has_bbox bbox
                     then remove_title_from_image
                            (background_filter (ensure_RGBA img)) bbox 15
                     else Ok (background_filter (ensure_RGBA img))) in
     crop_and_resize resample o erased).
Proof. reflexivity. Qed.

Lemma process_image_mode resample o bbox img out :
  process_image resample o bbox img = Ok out -> mode_of out = RGBA.
Proof.
  rewrite process_image_unfold.
  assert (Hm : mode_of (background_filter (ensure_RGBA img)) = RGBA)
    by apply ensure_RGBA_size.
  destruct (remove_title o && has_bbox bbox).
  - destruct (remove_title_from_image _ bbox 15) as [erased|] eqn:E; [|discriminate].
    apply (remove_title_mode _ _ _ _ Hm) in E. simpl.
    now apply crop_and_resize_mode.
  - simpl. now apply crop_and_resize_mode.
Qed.


(** *** Running the actions *)

Lemma outcome_weaken {A} (m : action A) printed
    (Q Q' : written -> list message -> result A -> Prop) :
  outcome m printed Q ->
  (forall out msgs r, Q out msgs r -> Q' out msgs r) ->
  outcome m printed Q'.
Proof. unfold outcome. auto. Qed.

Lemma outcome_bind {A B} (m : action A) (k : A -> action B) printed
    (Q : written -> list message -> result B -> Prop) :
  outcome m printed (fun out msgs r =>
    match r with
    | Raise e => Q out msgs (Raise e)
    | Ok a =>
        outcome (k a) (printed ++ msgs)
          (fun out' msgs' r' => Q (out ++ out') (msgs ++ msgs') r')
    end) ->
  outcome (bind_action m k) printed Q.
Proof.
  unfold outcome, bind_action.
  destruct (m printed) as [out [msgs [a | e]]]; cbn [fst snd]; [|auto].
  destruct (k a (printed ++ msgs)) as [out' [msgs' r']]. auto.
Qed.

Lemma outcome_catch {A} (m : action A) (handler : exn -> action A) printed
    (Q : written -> list message -> result A -> Prop) :
  outcome m printed (fun out msgs r =>
    match r with
    | Ok a => Q out msgs (Ok a)
    | Raise e =>
        outcome (handler e) (printed ++ msgs)
          (fun out' msgs' r' => Q (out ++ out') (msgs ++ msgs') r')
    end) ->
  outcome (catch m handler) printed Q.
Proof.
  unfold outcome, catch.
  destruct (m printed) as [out [msgs [a | e]]]; cbn [fst snd]; [auto|].
  destruct (handler e (printed ++ msgs)) as [out' [msgs' r']]. auto.
Qed.

Lemma outcome_finally {A} (m : action A) (cleanup : result unit) printed
    (Q : written -> list message -> result A -> Prop) :
  outcome m printed (fun out msgs r =>
    match cleanup with
    | Ok _ => Q out msgs r
    | Raise e => Q out msgs (Raise e)
    end) ->
  outcome (finally m cleanup) printed Q.
Proof.
  unfold outcome, finally.
  destruct (m printed) as [out [msgs r]]; cbn [fst snd].
  destruct cleanup; auto.
Qed.

Lemma outcome_ret {A} (a : A) printed (Q : written -> list message -> result A -> Prop) :
  Q [] [] (Ok a) -> outcome (ret a) printed Q.
Proof. auto. Qed.

Lemma outcome_lift {A} (r : result A) printed
    (Q : written -> list message -> result A -> Prop) :
  Q [] [] r -> outcome (lift r) printed Q.
Proof. auto. Qed.

Lemma outcome_print E m printed (Q : written -> list message -> result unit -> Prop) :
  match stdout E printed m with
  | Ok _ => Q [] [m] (Ok tt)
  | Raise e => Q [] [] (Raise e)
  end ->
  outcome (print E m) printed Q.
Proof. unfold outcome, print. destruct (stdout E printed m); auto. Qed.

Lemma outcome_save E name img printed
    (Q : written -> list message -> result unit -> Prop) :
  match save_image E printed name img with
  | Ok _ => Q [(name, img)] [] (Ok tt)
  | Raise e => Q [] [] (Raise e)
  end ->
  outcome (save E name img) printed Q.
Proof. unfold outcome, save. destruct (save_image E printed name img); auto. Qed.

Lemma outcome_get_file_size_mb E name printed
    (Q : written -> list message -> result unit -> Prop) :
  Q [] [] (getsize E printed name) ->
  outcome (get_file_size_mb E name) printed Q.
Proof. auto. Qed.

Lemma outcome_file_existed E name printed
    (Q : written -> list message -> result bool -> Prop) :
  Q [] [] (Ok (output_exists E printed name)) ->
  outcome (file_existed E name) printed Q.
Proof. auto. Qed.

(** The rule of the action at the head of a run, up to the next call
    whose answer decides how the run goes on. *)
Ltac run_rule :=
  lazymatch goal with
  | |- outcome (bind_action _ _) _ _ => apply outcome_bind
  | |- outcome (catch _ _) _ _ => apply outcome_catch
  | |- outcome (finally _ _) _ _ => apply outcome_finally
  | |- outcome (print _ _) _ _ => apply outcome_print
  | |- outcome (lift _) _ _ => apply outcome_lift
  | |- outcome (ret _) _ _ => apply outcome_ret
  | |- outcome (save _ _ _) _ _ => apply outcome_save
  | |- outcome (file_existed _ _) _ _ => apply outcome_file_existed
  | |- outcome (get_file_size_mb _ _) _ _ => apply outcome_get_file_size_mb
  end; cbn [negb].

Ltac run_case :=
  lazymatch goal with
  | |- outcome (if ?c then _ else _) _ _ => destruct c eqn:?
  | |- outcome (match ?x with _ => _ end) _ _ => destruct x eqn:?
  | |- match ?x with _ => _ end => destruct x eqn:?
  end; cbn [negb].

Ltac run_to_call := repeat run_rule.

Ltac run := repeat first [run_rule | run_case].

Lemma written_not_completed names : ~ completed (map MsgWritten names).
Proof.
  unfold completed. intros H. apply in_map_iff in H.
  destruct H as (n & Hn & _). discriminate Hn.
Qed.

Lemma output_names_length titles : forall idx name_counts,
  length (output_names titles idx name_counts) = length titles.
Proof.
  induction titles as [|t titles IH]; intros idx name_counts; [reflexivity|].
  cbn [output_names]. destruct (output_name idx t name_counts). simpl. now rewrite IH.
Qed.

Lemma titles_of_length pages : length (titles_of pages) = length pages.
Proof. unfold titles_of. apply length_map. Qed.

(** *** The loop *)

Ltac loop_leaf lines files :=
  unfold loop_outcome; exists lines; exists files;
  cbn [app fst snd take map length];
  split; [reflexivity|]; split; [lia|]; split; [reflexivity|]; split; [lia|];
  split; [reflexivity|]; split.

Lemma process_slides_spec resample E o pages :
  forall idx name_counts created overwritten printed,
  outcome (process_slides resample E o pages idx name_counts created overwritten)
    printed
    (loop_outcome resample E o pages (output_names (titles_of pages) idx name_counts)).
Proof.
  induction pages as [|[png_file [title bbox]] pages IH];
    intros idx name_counts created overwritten printed.
  - cbn [process_slides]. run_to_call.
    loop_leaf 0%nat 0%nat; [|split; reflexivity].
    intros i name img H. discriminate H.
  - cbn [process_slides titles_of map output_names fst snd].
    fold (titles_of pages).
    destruct (output_name idx title name_counts) as [name name_counts'] eqn:En.
    run_to_call.
    destruct (open_image E png_file) as [img0 | e] eqn:Eo; cbn beta iota.
    2: { loop_leaf 0%nat 0%nat; [intros i n' i' H; discriminate H|].
         exists png_file, title, bbox, name. auto 10. }
    run_to_call.
    destruct (process_image resample o bbox img0) as [img | e] eqn:Ep; cbn beta iota.
    2: { loop_leaf 0%nat 0%nat; [intros i n' i' H; discriminate H|].
         exists png_file, title, bbox, name. eauto 10. }
    run_to_call.
    match goal with
    | |- match save_image ?E ?p ?n ?i with _ => _ end =>
        destruct (save_image E p n i) as [[] | e] eqn:Es; cbn beta iota
    end.
    2: { loop_leaf 0%nat 0%nat; [intros i n' i' H; discriminate H|].
         exists png_file, title, bbox, name. eauto 14. }
    run_to_call.
    match goal with
    | |- match getsize ?E ?p ?n with _ => _ end =>
        destruct (getsize E p n) as [[] | e] eqn:Eg; cbn beta iota
    end.
    2: { loop_leaf 0%nat 1%nat.
         - intros [|i] name' img' H; [|discriminate H].
           injection H as <- <-. eauto 10.
         - exists png_file, title, bbox, name. eauto 10. }
    run_to_call.
    match goal with
    | |- match stdout ?E ?p ?m with _ => _ end =>
        destruct (stdout E p m) as [[] | e] eqn:Epr; cbn beta iota
    end.
    2: { loop_leaf 0%nat 1%nat.
         - intros [|i] name' img' H; [|discriminate H].
           injection H as <- <-. eauto 10.
         - exists png_file, title, bbox, name. eauto 10. }
    eapply outcome_weaken; [apply IH|].
    intros out' msgs' r' (k & n & Hmsgs & Hk & Hnames & Hn & Hlen & Himg & Hend).
    exists (S k), (S n). cbn [app fst snd take map length lookup list_lookup].
    split; [now rewrite Hmsgs|]. split; [lia|].
    split; [now rewrite Hnames|]. split; [lia|]. split; [now rewrite Hlen|].
    split.
    + intros [|i] name' img' H.
      * injection H as <- <-. eauto 10.
      * exact (Himg i name' img' H).
    + destruct r' as [c' | e]; [lia|].
      destruct Hend as (p & t & b & nm & Hp & Hnm & [[-> H] | [-> H]]);
        exists p, t, b, nm; auto.
Qed.

(** *** The LibreOffice method *)

Lemma png_files_listing E listing :
  listdir_tmpdir E = Ok listing -> png_files E = sorted_pngs listing.
Proof. intros H. unfold png_files. now rewrite H. Qed.

Lemma loop_not_completed resample E o pages names out msgs r prefix :
  loop_outcome resample E o pages names out msgs r ->
  ~ completed prefix -> ~ completed (prefix ++ msgs).
Proof.
  intros (k & n & -> & _) Hp Hc. unfold completed in *.
  apply in_app_or in Hc. destruct Hc as [Hc | Hc]; [auto|].
  now apply written_not_completed in Hc.
Qed.

Ltac no_statistics :=
  let H := fresh in
  intros H; unfold completed in H; cbn [app In] in H;
  repeat (destruct H as [H | H]; [discriminate H|]); try contradiction.

Ltac has_statistics :=
  unfold completed; cbn [app];
  repeat (progress (rewrite ?in_app_iff; cbn [In])); auto 10.

Ltac run_method :=
  repeat first [ run_rule | run_case
               | progress unfold convert_to_pdf, convert_to_png, print_statistics ].

Ltac conversion_facts :=
  repeat match goal with
         | u : unit |- _ => destruct u
         | H : negb _ = false |- _ => apply negb_false_iff in H
         | H : negb _ = true |- _ => apply negb_true_iff in H
         end.

Lemma use_libreoffice_method_spec resample E slides_info o printed :
  outcome (use_libreoffice_method resample E slides_info o) printed
    (RunSpec.method_outcome resample E slides_info o).
Proof.
  unfold use_libreoffice_method. run_method.
  all: conversion_facts.
  all: try (left; cbn [app]; split; [reflexivity|]; split; [no_statistics|];
            intros u Hu; first [discriminate Hu | reflexivity]).
  all: eapply outcome_weaken; [apply process_slides_spec|].
  all: intros out msgs r Hloop; cbn beta.
  all: match goal with
       | Hl : listdir_tmpdir ?E' = Ok ?listing, Hs : sorted_pngs ?listing = ?pngs |- _ =>
           assert (Hpng : png_files E' = pngs)
             by (rewrite (png_files_listing E' listing Hl); exact Hs);
           rewrite <- Hpng in *
       end.
  all: assert (Hconv : conversion_ok E)
         by (unfold conversion_ok; rewrite Hpng; repeat split; auto; discriminate).
  all: destruct r as [counts | loop_e]; run_method; conversion_facts.
  all: right; split; [exact Hconv|]; cbn [app]; rewrite ?app_nil_r.
  all: eexists; eexists; split; [exact Hloop|].
  all: split; [try (intros _; eexists; reflexivity) | ].
  all: try (intros u Hu; first [discriminate Hu | has_statistics]).
  all: intros Hc; exfalso; revert Hc.
  all: apply (loop_not_completed _ _ _ _ _ _ _ _ [MsgInfo; MsgInfo; MsgInfo] Hloop).
  all: no_statistics.
Qed.

(** *** The whole conversion *)

Lemma infos_not_completed msgs : Forall (eq MsgInfo) msgs -> ~ completed msgs.
Proof.
  unfold completed. intros H Hc. rewrite List.Forall_forall in H.
  specialize (H _ Hc). discriminate H.
Qed.

(** A leaf of a part that only prints: the lines are progress lines, a
    failure is the failure of a line in the context, and a standard
    output that works contradicts a failed line. *)
Ltac only_prints_leaf :=
  split; [reflexivity|]; split; [cbn [app]; repeat constructor|];
  split;
  [ intros Hworks;
    first [ eexists; reflexivity
          | exfalso;
            match goal with
            | H : stdout _ ?p ?m = Raise _ |- _ => rewrite (Hworks p m) in H; discriminate H
            end ]
  | intros ? Hr; first [discriminate Hr | injection Hr as <-; eauto] ].

Lemma announce_settings_spec E o printed :
  outcome (announce_settings E o) printed (RunSpec.only_prints E).
Proof. unfold announce_settings. run; only_prints_leaf. Qed.

Lemma announce_output_spec E existing_files printed :
  outcome (announce_output E existing_files) printed (RunSpec.only_prints E).
Proof. unfold announce_output. run; only_prints_leaf. Qed.

Lemma collect_slides_info_spec E prs slides : forall printed,
  outcome (collect_slides_info E prs slides) printed
    (fun out msgs r =>
       RunSpec.only_prints E out msgs r /\
       forall infos, r = Ok infos ->
         infos = map (Locator.extract_slide_title_and_bbox prs) slides).
Proof.
  induction slides as [|slide slides IH]; intros printed; cbn [collect_slides_info].
  - run. split; [only_prints_leaf|]. intros infos H. now injection H as <-.
  - run_to_call. run_case; [|split; [only_prints_leaf | discriminate]].
    run_to_call. eapply outcome_weaken; [apply IH|].
    intros out msgs r ((-> & Hmsgs & Hok & Hfail) & Hr). destruct r as [infos | e].
    + run. split.
      * split; [reflexivity|]. split.
        { cbn [app]. constructor; [reflexivity|]. now rewrite app_nil_r. }
        split; [intros _; eexists; reflexivity | discriminate].
      * intros infos' H. injection H as <-. cbn [map]. f_equal. now apply Hr.
    + split; [|discriminate]. split; [reflexivity|]. split.
      * cbn [app]. constructor; [reflexivity | exact Hmsgs].
      * split; [|exact Hfail]. intros Hw. destruct (Hok Hw) as [v Hv]. discriminate Hv.
Qed.

(** The lines of [completed] are found part by part. *)
Ltac statistics_parts :=
  unfold completed; cbn [app];
  repeat (progress (rewrite ?in_app_iff; cbn [In]));
  repeat match goal with
         | H : Forall (eq MsgInfo) ?l |- _ =>
             apply infos_not_completed in H; unfold completed in H
         end;
  intuition (try discriminate).

Ltac run_conversion :=
  repeat first
    [ run_rule | run_case
    | progress unfold convert_presentation, report_error
    | eapply outcome_weaken; [apply announce_settings_spec|];
      intros ? ? ? (-> & ? & ? & ?); cbn beta
    | eapply outcome_weaken; [apply announce_output_spec|];
      intros ? ? ? (-> & ? & ? & ?); cbn beta
    | eapply outcome_weaken; [apply collect_slides_info_spec|];
      intros ? ? ? ((-> & ? & ? & ?) & ?); cbn beta
    | eapply outcome_weaken; [apply use_libreoffice_method_spec|];
      intros ? ? ? ?; cbn beta ].

Ltac known_slides :=
  repeat match goal with
         | H : forall infos, Ok ?a = Ok infos -> infos = _ |- _ =>
             specialize (H a eq_refl); subst a
         end.

Lemma pptx_to_png_transparent_spec resample E pptx_path output_dir o printed :
  outcome (pptx_to_png_transparent resample E pptx_path output_dir o) printed
    (RunSpec.run_outcome resample E pptx_path o).
Proof.
  unfold pptx_to_png_transparent. run_conversion.
  all: known_slides.
  all: try (left; split; [cbn [app]; rewrite ?app_nil_r; reflexivity | statistics_parts]; fail).
  all: right; eexists; split; [eassumption|]; eexists; eexists.
  all: cbn [app]; rewrite ?app_nil_r.
  all: split; [eassumption | statistics_parts].
Qed.

(** *** The files of a run *)

Lemma titles_of_zip (pngs : list string) : forall infos : list slide_info,
  titles_of (zip pngs infos) = take (length pngs) (map fst infos).
Proof.
  induction pngs as [|p pngs IH]; intros [|info infos]; try reflexivity.
  cbn. f_equal. apply IH.
Qed.

Lemma output_names_take titles : forall n idx name_counts,
  output_names (take n titles) idx name_counts
  = take n (output_names titles idx name_counts).
Proof.
  induction titles as [|t titles IH]; intros [|n] idx name_counts; try reflexivity.
  cbn [take output_names]. destruct (output_name idx t name_counts).
  cbn [take]. f_equal. apply IH.
Qed.

Lemma deck_titles_infos prs :
  map fst (map (Locator.extract_slide_title_and_bbox prs) (Locator.slides prs))
  = deck_titles prs.
Proof. unfold deck_titles. now rewrite map_map. Qed.

(** The files of the loop are RGBA, and there are no more of them than
    pages. *)
Lemma loop_files resample E o pages names out msgs r :
  loop_outcome resample E o pages names out msgs r ->
  Forall is_RGBA out /\ (length out <= length pages)%nat.
Proof.
  intros (k & n & _ & _ & _ & Hn & Hlen & Himg & _). split; [|lia].
  apply Forall_lookup. intros i [name img] Hi.
  destruct (Himg i name img Hi) as (p & t & b & img0 & _ & _ & Hp).
  exact (process_image_mode _ _ _ _ _ Hp).
Qed.

Lemma method_files resample E slides_info o out msgs r :
  RunSpec.method_outcome resample E slides_info o out msgs r ->
  Forall is_RGBA out /\
  (length out <= Nat.min (length (png_files E)) (length slides_info))%nat /\
  (out <> [] -> conversion_ok E /\ slides_info <> []).
Proof.
  intros [(-> & _) | (Hconv & lmsgs & lr & Hloop & _)].
  - split; [constructor|]. split; [cbn; lia | congruence].
  - destruct (loop_files _ _ _ _ _ _ _ _ Hloop) as [Hrgba Hlen].
    rewrite length_zip in Hlen. split; [exact Hrgba|]. split; [exact Hlen|].
    intros Hne. split; [exact Hconv|]. intros ->.
    destruct out; [congruence|]. cbn in Hlen. lia.
Qed.

Lemma run_files resample E pptx_path o out msgs r :
  RunSpec.run_outcome resample E pptx_path o out msgs r ->
  Forall is_RGBA out /\
  forall prs, load_presentation E pptx_path = Ok prs ->
    (length out <= Nat.min (length (png_files E)) (length (Locator.slides prs)))%nat.
Proof.
  intros [(-> & _) | (prs & Hload & mmsgs & mr & Hm & _)].
  - split; [constructor|]. intros prs _. cbn. lia.
  - destruct (method_files _ _ _ _ _ _ _ Hm) as (Hrgba & Hlen & _).
    split; [exact Hrgba|]. intros prs' Hload'. rewrite Hload in Hload'.
    injection Hload' as <-. now rewrite length_map in Hlen.
Qed.

(** File [i] of a run on the deck [prs] bears the name the loop gives to
    slide [i] and is made from page [i] with the box of slide [i]. *)
Lemma run_file resample E pptx_path o out msgs r prs i name img :
  RunSpec.run_outcome resample E pptx_path o out msgs r ->
  load_presentation E pptx_path = Ok prs ->
  out !! i = Some (name, img) ->
  exists s,
    Locator.slides prs !! i = Some s /\
    output_names (deck_titles prs) 1 ∅ !! i = Some name /\
    from_page resample E o (snd (Locator.extract_slide_title_and_bbox prs s)) i img.
Proof.
  intros [(-> & _) | (prs' & Hload' & mmsgs & mr & Hm & _)] Hload Hi;
    [discriminate Hi|].
  rewrite Hload in Hload'. injection Hload' as <-.
  destruct Hm as [(-> & _) | (_ & lmsgs & lr & Hloop & _)]; [discriminate Hi|].
  destruct Hloop as (k & n & _ & _ & Hnames & _ & _ & Himg & _).
  destruct (Himg i name img Hi) as (png_file & title & bbox & img0 & Hp & Ho & Hpi).
  apply lookup_zip_with_Some in Hp.
  destruct Hp as (png_file' & info & Heq & Hpng & Hinfo).
  injection Heq as <- <-.
  apply list_lookup_fmap_Some in Hinfo. destruct Hinfo as (s & Hs & Hinfo).
  exists s. split; [exact Hinfo|]. split.
  - assert (Hn : map fst out !! i = Some name).
    { exact (lookup_map_Some fst out i (name, img) Hi). }
    rewrite Hnames in Hn. apply lookup_take_Some in Hn. destruct Hn as [Hn _].
    rewrite titles_of_zip, deck_titles_infos, output_names_take in Hn.
    apply lookup_take_Some in Hn. tauto.
  - rewrite <- Hs. cbn [snd]. exists png_file, img0. auto.
Qed.

(** A run that reached its statistics has saved a file for every page
    that has a slide. *)
Lemma run_completed resample E pptx_path o out msgs r prs :
  RunSpec.run_outcome resample E pptx_path o out msgs r ->
  load_presentation E pptx_path = Ok prs ->
  completed msgs ->
  length out = Nat.min (length (png_files E)) (length (Locator.slides prs)).
Proof.
  intros [(_ & Hno) | (prs' & Hload' & mmsgs & mr & Hm & Hc)] Hload Hdone;
    [contradiction|].
  rewrite Hload in Hload'. injection Hload' as <-.
  destruct Hm as [(_ & Hno & _) | (_ & lmsgs & lr & Hloop & Hok & _)];
    [now apply Hc in Hdone|].
  destruct (Hok (Hc Hdone)) as [counts ->].
  destruct Hloop as (k & n & _ & _ & _ & _ & Hlen & _ & _ & Hn).
  rewrite Hlen, Hn, length_zip, length_map. reflexivity.
Qed.

Lemma method_run resample E slides_info o printed :
  RunSpec.method_outcome resample E slides_info o
    (fst (use_libreoffice_method resample E slides_info o printed))
    (fst (snd (use_libreoffice_method resample E slides_info o printed)))
    (snd (snd (use_libreoffice_method resample E slides_info o printed))).
Proof. exact (use_libreoffice_method_spec resample E slides_info o printed). Qed.

Lemma conversion_run resample E pptx_path output_dir o printed :
  RunSpec.run_outcome resample E pptx_path o
    (fst (pptx_to_png_transparent resample E pptx_path output_dir o printed))
    (fst (snd (pptx_to_png_transparent resample E pptx_path output_dir o printed)))
    (snd (snd (pptx_to_png_transparent resample E pptx_path output_dir o printed))).
Proof. exact (pptx_to_png_transparent_spec resample E pptx_path output_dir o printed). Qed.
Lemma first_text_none prs l :
  Forall (fun sh => Locator.text sh = None \/
                    exists t, Locator.text sh = Some t /\
                              Locator.strip_text t = EmptyString) l ->
  Locator.first_text prs l = (None, None).
Proof.
  induction 1 as [|sh l [Hn | (t & Ht & Hs)] _ IH]; simpl; [reflexivity| |].
  - now rewrite Hn.
  - now rewrite Ht, Hs.
Qed.


(** *** The claims on naming *)

Lemma numbered_name titles i t :
  titles !! i = Some (Some t) -> t <> EmptyString ->
  output_names titles 1 ∅ !! i =
    Some (numbered (Sanitizer.sanitize_filename t)
            (occurrences (Sanitizer.sanitize_filename t) (take i titles))).
Proof.
  intros Hi Ht.
  rewrite (output_names_numbered titles 1 ∅ i (Some t) registry_ok_empty Hi).
  - unfold counts_from. rewrite lookup_empty. reflexivity.
  - destruct t; [contradiction | reflexivity].
Qed.

Lemma positional_name titles i title :
  titles !! i = Some title -> truthy title = false ->
  output_names titles 1 ∅ !! i = Some ("Slide_" +:+ pretty (Z.of_nat i + 1) +:+ ".png").
Proof.
  intros Hi Ht. rewrite (output_names_positional titles 1 ∅ i title Hi Ht).
  unfold positional. now replace (1 + Z.of_nat i) with (Z.of_nat i + 1) by lia.
Qed.

Lemma deck_titles_lookup prs i s :
  Locator.slides prs !! i = Some s ->
  deck_titles prs !! i = Some (fst (Locator.extract_slide_title_and_bbox prs s)).
Proof.
  intros H. unfold deck_titles.
  exact (lookup_map_Some
           (fun s => fst (Locator.extract_slide_title_and_bbox prs s)) _ i s H).
Qed.

(** A run that reached its statistics has saved the file of slide [i]
    when there is a page for it. *)
Lemma run_file_exists resample E pptx_path o out msgs r prs i title :
  RunSpec.run_outcome resample E pptx_path o out msgs r ->
  load_presentation E pptx_path = Ok prs ->
  deck_titles prs !! i = Some title ->
  completed msgs -> (i < length (png_files E))%nat ->
  exists name img, out !! i = Some (name, img).
Proof.
  intros Hrun Hload Hi Hdone Hpage.
  pose proof (run_completed _ _ _ _ _ _ _ _ Hrun Hload Hdone) as Hlen.
  apply lookup_lt_Some in Hi. unfold deck_titles in Hi. rewrite length_map in Hi.
  destruct (lookup_lt_is_Some_2 out i) as [[name img] H]; [lia|].
  exists name, img. exact H.
Qed.

(** C5: the first slide whose title sanitizes to a name is written under
    that name, and a later slide with the same sanitized title gets the
    suffix _2, _3, ... in slide order: a slide preceded by k slides of
    the same sanitized title is named with suffix k + 1.  This is the
    name the loop computes, and it is the name of the file the run saves
    for that slide: the file at the slide's position bears it, and a run
    that went through all its pages has saved that file whenever there
    is a rasterized page for the slide.  Two slides titled Intro are
    saved as Intro.png and Intro_2.png. *)
Theorem duplicate_titles_numbered :
  (forall titles i t,
     titles !! i = Some (Some t) -> t <> EmptyString ->
     output_names titles 1 ∅ !! i =
       Some (numbered (Sanitizer.sanitize_filename t)
               (occurrences (Sanitizer.sanitize_filename t) (take i titles)))) /\
  (forall name, numbered name 0 = name +:+ ".png") /\
  (forall name k, 1 <= k -> numbered name k = name +:+ "_" +:+ pretty (k + 1) +:+ ".png") /\
  (forall resample E pptx_path output_dir o printed prs i t,
     load_presentation E pptx_path = Ok prs ->
     deck_titles prs !! i = Some (Some t) -> t <> EmptyString ->
     let run := pptx_to_png_transparent resample E pptx_path output_dir o printed in
     let name :=
       numbered (Sanitizer.sanitize_filename t)
         (occurrences (Sanitizer.sanitize_filename t) (take i (deck_titles prs))) in
     (forall file, fst run !! i = Some file -> fst file = name) /\
     (completed (fst (snd run)) -> (i < length (png_files E))%nat ->
      exists img, fst run !! i = Some (name, img))) /\
  map fst (fst (pptx_to_png_transparent Fixtures.nearest Fixtures.intro_run
                  "deck.pptx" "images" Fixtures.default_options []))
  = ["Intro.png"; "Intro_2.png"]%string.
Proof.
  split; [exact numbered_name|]. split; [reflexivity|]. split.
  { intros name k Hk. unfold numbered. destruct (Z.eqb_spec k 0); [lia | reflexivity]. }
  split; [|vm_compute; reflexivity].
  intros resample E pptx_path output_dir o printed prs i t Hload Hi Ht run name.
  pose proof (conversion_run resample E pptx_path output_dir o printed) as Hrun.
  fold run in Hrun.
  assert (Hname : forall file, fst run !! i = Some file -> fst file = name).
  { intros [name' img] Hfile.
    destruct (run_file _ _ _ _ _ _ _ _ _ _ _ Hrun Hload Hfile) as (s & _ & Hn & _).
    rewrite (numbered_name _ _ _ Hi Ht) in Hn. now injection Hn as <-. }
  split; [exact Hname|].
  intros Hdone Hpage.
  destruct (run_file_exists _ _ _ _ _ _ _ _ _ _ Hrun Hload Hi Hdone Hpage)
    as (name' & img & Hfile).
  exists img. rewrite Hfile. f_equal. f_equal. exact (Hname _ Hfile).
Qed.

Lemma duplicate_titles_numbered_witness :
  exists img,
    fst (pptx_to_png_transparent Fixtures.nearest Fixtures.intro_run
           "deck.pptx" "images" Fixtures.default_options []) !! 1%nat
    = Some ("Intro_2.png"%string, img).
Proof.
  destruct duplicate_titles_numbered as (_ & _ & _ & H & _).
  destruct (H Fixtures.nearest Fixtures.intro_run "deck.pptx"%string "images"%string
              Fixtures.default_options [] Fixtures.intro_deck 1%nat "Intro"%string
              eq_refl eq_refl ltac:(discriminate)) as [_ Hfile].
  destruct Hfile as [img Himg].
  - unfold completed. vm_compute. repeat first [left; reflexivity | right].
  - vm_compute. lia.
  - exists img. rewrite Himg. vm_compute. reflexivity.
Defined.

(** C9: a slide with no title shape and no shape with non-empty text has
    no title and no box; the file the run saves for it, at the slide's
    position N in the deck, is named Slide_N.png and is made from the
    N-th rasterized page, and a run that went through all its pages has
    saved that file whenever there is a rasterized page for the
    slide. *)
Theorem untitled_slide_named_by_position :
  (forall prs s,
     Locator.title s = None -> Forall textless (Locator.shapes s) ->
     Locator.extract_slide_title_and_bbox prs s = (None, None)) /\
  (forall resample E pptx_path output_dir o printed prs i s,
     load_presentation E pptx_path = Ok prs ->
     Locator.slides prs !! i = Some s ->
     Locator.title s = None -> Forall textless (Locator.shapes s) ->
     let run := pptx_to_png_transparent resample E pptx_path output_dir o printed in
     let name := "Slide_" +:+ pretty (Z.of_nat i + 1) +:+ ".png" in
     (forall file, fst run !! i = Some file ->
        fst file = name /\ from_page resample E o None i (snd file)) /\
     (completed (fst (snd run)) -> (i < length (png_files E))%nat ->
      exists img, fst run !! i = Some (name, img))).
Proof.
  assert (Hloc : forall prs s,
     Locator.title s = None -> Forall textless (Locator.shapes s) ->
     Locator.extract_slide_title_and_bbox prs s = (None, None)).
  { intros prs s Ht Hs. unfold Locator.extract_slide_title_and_bbox. rewrite Ht.
    apply first_text_none. eapply Forall_impl; [exact Hs|].
    intros sh [Hn | He]; [now left|]. right. exists EmptyString. now split. }
  split; [exact Hloc|].
  intros resample E pptx_path output_dir o printed prs i s Hload Hi Ht Hs run name.
  pose proof (conversion_run resample E pptx_path output_dir o printed) as Hrun.
  fold run in Hrun.
  pose proof (deck_titles_lookup prs i s Hi) as Htitle.
  rewrite (Hloc prs s Ht Hs) in Htitle. cbn [fst] in Htitle.
  assert (Hfile : forall file, fst run !! i = Some file ->
            fst file = name /\ from_page resample E o None i (snd file)).
  { intros [name' img] Hfile.
    destruct (run_file _ _ _ _ _ _ _ _ _ _ _ Hrun Hload Hfile) as (s' & Hs' & Hn & Hp).
    rewrite Hi in Hs'. injection Hs' as <-.
    rewrite (positional_name _ _ None Htitle eq_refl) in Hn. injection Hn as <-.
    rewrite (Hloc prs s Ht Hs) in Hp. split; [reflexivity | exact Hp]. }
  split; [exact Hfile|].
  intros Hdone Hpage.
  destruct (run_file_exists _ _ _ _ _ _ _ _ _ _ Hrun Hload Htitle Hdone Hpage)
    as (name' & img & Hf).
  exists img. rewrite Hf. f_equal. f_equal. exact (proj1 (Hfile _ Hf)).
Qed.

Lemma untitled_slide_named_by_position_witness :
  exists img,
    fst (pptx_to_png_transparent Fixtures.nearest Fixtures.mixed_run
           "deck.pptx" "images" Fixtures.default_options []) !! 1%nat
    = Some ("Slide_2.png"%string, img).
Proof.
  destruct untitled_slide_named_by_position as [_ H].
  destruct (H Fixtures.nearest Fixtures.mixed_run "deck.pptx"%string "images"%string
              Fixtures.default_options [] Fixtures.mixed_deck 1%nat Fixtures.untitled
              eq_refl eq_refl eq_refl) as [_ Hfile].
  - repeat constructor.
  - destruct Hfile as [img Himg].
    + unfold completed. vm_compute. repeat first [left; reflexivity | right].
    + vm_compute. lia.
    + exists img. rewrite Himg. vm_compute. reflexivity.
Defined.





(** C8: the driver promotes each loaded page to RGBA, the background
    filter keeps the mode, the title eraser, the autocropper and the
    resizer return RGBA images when given one, so the processed page is
    RGBA; and every file the run writes holds an RGBA image. *)
Theorem written_images_are_RGBA :
  (forall img, mode_of (ensure_RGBA img) = RGBA) /\
  (forall img, mode_of (background_filter img) = mode_of img) /\
  (forall img bbox margin out,
     mode_of img = RGBA ->
     remove_title_from_image img bbox margin = Ok out -> mode_of out = RGBA) /\
  (forall img margin out, autocrop_image img margin = Ok out -> mode_of out = RGBA) /\
  (forall resample img scale out,
     mode_of img = RGBA ->
     resize_image resample img scale = Ok out -> mode_of out = RGBA) /\
  (forall resample o bbox img out,
     process_image resample o bbox img = Ok out -> mode_of out = RGBA) /\
  (forall resample E slides_info o printed,
     Forall is_RGBA (fst (use_libreoffice_method resample E slides_info o printed))) /\
  (forall resample E pptx_path output_dir o printed,
     Forall is_RGBA
       (fst (pptx_to_png_transparent resample E pptx_path output_dir o printed))).
Proof.
  split; [intros img; apply ensure_RGBA_size|].
  split; [reflexivity|].
  split; [exact remove_title_mode|].
  split; [exact autocrop_mode|].
  split; [intros resample img scale out Hm E; apply resize_image_mode in E; congruence|].
  split; [exact process_image_mode|].
  split.
  - intros resample E slides_info o printed.
    exact (proj1 (method_files _ _ _ _ _ _ _
                    (method_run resample E slides_info o printed))).
  - intros resample E pptx_path output_dir o printed.
    exact (proj1 (run_files _ _ _ _ _ _ _
                    (conversion_run resample E pptx_path output_dir o printed))).
Qed.

Lemma written_images_are_RGBA_witness :
  exists out,
    process_image Fixtures.nearest Fixtures.default_options None
      (Image RGB 1 1 [[(9, 9, 9, 0)]]) = Ok out /\
    mode_of out = RGBA.
Proof.
  eexists. split; [vm_compute; reflexivity|].
  destruct written_images_are_RGBA as (_ & _ & _ & _ & _ & H & _).
  eapply (H Fixtures.nearest Fixtures.default_options None (Image RGB 1 1 [[(9, 9, 9, 0)]])).
  vm_compute. reflexivity.
Defined.

(** The deck with titles A, A and an empty title gives A.png, A_2.png and
    Slide_3.png, all of them RGBA. *)
Example three_slide_deck :
  map fst (fst (pptx_to_png_transparent Fixtures.nearest Fixtures.fair_weather
                  "deck.pptx" "images" Fixtures.default_options []))
  = ["A.png"; "A_2.png"; "Slide_3.png"]%string.
Proof. vm_compute. reflexivity. Qed.
(** *** Names that cannot collide *)

Lemma list_ascii_of_append s1 s2 :
  list_ascii_of_string (s1 +:+ s2) = list_ascii_of_string s1 ++ list_ascii_of_string s2.
Proof. induction s1 as [|c s1 IH]; simpl; [reflexivity | now rewrite IH]. Qed.

Lemma append_inv_tail s1 s2 t : s1 +:+ t = s2 +:+ t -> s1 = s2.
Proof.
  intros E. apply (f_equal list_ascii_of_string) in E.
  rewrite !list_ascii_of_append in E. apply app_inv_tail in E.
  rewrite <- (string_of_list_ascii_of_string s1), <- (string_of_list_ascii_of_string s2).
  now rewrite E.
Qed.

Lemma numbered_inj name k k' :
  0 <= k -> 0 <= k' -> numbered name k = numbered name k' -> k = k'.
Proof.
  intros Hk Hk'. unfold numbered.
  destruct (Z.eqb_spec k 0) as [-> | Hne], (Z.eqb_spec k' 0) as [-> | Hne'];
    intros E; [reflexivity| | |].
  - apply String.app_inj in E. discriminate E.
  - apply String.app_inj in E. discriminate E.
  - apply String.app_inj in E. apply (String.app_inj "_") in E.
    apply append_inv_tail in E. apply pretty_Z_inj in E. lia.
Qed.

Lemma positional_inj p q : positional p = positional q -> p = q.
Proof.
  unfold positional. intros E. apply String.app_inj in E.
  apply append_inv_tail in E. now apply pretty_Z_inj in E.
Qed.

Lemma occurrences_nonneg name titles : 0 <= occurrences name titles.
Proof.
  induction titles as [|t titles IH]; simpl; [lia|].
  destruct (truthy t && _); lia.
Qed.

Lemma occurrences_take_lt name titles i j title :
  (i < j)%nat -> titles !! i = Some title -> truthy title = true ->
  Sanitizer.sanitize_filename (default EmptyString title) = name ->
  occurrences name (take i titles) < occurrences name (take j titles).
Proof.
  intros Hij Hi Ht Hn.
  assert (E : take j titles = take i titles ++ title :: take (j - S i) (drop (S i) titles)).
  { rewrite <- (take_drop_middle titles i title Hi) at 1.
    rewrite take_app_ge by (rewrite length_take; apply lookup_lt_Some in Hi; lia).
    rewrite length_take, Nat.min_l by (apply lookup_lt_Some in Hi; lia).
    f_equal. destruct (j - i)%nat as [|k] eqn:Ek; [lia|].
    simpl. f_equal. f_equal. lia. }
  rewrite E, occurrences_app. cbn [occurrences]. rewrite Ht, Hn, String.eqb_refl.
  pose proof (occurrences_nonneg name (take (j - S i) (drop (S i) titles))).
  simpl. lia.
Qed.

(** X13: Two slides of one run whose titles sanitize to the same name never
    get the same file name. *)
Theorem same_title_names_differ (titles : list (option string)) (i j : nat)
    (ti tj : string) :
  (i < j)%nat ->
  titles !! i = Some (Some ti) -> titles !! j = Some (Some tj) ->
  ti <> EmptyString -> tj <> EmptyString ->
  Sanitizer.sanitize_filename ti = Sanitizer.sanitize_filename tj ->
  output_names titles 1 ∅ !! i <> output_names titles 1 ∅ !! j.
Proof.
  intros Hij Hi Hj Hti Htj Hsame.
  assert (Tti : truthy (Some ti) = true) by (destruct ti; [contradiction | reflexivity]).
  assert (Ttj : truthy (Some tj) = true) by (destruct tj; [contradiction | reflexivity]).
  rewrite (output_names_numbered titles 1 ∅ i (Some ti) registry_ok_empty Hi Tti).
  rewrite (output_names_numbered titles 1 ∅ j (Some tj) registry_ok_empty Hj Ttj).
  change (default EmptyString (Some ti)) with ti.
  change (default EmptyString (Some tj)) with tj.
  rewrite <- Hsame. unfold counts_from. rewrite lookup_empty.
  change (default 0 None) with 0. rewrite !Z.add_0_l.
  intros E. injection E as E.
  pose proof (occurrences_nonneg (Sanitizer.sanitize_filename ti) (take i titles)).
  pose proof (occurrences_take_lt (Sanitizer.sanitize_filename ti) titles i j
                (Some ti) Hij Hi Tti eq_refl).
  apply numbered_inj in E; lia.
Qed.

Lemma same_title_names_differ_witness :
  output_names [Some "A: b"; None; Some "A b?"]%string 1 ∅ !! 0%nat
  <> output_names [Some "A: b"; None; Some "A b?"]%string 1 ∅ !! 2%nat.
Proof.
  apply (same_title_names_differ [Some "A: b"; None; Some "A b?"]%string 0 2
           "A: b" "A b?"); try discriminate; try lia; vm_compute; reflexivity.
Defined.

(** X14: Two slides without a usable title never get the same file name, and
    such a slide leaves the registry as it was. *)
Theorem untitled_names_differ (titles : list (option string)) (i j : nat)
    (ti tj : option string) :
  i <> j ->
  titles !! i = Some ti -> titles !! j = Some tj ->
  truthy ti = false -> truthy tj = false ->
  output_names titles 1 ∅ !! i <> output_names titles 1 ∅ !! j /\
  forall idx name_counts, snd (output_name idx ti name_counts) = name_counts.
Proof.
  intros Hij Hi Hj Hti Htj. split.
  - rewrite (output_names_positional titles 1 ∅ i ti Hi Hti).
    rewrite (output_names_positional titles 1 ∅ j tj Hj Htj).
    intros E. apply (inj Some) in E. apply positional_inj in E. lia.
  - intros idx name_counts. unfold output_name. now rewrite Hti.
Qed.

Lemma untitled_names_differ_witness :
  output_names [None; Some "A"; Some EmptyString]%string 1 ∅ !! 0%nat
  <> output_names [None; Some "A"; Some EmptyString]%string 1 ∅ !! 2%nat.
Proof.
  apply (untitled_names_differ [None; Some "A"; Some EmptyString]%string 0 2
           None (Some EmptyString)); try reflexivity. lia.
Defined.


(** *** Failures in the loop and before it *)

(** X15: An exception on one page ends the loop.  The pages before it
    are done: their files are saved and their lines printed, under the
    names of the loop.  The exception either comes from opening,
    processing or saving the page, and then no file of that page or of a
    later one is saved; or it comes from reading the size of the file
    just saved or from printing its line, and then that file is the last
    one saved. *)
Theorem process_slides_stops_at_first_failure
    (resample : image -> Z -> Z -> list (list pixel)) (E : env) (o : options)
    (pages : list (string * slide_info)) (printed : list message) (e : exn) :
  let run := process_slides resample E o pages 1 ∅ 0 0 printed in
  let names := output_names (titles_of pages) 1 ∅ in
  snd (snd run) = Raise e ->
  exists (k : nat) png_file title bbox name,
    pages !! k = Some (png_file, (title, bbox)) /\
    names !! k = Some name /\
    fst (snd run) = map MsgWritten (take k names) /\
    ((map fst (fst run) = take k names /\
      (open_image E png_file = Raise e \/
       exists img0, open_image E png_file = Ok img0 /\
         (process_image resample o bbox img0 = Raise e \/
          exists img printed',
            process_image resample o bbox img0 = Ok img /\
            save_image E printed' name img = Raise e))) \/
     (map fst (fst run) = take (S k) names /\
      exists printed',
        getsize E printed' name = Raise e \/
        stdout E printed' (MsgWritten name) = Raise e)).
Proof.
  intros run names Hr.
  pose proof (process_slides_spec resample E o pages 1 ∅ 0 0 printed) as H.
  unfold outcome in H. fold run in H. fold names in H.
  destruct H as (k & n & Hmsgs & _ & Hnames & _ & _ & _ & Hend).
  rewrite Hr in Hend.
  destruct Hend as (png_file & title & bbox & name & Hpage & Hname & Hcause).
  exists k, png_file, title, bbox, name.
  split; [exact Hpage|]. split; [exact Hname|]. split; [exact Hmsgs|].
  destruct Hcause as [[-> Hc] | [-> Hc]]; [left | right]; auto.
Qed.

Lemma process_slides_stops_at_first_failure_witness :
  snd (snd (process_slides Fixtures.nearest Fixtures.vanishing_files
              Fixtures.default_options Fixtures.two_pages 1 ∅ 0 0 []))
  = Raise FileNotFoundError /\
  exists (k : nat) png_file title bbox name,
    Fixtures.two_pages !! k = Some (png_file, (title, bbox)) /\
    output_names (titles_of Fixtures.two_pages) 1 ∅ !! k = Some name /\
    fst (snd (process_slides Fixtures.nearest Fixtures.vanishing_files
                Fixtures.default_options Fixtures.two_pages 1 ∅ 0 0 []))
    = map MsgWritten (take k (output_names (titles_of Fixtures.two_pages) 1 ∅)) /\
    ((map fst (fst (process_slides Fixtures.nearest Fixtures.vanishing_files
                      Fixtures.default_options Fixtures.two_pages 1 ∅ 0 0 []))
      = take k (output_names (titles_of Fixtures.two_pages) 1 ∅) /\
      (open_image Fixtures.vanishing_files png_file = Raise FileNotFoundError \/
       exists img0, open_image Fixtures.vanishing_files png_file = Ok img0 /\
         (process_image Fixtures.nearest Fixtures.default_options bbox img0
          = Raise FileNotFoundError \/
          exists img printed',
            process_image Fixtures.nearest Fixtures.default_options bbox img0 = Ok img /\
            save_image Fixtures.vanishing_files printed' name img
            = Raise FileNotFoundError))) \/
     (map fst (fst (process_slides Fixtures.nearest Fixtures.vanishing_files
                      Fixtures.default_options Fixtures.two_pages 1 ∅ 0 0 []))
      = take (S k) (output_names (titles_of Fixtures.two_pages) 1 ∅) /\
      exists printed',
        getsize Fixtures.vanishing_files printed' name = Raise FileNotFoundError \/
        stdout Fixtures.vanishing_files printed' (MsgWritten name)
        = Raise FileNotFoundError)).
Proof.
  split; [vm_compute; reflexivity|].
  apply (process_slides_stops_at_first_failure Fixtures.nearest
           Fixtures.vanishing_files Fixtures.default_options Fixtures.two_pages
           [] FileNotFoundError).
  vm_compute. reflexivity.
Defined.

(** X16: Files are written only when the conversion to PDF succeeded, with
    [soffice] or, if that binary is missing, with [libreoffice], the PDF
    exists, [pdftoppm] succeeded and left at least one page, and there is
    at least one slide. *)
Theorem files_only_after_conversion
    (resample : image -> Z -> Z -> list (list pixel)) (E : env)
    (slides_info : list slide_info) (o : options) (printed : list message) :
  fst (use_libreoffice_method resample E slides_info o printed) <> [] ->
  (run_soffice E = Ok tt \/
   (run_soffice E = Raise FileNotFoundError /\ run_libreoffice E = Ok tt)) /\
  pdf_exists E = true /\ run_pdftoppm E = Ok tt /\
  png_files E <> [] /\ slides_info <> [].
Proof.
  intros Hne.
  destruct (method_files _ _ _ _ _ _ _
              (method_run resample E slides_info o printed))
    as (_ & _ & H).
  destruct (H Hne) as [(Hpdf & Hexists & Hpng & Hpages) Hslides]. auto.
Qed.

Lemma files_only_after_conversion_witness :
  fst (use_libreoffice_method Fixtures.nearest Fixtures.fair_weather
         [(Some "A"%string, None)] Fixtures.default_options []) <> [] /\
  run_pdftoppm Fixtures.fair_weather = Ok tt.
Proof.
  assert (H : fst (use_libreoffice_method Fixtures.nearest Fixtures.fair_weather
                     [(Some "A"%string, None)] Fixtures.default_options []) <> [])
    by (vm_compute; discriminate).
  split; [exact H|].
  exact (proj1 (proj2 (proj2 (files_only_after_conversion _ _ _ _ _ H)))).
Defined.

(** X17: However the run goes, it writes at most one file per rasterized page
    and at most one per slide. *)
Theorem never_more_files_than_pages
    (resample : image -> Z -> Z -> list (list pixel)) (E : env) :
  (forall slides_info o printed,
     (length (fst (use_libreoffice_method resample E slides_info o printed))
      <= Nat.min (length (png_files E)) (length slides_info))%nat) /\
  (forall pptx_path output_dir o printed prs,
     load_presentation E pptx_path = Ok prs ->
     (length (fst (pptx_to_png_transparent resample E pptx_path output_dir o printed))
      <= Nat.min (length (png_files E)) (length (Locator.slides prs)))%nat).
Proof.
  split.
  - intros slides_info o printed.
    exact (proj1 (proj2 (method_files _ _ _ _ _ _ _
                           (method_run resample E slides_info o printed)))).
  - intros pptx_path output_dir o printed prs Hload.
    exact (proj2 (run_files _ _ _ _ _ _ _
                    (conversion_run resample E pptx_path output_dir o printed))
             prs Hload).
Qed.

Lemma never_more_files_than_pages_witness :
  (length (fst (pptx_to_png_transparent Fixtures.nearest Fixtures.fair_weather
                  "deck.pptx" "images" Fixtures.default_options [])) <= 3)%nat.
Proof.
  exact (proj2 (never_more_files_than_pages Fixtures.nearest Fixtures.fair_weather)
           "deck.pptx"%string "images"%string Fixtures.default_options []
           Fixtures.deck eq_refl).
Defined.

End DriverFacts.

(** ** The command line and the handling of failures *)

Module CliFacts.

Import Raster Driver DriverSpec DriverFacts Cli CliSpec.

Lemma outcome_any {A} (m : action A) printed
    (Q : written -> list message -> result A -> Prop) :
  (forall out msgs r, Q out msgs r) -> outcome m printed Q.
Proof. unfold outcome. auto. Qed.

(** A diagnostic among the lines, found part by part. *)
Ltac diagnosed :=
  unfold reports_failure in *; cbn [app];
  repeat (progress (rewrite ?existsb_app; cbn [existsb is_diagnostic orb]));
  repeat match goal with
         | H : existsb is_diagnostic _ = true |- _ => rewrite H
         end;
  repeat (progress (cbn [orb]; rewrite ?orb_true_r));
  reflexivity.

Ltac has_done :=
  cbn [app]; repeat (progress (rewrite ?in_app_iff; cbn [In])); auto 10.

(** With a standard output that works, a line is printed. *)
Ltac run_printing Hworks Hexc :=
  repeat first
    [ rewrite Hworks; cbn [negb]
    | rewrite Hexc; cbn [negb]
    | run_rule | run_case
    | progress unfold convert_presentation, report_error
    | eapply outcome_weaken; [apply announce_settings_spec|];
      intros ? ? ? (-> & ? & ? & ?); cbn beta
    | eapply outcome_weaken; [apply announce_output_spec|];
      intros ? ? ? (-> & ? & ? & ?); cbn beta
    | eapply outcome_weaken; [apply collect_slides_info_spec|];
      intros ? ? ? ((-> & ? & ? & ?) & ?); cbn beta
    | eapply outcome_weaken; [apply use_libreoffice_method_spec|];
      intros ? ? ? ?; cbn beta ].

(** Once the output directory is there and the streams work, the
    conversion returns whatever happens inside it, after a diagnostic or
    after its statistics and its closing line. *)
Lemma pptx_to_png_transparent_returns resample E pptx_path output_dir o printed :
  stdout_works E -> print_exc E = Ok tt ->
  (exists u, makedirs E output_dir = Ok u) ->
  (exists l, listdir E output_dir = Ok l) ->
  outcome (pptx_to_png_transparent resample E pptx_path output_dir o) printed
    RunSpec.returned_normally.
Proof.
  intros Hworks Hexc [u Hmk] [l Hls]. unfold pptx_to_png_transparent.
  rewrite Hmk, Hls. run_printing Hworks Hexc.
  all: repeat match goal with
         | Hw : stdout_works ?E', H : stdout_works ?E' -> exists a, Raise _ = Ok a |- _ =>
             destruct (H Hw) as [? Hbad]; discriminate Hbad
         | Hx : print_exc ?E' = Ok tt, H : print_exc ?E' = Raise _ |- _ =>
             rewrite Hx in H; discriminate H
         | u : unit |- _ => destruct u
         end.
  all: split; [reflexivity|].
  all: try match goal with
           | H : RunSpec.method_outcome _ _ _ _ _ _ (Ok _) |- _ =>
               destruct H as [(_ & _ & Hrep) | (_ & _ & _ & _ & _ & Hdone)];
               [specialize (Hrep _ eq_refl) | specialize (Hdone _ eq_refl)]
           end.
  all: first [ left; solve [diagnosed]
             | right; unfold completed in *; split; has_done ].
Qed.

(** An exception leaves the conversion only from creating or listing
    the output directory, from standard output or from the printing of
    the traceback. *)
Lemma pptx_to_png_transparent_escape resample E pptx_path output_dir o printed :
  outcome (pptx_to_png_transparent resample E pptx_path output_dir o) printed
    (fun out msgs r =>
       forall e, r = Raise e -> RunSpec.escape_cause E output_dir out msgs e).
Proof.
  unfold pptx_to_png_transparent.
  repeat first
    [ run_rule | run_case
    | eapply outcome_weaken; [apply announce_output_spec|];
      intros ? ? ? (-> & ? & ? & ?); cbn beta
    | progress unfold report_error
    | match goal with
      | |- outcome (convert_presentation _ _ _ _) _ _ =>
          apply outcome_any; intros ? ? ?
      end ].
  all: intros e' He'; try discriminate He'.
  all: try (injection He' as <-).
  all: unfold RunSpec.escape_cause; cbn [app].
  all: first [ left; split; [reflexivity|]; split; [reflexivity|]; auto; fail
             | right; left; eauto; fail
             | right; right; assumption
             | right; left;
               match goal with
               | H : forall e, ?r = Raise e -> _, Hr : ?r = Raise _ |- _ =>
                   exact (H _ Hr)
               | H : forall e, Raise ?x = Raise e -> _ |- _ => exact (H _ eq_refl)
               end ].
Qed.

(** The usage text: only usage lines, all of them when standard output
    works, and an exception is one of standard output. *)
Lemma print_lines_spec E m n : forall printed,
  outcome (print_lines E m n) printed
    (fun out msgs r =>
       out = [] /\
       (stdout_works E -> msgs = repeat m n /\ r = Ok tt) /\
       (forall e, r = Raise e -> exists printed' m', stdout E printed' m' = Raise e)).
Proof.
  induction n as [|n IH]; intros printed; cbn [print_lines].
  - run. split; [reflexivity|]. split; [auto | discriminate].
  - run_to_call. run_case.
    + eapply outcome_weaken; [apply IH|].
      intros out msgs r (-> & Hok & Hfail). split; [reflexivity|]. split.
      * intros Hw. destruct (Hok Hw) as [-> ->]. split; reflexivity.
      * exact Hfail.
    + split; [reflexivity|]. split.
      * intros Hw.
        match goal with
        | H : stdout _ ?p ?m' = Raise _ |- _ => rewrite (Hw p m') in H; discriminate H
        end.
      * intros e' He'. injection He' as <-. eauto.
Qed.

Lemma main_run resample E prog pptx_file rest s :
  import_libraries E = Ok tt ->
  parse_options (skipn 1 rest) defaults = Ok s ->
  exists out msgs r,
    pptx_to_png_transparent resample E pptx_file (output_folder rest)
      {| remove_title := negb (keep_title s); autocrop := do_autocrop s;
         crop_margin := margin s; scale_percent := scale s |} []
    = (out, (msgs, r)) /\
    main resample E (prog :: pptx_file :: rest)
    = (out, (msgs, match r with Ok _ => Returned | Raise e => Uncaught e end)).
Proof.
  intros Himp Hparse. unfold main. rewrite Himp, Hparse. fold (output_folder rest).
  destruct (pptx_to_png_transparent resample E pptx_file (output_folder rest) _ [])
    as [out [msgs r]].
  exists out, msgs, r. split; [reflexivity|]. now destruct r.
Qed.

(** C7, as the code has it: with a source path, libraries that load,
    options whose numbers parse, an output directory that can be created
    and listed, and standard streams that take what is written to them,
    the program returns normally, with exit status 0, whatever fails
    during the run, and either a diagnostic has been printed or the run
    has printed its statistics and its closing line and saved one file
    for every rasterized page that has a slide.  Without a source path
    it prints the 23 lines of the usage and exits with status 1, under
    the same conditions on the libraries and the streams, and its exit
    status is never 0. *)
Theorem failures_return_normally (resample : image -> Z -> Z -> list (list pixel))
    (E : env) :
  (forall prog pptx_file rest s,
     import_libraries E = Ok tt ->
     parse_options (skipn 1 rest) defaults = Ok s ->
     (exists u, makedirs E (output_folder rest) = Ok u) ->
     (exists l, listdir E (output_folder rest) = Ok l) ->
     streams_work E ->
     let res := main resample E (prog :: pptx_file :: rest) in
     snd (snd res) = Returned /\
     exit_code E (snd (snd res)) = 0 /\
     (reports_failure (fst (snd res)) \/
      (In MsgDone (fst (snd res)) /\ completed (fst (snd res)) /\
       exists prs, load_presentation E pptx_file = Ok prs /\
         length (fst res) =
           Nat.min (length (png_files E)) (length (Locator.slides prs))))) /\
  (forall argv,
     (length argv < 2)%nat ->
     import_libraries E = Ok tt -> streams_work E ->
     snd (main resample E argv) = (repeat MsgUsage 23, SysExit 1) /\
     exit_code E (snd (snd (main resample E argv))) = 1) /\
  (forall argv,
     (length argv < 2)%nat ->
     exit_code E (snd (snd (main resample E argv))) <> 0).
Proof.
  split; [|split].
  - intros prog pptx_file rest s Himp Hparse Hmk Hls (Hworks & Hexc & Hflush) res.
    destruct (main_run resample E prog pptx_file rest s Himp Hparse)
      as (out & msgs & r & Hrun & Hmain).
    subst res. rewrite Hmain. cbn [fst snd].
    pose proof (pptx_to_png_transparent_returns resample E pptx_file (output_folder rest)
      {| remove_title := negb (keep_title s); autocrop := do_autocrop s;
         crop_margin := margin s; scale_percent := scale s |} [] Hworks Hexc Hmk Hls)
      as Hret.
    pose proof (conversion_run resample E pptx_file (output_folder rest)
      {| remove_title := negb (keep_title s); autocrop := do_autocrop s;
         crop_margin := margin s; scale_percent := scale s |} []) as Hout.
    unfold outcome in Hret. rewrite Hrun in Hret, Hout. cbn [fst snd] in Hret, Hout.
    destruct Hret as [-> Hmsgs].
    split; [reflexivity|]. split; [unfold exit_code; now rewrite Hflush|].
    destruct Hmsgs as [Hrep | [Hdone Hclosing]]; [now left | right].
    split; [exact Hclosing|]. split; [exact Hdone|].
    destruct Hout as [(_ & Hno) | (prs & Hload & Hrest)]; [contradiction|].
    exists prs. split; [exact Hload|].
    refine (run_completed resample E pptx_file _ out msgs (Ok tt) prs _ Hload Hdone).
    right. exists prs. split; [exact Hload | exact Hrest].
  - intros argv Hlen Himp (Hworks & _ & Hflush). unfold main. rewrite Himp.
    pose proof (print_lines_spec E MsgUsage 23 []) as Husage. unfold outcome in Husage.
    destruct (print_lines E MsgUsage 23 []) as [out [msgs r]].
    cbn [fst snd] in Husage. destruct Husage as (-> & Hok & _).
    destruct (Hok Hworks) as [-> ->].
    destruct argv as [|a [|b argv]]; cbn [length] in Hlen; try lia;
      (split; [reflexivity | unfold exit_code; now rewrite Hflush]).
  - intros argv Hlen. unfold exit_code.
    destruct (flush_std_files E); [|discriminate].
    unfold main. destruct (import_libraries E) as [imported | e0]; [|discriminate].
    destruct (print_lines E MsgUsage 23 []) as [out [msgs [u | e]]];
      destruct argv as [|prog [|pptx_file argv]]; cbn [length] in Hlen; try lia;
      discriminate.
Qed.

Lemma failures_return_normally_witness :
  parse_options ["--scale=50"]%string defaults
  = Ok {| resolution := 300; keep_title := false; do_autocrop := true;
          margin := 20; scale := 50 |} /\
  snd (snd (main Fixtures.nearest Fixtures.no_poppler
              ["extract_slides.py"; "deck.pptx"; "out"; "--scale=50"]%string))
  = Returned.
Proof.
  assert (Hparse : parse_options ["--scale=50"]%string defaults
    = Ok {| resolution := 300; keep_title := false; do_autocrop := true;
            margin := 20; scale := 50 |}) by (vm_compute; reflexivity).
  split; [exact Hparse|].
  apply (proj1 (failures_return_normally Fixtures.nearest Fixtures.no_poppler)
           "extract_slides.py"%string "deck.pptx"%string ["out"; "--scale=50"]%string
           _ eq_refl Hparse).
  - exists tt. reflexivity.
  - exists []. reflexivity.
  - repeat split.
Defined.

(** Without [pdftoppm] the run prints the hint and still returns. *)
Example missing_rasterizer_is_reported :
  reports_failure
    (fst (snd (main Fixtures.nearest Fixtures.no_poppler
                 ["extract_slides.py"; "deck.pptx"; "out"; "--scale=50"]%string))).
Proof. vm_compute. reflexivity. Qed.

(** C7 fails before the run starts and where the run prints: a value of
    --scale that is not a number raises [ValueError] while the options
    are read, outside every handler; so does a failure to create the
    output directory; and on a standard output that cannot encode the
    signs of the messages the first line printed raises.  The process
    then ends with the exception, exit status 1, although a source path
    was supplied. *)
Lemma malformed_option_is_uncaught :
  snd (main Fixtures.nearest Fixtures.fair_weather
         ["extract_slides.py"; "deck.pptx"; "out"; "--scale=abc"]%string)
  = ([], Uncaught ValueError) /\
  exit_code Fixtures.fair_weather
    (snd (snd (main Fixtures.nearest Fixtures.fair_weather
         ["extract_slides.py"; "deck.pptx"; "out"; "--scale=abc"]%string))) = 1 /\
  snd (main Fixtures.nearest Fixtures.read_only
         ["extract_slides.py"; "deck.pptx"; "out"]%string)
  = ([], Uncaught OSError) /\
  snd (main Fixtures.nearest Fixtures.plain_console
         ["extract_slides.py"; "deck.pptx"; "out"]%string)
  = ([], Uncaught UnicodeEncodeError).
Proof. vm_compute. repeat split. Qed.
(** *** Reading the options *)

(** X18: When the options are read without error, the title is kept exactly
    if it was kept before or [--keep-title] occurs among the arguments,
    and the crop is done exactly if it was done before and [--no-crop]
    does not occur; no other argument touches these two settings. *)
Theorem parse_options_flags (args : list string) (s s' : settings) :
  parse_options args s = Ok s' ->
  keep_title s' = keep_title s || existsb (String.eqb "--keep-title") args /\
  do_autocrop s' = do_autocrop s && negb (existsb (String.eqb "--no-crop") args).
Proof.
  revert s. induction args as [|arg args IH]; intros s H.
  - injection H as <-. cbn [existsb negb]. now rewrite orb_false_r, andb_true_r.
  - cbn [parse_options existsb] in *.
    rewrite (String.eqb_sym "--keep-title" arg), (String.eqb_sym "--no-crop" arg).
    destruct (String.eqb arg "--keep-title") eqn:Ek.
    { apply String.eqb_eq in Ek. subst arg. apply IH in H. cbn [keep_title do_autocrop] in H.
      destruct H as [-> ->]. cbn. now rewrite orb_true_r. }
    destruct (String.eqb arg "--no-crop") eqn:Enc.
    { apply IH in H. cbn [keep_title do_autocrop] in H.
      destruct H as [-> ->]. cbn. now rewrite andb_false_r. }
    cbn [orb negb].
    destruct (String.prefix "--crop-margin=" arg).
    { destruct (int_of_string (value_of arg)) as [n|e]; [|discriminate H].
      cbn [bind] in H. apply IH in H. exact H. }
    destruct (String.prefix "--scale=" arg).
    { destruct (int_of_string (value_of arg)) as [n|e]; [|discriminate H].
      cbn [bind] in H. apply IH in H. exact H. }
    destruct (isdigit arg).
    { destruct (int_of_string arg) as [n|e]; [|discriminate H].
      cbn [bind] in H. apply IH in H. exact H. }
    apply IH in H. exact H.
Qed.

Lemma parse_options_flags_witness :
  exists s',
    parse_options ["150"; "--no-crop"; "--scale=40"; "--verbose"]%string defaults = Ok s' /\
    keep_title s' = false /\ do_autocrop s' = false.
Proof.
  eexists. split; [vm_compute; reflexivity|].
  exact (parse_options_flags ["150"; "--no-crop"; "--scale=40"; "--verbose"]%string
           defaults _ eq_refl).
Defined.


(** *** Exceptions that escape *)

(** X19: An exception that ends the program comes from one of four
    places.  Either the libraries do not load, the options do not parse,
    or the output directory cannot be created or listed, and then
    nothing has been saved or printed; or standard output raised it; or
    the printing of the traceback raised it. *)
Theorem uncaught_exception_causes (resample : image -> Z -> Z -> list (list pixel))
    (E : env) (argv : list string) (e : exn) :
  snd (snd (main resample E argv)) = Uncaught e ->
  (fst (main resample E argv) = [] /\ fst (snd (main resample E argv)) = [] /\
   (import_libraries E = Raise e \/
    exists prog pptx_file rest,
      argv = prog :: pptx_file :: rest /\
      (parse_options (skipn 1 rest) defaults = Raise e \/
       makedirs E (output_folder rest) = Raise e \/
       listdir E (output_folder rest) = Raise e))) \/
  (exists printed m, stdout E printed m = Raise e) \/
  print_exc E = Raise e.
Proof.
  unfold main. destruct (import_libraries E) as [[] | e0] eqn:Himp.
  2: { intros He. injection He as ->. left. auto. }
  destruct argv as [|prog [|pptx_file rest]].
  1, 2: pose proof (print_lines_spec E MsgUsage 23 []) as Husage;
        unfold outcome in Husage;
        destruct (print_lines E MsgUsage 23 []) as [out [msgs [u | e0]]];
        cbn [fst snd] in *; [discriminate|];
        intros He; injection He as ->; right; left;
        exact (proj2 (proj2 Husage) _ eq_refl).
  fold (output_folder rest).
  destruct (parse_options (skipn 1 rest) defaults) as [s | e0] eqn:Hparse.
  2: { intros He. injection He as ->. left. split; [reflexivity|].
       split; [reflexivity|]. right. exists prog, pptx_file, rest. auto. }
  pose proof (pptx_to_png_transparent_escape resample E pptx_file (output_folder rest)
    {| remove_title := negb (keep_title s); autocrop := do_autocrop s;
       crop_margin := margin s; scale_percent := scale s |} []) as Hesc.
  unfold outcome in Hesc.
  destruct (pptx_to_png_transparent resample E pptx_file (output_folder rest) _ [])
    as [out [msgs [u | e0]]]; cbn [fst snd] in *; [discriminate|].
  intros He. injection He as ->.
  destruct (Hesc _ eq_refl) as [(-> & -> & Hdir) | [Hout | Hexc]].
  - left. split; [reflexivity|]. split; [reflexivity|]. right.
    exists prog, pptx_file, rest. split; [reflexivity|]. tauto.
  - right. left. exact Hout.
  - right. right. exact Hexc.
Qed.

Lemma uncaught_exception_causes_witness :
  snd (snd (main Fixtures.nearest Fixtures.plain_console
              ["extract_slides.py"; "deck.pptx"; "out"]%string))
  = Uncaught UnicodeEncodeError /\
  ((fst (main Fixtures.nearest Fixtures.plain_console
           ["extract_slides.py"; "deck.pptx"; "out"]%string) = [] /\
    fst (snd (main Fixtures.nearest Fixtures.plain_console
                ["extract_slides.py"; "deck.pptx"; "out"]%string)) = [] /\
    (import_libraries Fixtures.plain_console = Raise UnicodeEncodeError \/
     exists prog pptx_file rest,
       ["extract_slides.py"; "deck.pptx"; "out"]%string = prog :: pptx_file :: rest /\
       (parse_options (skipn 1 rest) defaults = Raise UnicodeEncodeError \/
        makedirs Fixtures.plain_console (output_folder rest) = Raise UnicodeEncodeError \/
        listdir Fixtures.plain_console (output_folder rest) = Raise UnicodeEncodeError))) \/
   (exists printed m, stdout Fixtures.plain_console printed m = Raise UnicodeEncodeError) \/
   print_exc Fixtures.plain_console = Raise UnicodeEncodeError).
Proof.
  assert (H : snd (snd (main Fixtures.nearest Fixtures.plain_console
                ["extract_slides.py"; "deck.pptx"; "out"]%string))
              = Uncaught UnicodeEncodeError) by (vm_compute; reflexivity).
  split; [exact H|].
  exact (uncaught_exception_causes _ _ _ _ H).
Defined.

End CliFacts.
